(** * Vibe-Fusion: attribute resolution and matching engine

    A shallow embedding of the resolution core of the repository
    (similarity matcher, oracle-output validation, attribute fusion,
    completeness check and clarification questions), of the query analyzer
    and of the conversation state of the web application, followed by the
    properties established about them.

    Conventions of the embedding.
    - A Python [dict] with string keys is a [gmap string _].  A map forgets
      the insertion order in which [d.items()] enumerates a dict, so that
      order is supplied by the class [ItemsOrder]; every loop over
      [items()] goes through it.
    - Where the source relies on order (the knowledge base, lists of
      phrases), plain lists are used.
    - Scores are floats in the source; only comparisons are performed on
      them, so they are represented by rationals [Q].
    - Strings are sequences of ASCII characters.
    - Python exceptions are explicit: fallible functions live in [result]. *)

From Stdlib Require Import QArith Ascii String.
From stdpp Require Import gmap strings list fin_maps sorting.

Open Scope string_scope.

Set Warnings "-register-all,-clear-no-such-hyp".

(** ** Python values, truthiness, exceptions *)

Module Py.

Inductive exn : Type :=
  | KeyError
  | AttributeError
  | ValueError
  | TypeError.

Inductive result (A : Type) : Type :=
  | Ret (a : A)
  | Raise (e : exn).

Arguments Ret {A} a.
Arguments Raise {A} e.

#[global] Instance result_ret : MRet result := fun A a => Ret a.

#[global] Instance result_bind : MBind result := fun A B f m =>
  match m with
  | Ret a => f a
  | Raise e => Raise e
  end.

(** Values that travel through the attribute dictionaries: JSON data,
    extracted strings and numeric budgets. *)
Inductive pyval : Type :=
  | VNone
  | VBool (b : bool)
  | VNum (q : Q)
  | VStr (s : string)
  | VList (items : list pyval)
  | VDict (fields : list (string * pyval)).

(** [bool(v)], i.e. the test performed by [if value:]. *)
Definition truthy (v : pyval) : bool :=
  match v with
  | VNone => false
  | VBool b => b
  | VNum q => negb (Qeq_bool q 0)
  | VStr s => negb (String.eqb s "")
  | VList items => match items with [] => false | _ => true end
  | VDict fields => match fields with [] => false | _ => true end
  end.

(** A value that is neither [None] nor an empty string or container. *)
Definition non_empty_non_null (v : pyval) : bool :=
  match v with
  | VNone => false
  | VStr s => negb (String.eqb s "")
  | VList items => match items with [] => false | _ => true end
  | VDict fields => match fields with [] => false | _ => true end
  | VBool _ | VNum _ => true
  end.

(** [isinstance(v, str)] and [isinstance(v, list)]. *)
Definition is_str (v : pyval) : bool :=
  match v with VStr _ => true | _ => false end.

(** [v in xs] for a list [xs] of strings: only a string compares equal to
    a string. *)
Definition value_in (v : pyval) (xs : list string) : bool :=
  match v with
  | VStr s => bool_decide (s ∈ xs)
  | _ => false
  end.

(** [x > y] and [x >= y] on scores. *)
Definition Qlt_bool (x y : Q) : bool := negb (Qle_bool y x).
Definition Qge_bool (x y : Q) : bool := Qle_bool y x.

(** *** Strings *)

(** [c.lower()] on ASCII. *)
Definition lower_ascii (c : ascii) : ascii :=
  let n := nat_of_ascii c in
  if (65 <=? n)%nat && (n <=? 90)%nat then ascii_of_nat (n + 32) else c.

Fixpoint lower (s : string) : string :=
  match s with
  | EmptyString => EmptyString
  | String c s' => String (lower_ascii c) (lower s')
  end.

(** The ASCII characters [str.strip()] removes. *)
Definition is_py_space (c : ascii) : bool :=
  let n := nat_of_ascii c in
  ((9 <=? n)%nat && (n <=? 13)%nat) || ((28 <=? n)%nat && (n <=? 32)%nat).

Fixpoint lstrip (s : string) : string :=
  match s with
  | EmptyString => EmptyString
  | String c s' => if is_py_space c then lstrip s' else s
  end.

Definition rstrip (s : string) : string := String.rev (lstrip (String.rev s)).

Definition strip (s : string) : string := rstrip (lstrip s).

(** [needle in hay] for strings. *)
Fixpoint contains (needle hay : string) : bool :=
  if String.prefix needle hay then true
  else match hay with
       | EmptyString => false
       | String _ hay' => contains needle hay'
       end.

(** [sep.join(xs)]. *)
Definition join (sep : string) (xs : list string) : string := String.concat sep xs.

End Py.

Export Py.

Abbreviation dict := (gmap string pyval).

(** ** Iteration order of dictionaries *)

(** [dict_items d] is [list(d.items())].  Python yields the bindings in
    insertion order; whatever that order is, the list is a permutation of
    the bindings of the map. *)
Class ItemsOrder : Type := {
  dict_items : ∀ {A : Type}, gmap string A → list (string * A);
  dict_items_perm : ∀ (A : Type) (d : gmap string A), dict_items d ≡ₚ map_to_list d
}.

(** One instance: enumeration in the order of the map's own traversal. *)
#[export] Instance traversal_order : ItemsOrder := {
  dict_items := fun A d => map_to_list d;
  dict_items_perm := fun A d => reflexivity _
}.

(** ** modules/similarity_matcher.py *)

Module SimilarityMatcher.

(** The two numeric back ends the matcher calls into (spaCy vectors and
    scikit-learn's TF-IDF); their arithmetic is outside the repository. *)
Class Backend : Type := {
  (** [self.nlp]: whether [spacy.load] succeeded. *)
  nlp : bool;
  (** [doc1.similarity(doc2)]; [None] when the call raises. *)
  doc_similarity : string → string → option Q;
  (** whether [fit_transform] succeeds on the given vibe keys. *)
  tfidf_fit_transform : list string → bool;
  (** [cosine_similarity(transform([q]), tfidf_matrix).flatten()], one
      score per fitted row; [None] when the call raises. *)
  tfidf_cosine : list string → string → option (list Q)
}.

(** The knowledge base as loaded: [(mapping_name, mapping_data)] in load
    order, each [mapping_data] being [(vibe_key, attributes)] in file order. *)
Abbreviation mappings := (list (string * list (string * dict))).

(** The fields of a matcher object. *)
Record t : Type := {
  similarity_threshold : Q;
  vibe_mappings : mappings;
  all_vibe_keys : list string;
  key_to_mapping : gmap string (string * dict);
  (** the fitted rows, [None] when fitting failed or there was no key *)
  tfidf_matrix : option (list string)
}.

(** The tuple [(vibe_key, similarity_score, mapping_type, attributes)]. *)
Abbreviation best_match_t := (string * Q * string * dict)%type.

Record rule_based_match : Type := {
  input_phrase : string;
  matched_vibe : string;
  similarity_score : Q;
  mapping_type : string;
  attributes : dict
}.

Record match_details_t : Type := {
  rule_based_matches : list rule_based_match;
  similarity_scores : gmap string Q;
  confidence_scores : gmap string Q;
  method_used : gmap string string
}.

Record similarity_result : Type := {
  matched_attributes : dict;
  match_details : match_details_t;
  has_high_confidence_matches : bool
}.

(** The state updated by the body of the candidate loop: [matched_attributes],
    [confidence_scores] and [method_used]. *)
Abbreviation merge_state := (dict * gmap string Q * gmap string string)%type.

Section matcher.
Context `{ItemsOrder} `{Backend}.

(** The two nested loops that fill [all_vibe_keys] (duplicates kept) and
    [key_to_mapping] (the entry loaded last wins), then the TF-IDF fit,
    attempted only when there is a key. *)
Definition _prepare_vibe_vectors (vm : mappings)
  : list string * gmap string (string * dict) * option (list string) :=
  let '(keys, k2m) :=
    fold_left (fun acc '(mapping_type, mapping_data) =>
      fold_left (fun '(keys, k2m) '(vibe_key, attributes) =>
                   ((keys ++ [vibe_key])%list,
                    <[vibe_key := (mapping_type, attributes)]> k2m))
                (mapping_data : list (string * dict)) acc)
      vm (([] : list string), (∅ : gmap string (string * dict))) in
  (keys, k2m,
   match keys with
   | [] => None
   | _ => if tfidf_fit_transform keys then Some keys else None
   end).

(** The constructor, given the result [vm] of [_load_vibe_mappings]. *)
Definition __init__ (vm : mappings) (threshold : Q) : t :=
  let '(keys, k2m, matrix) := _prepare_vibe_vectors vm in
  {| similarity_threshold := threshold;
     vibe_mappings := vm;
     all_vibe_keys := keys;
     key_to_mapping := k2m;
     tfidf_matrix := matrix |}.

(** 0.0 without a model or when spaCy raises. *)
Definition calculate_spacy_similarity (phrase1 phrase2 : string) : Q :=
  if nlp then
    match doc_similarity phrase1 phrase2 with
    | Some similarity => similarity
    | None => 0%Q
    end
  else 0%Q.

(** [pairs.sort(key=lambda x: x[1], reverse=True)]: a stable sort, equal
    scores keep their original order. *)
Fixpoint insert_desc (x : string * Q) (sorted : list (string * Q)) : list (string * Q) :=
  match sorted with
  | [] => [x]
  | y :: sorted' => if Qlt_bool x.2 y.2 then y :: insert_desc x sorted' else x :: sorted
  end.

Definition sort_desc (pairs : list (string * Q)) : list (string * Q) :=
  foldr insert_desc [] pairs.

(** The pairs [(vibe_key, score)], best first; empty without a fitted
    matrix or when scikit-learn raises. *)
Definition calculate_tfidf_similarity (self : t) (query_phrase : string) : list (string * Q) :=
  match tfidf_matrix self with
  | None => []
  | Some rows =>
      if (length rows =? 0)%nat then []
      else match tfidf_cosine rows query_phrase with
           | None => []
           | Some similarities => sort_desc (zip (all_vibe_keys self) similarities)
           end
  end.

(** [self.key_to_mapping[vibe_key]]. *)
Definition key_to_mapping_get (self : t) (vibe_key : string) : result (string * dict) :=
  match key_to_mapping self !! vibe_key with
  | Some entry => Ret entry
  | None => Raise KeyError
  end.

(** Method 1: the first key equal to the normalised phrase. *)
Fixpoint exact_tier (self : t) (phrase_lower : string) (keys : list string)
  : result (option best_match_t) :=
  match keys with
  | [] => Ret None
  | vibe_key :: keys' =>
      if String.eqb phrase_lower (lower vibe_key) then
        '(mapping_type, attributes) ← key_to_mapping_get self vibe_key;
        Ret (Some (vibe_key, 1%Q, mapping_type, attributes))
      else exact_tier self phrase_lower keys'
  end.

(** Method 2: the loop over all keys with the running maximum. *)
Fixpoint dense_tier (self : t) (phrase : string) (keys : list string)
    (best_match : option best_match_t) (best_score : Q)
  : result (option best_match_t * Q) :=
  match keys with
  | [] => Ret (best_match, best_score)
  | vibe_key :: keys' =>
      let similarity := calculate_spacy_similarity phrase vibe_key in
      if Qlt_bool best_score similarity then
        '(mapping_type, attributes) ← key_to_mapping_get self vibe_key;
        dense_tier self phrase keys'
          (Some (vibe_key, similarity, mapping_type, attributes)) similarity
      else dense_tier self phrase keys' best_match best_score
  end.

(** Method 3: TF-IDF, consulted when the running maximum is below 0.5. *)
Definition sparse_tier (self : t) (phrase : string)
    (best_match : option best_match_t) (best_score : Q)
  : result (option best_match_t) :=
  if Qlt_bool best_score (1 # 2) then
    match calculate_tfidf_similarity self phrase with
    | (top_vibe_key, top_score) :: _ =>
        if Qlt_bool best_score top_score then
          '(mapping_type, attributes) ← key_to_mapping_get self top_vibe_key;
          Ret (Some (top_vibe_key, top_score, mapping_type, attributes))
        else Ret best_match
    | [] => Ret best_match
    end
  else Ret best_match.

(** [None] is Python's [None]: no tier produced a match. *)
Definition _find_best_match_for_phrase (self : t) (phrase : string)
  : result (option best_match_t) :=
  let phrase_lower := strip (lower phrase) in
  exact ← exact_tier self phrase_lower (all_vibe_keys self);
  match exact with
  | Some found => Ret (Some found)
  | None =>
      '(best_match, best_score) ←
         (if nlp then dense_tier self phrase (all_vibe_keys self) None 0%Q
          else Ret (None, 0%Q));
      sparse_tier self phrase best_match best_score
  end.

(** One pass of [for attr_key, attr_value in attributes.items()]. *)
Definition merge_attribute (score : Q) (st : merge_state) (kv : string * pyval)
  : merge_state :=
  let '(matched, confidence, method) := st in
  let '(attr_key, attr_value) := kv in
  match matched !! attr_key with
  | None =>
      (<[attr_key := attr_value]> matched,
       <[attr_key := score]> confidence,
       <[attr_key := "rule_based_similarity"]> method)
  | Some _ =>
      if Qlt_bool (default 0%Q (confidence !! attr_key)) score then
        (<[attr_key := attr_value]> matched, <[attr_key := score]> confidence, method)
      else st
  end.

(** [all_candidates]: the phrases, then every non-empty string value of
    [individual_attributes]. *)
Definition all_candidates (extracted_phrases : list string)
    (individual_attributes : dict) : list string :=
  (extracted_phrases ++
  omap (fun '(attr_type, attr_value) =>
          match attr_value with
          | VStr s => if truthy attr_value then Some s else None
          | _ => None
          end)
       (dict_items individual_attributes))%list.

(** [not candidate or len(candidate.strip()) < 2]. *)
Definition skipped (candidate : string) : bool :=
  String.eqb candidate "" || (String.length (strip candidate) <? 2)%nat.

(** The loop [for candidate in all_candidates]. *)
Fixpoint match_candidates (self : t) (candidates : list string)
    (found : list rule_based_match) (st : merge_state)
  : result (list rule_based_match * merge_state) :=
  match candidates with
  | [] => Ret (found, st)
  | candidate :: candidates' =>
      if skipped candidate then match_candidates self candidates' found st
      else
        best_match ← _find_best_match_for_phrase self candidate;
        match best_match with
        | None => match_candidates self candidates' found st
        | Some (vibe_key, score, mapping_type, attributes) =>
            let found' :=
              (found ++ [ {| input_phrase := candidate;
                             matched_vibe := vibe_key;
                             similarity_score := score;
                             mapping_type := mapping_type;
                             attributes := attributes |} ])%list in
            let st' :=
              if Qge_bool score (similarity_threshold self)
              then fold_left (merge_attribute score) (dict_items attributes) st
              else st in
            match_candidates self candidates' found' st'
        end
  end.

(** The returned dictionary; [similarity_scores] is never written. *)
Definition find_best_matches (self : t) (extracted_phrases : list string)
    (individual_attributes : dict) : result similarity_result :=
  '(found, (matched, confidence, method)) ←
     match_candidates self (all_candidates extracted_phrases individual_attributes)
       [] (∅, ∅, ∅);
  Ret {| matched_attributes := matched;
         match_details :=
           {| rule_based_matches := found;
              similarity_scores := ∅;
              confidence_scores := confidence;
              method_used := method |};
         has_high_confidence_matches :=
           existsb (fun '(_, score) => Qge_bool score (similarity_threshold self))
                   (dict_items confidence) |}.

End matcher.

End SimilarityMatcher.

(** ** modules/gpt_inference.py *)

Module GPTInference.

(** [self.category_attributes]. *)
Definition category_attributes : gmap string (list string) :=
  list_to_map
    [ ("top", ["fit"; "fabric"; "sleeve_length"; "color_or_print"]);
      ("dress", ["fit"; "fabric"; "sleeve_length"; "color_or_print"; "occasion"; "neckline"]);
      ("skirt", ["fabric"; "color_or_print"; "length"]);
      ("pants", ["fit"; "fabric"; "color_or_print"; "pant_type"]) ].

(** [self.valid_values]. *)
Definition valid_values : gmap string (list string) :=
  list_to_map
    [ ("category", ["top"; "dress"; "skirt"; "pants"]);
      ("fit", ["Relaxed"; "Stretch to fit"; "Body hugging"; "Tailored"; "Oversized";
               "Flowy"; "Bodycon"; "Slim"; "Sleek and straight"]);
      ("fabric", ["Linen"; "Silk"; "Cotton"; "Rayon"; "Satin"; "Modal jersey"; "Crepe";
                  "Tencel"; "Chambray"; "Velvet"; "Chiffon"; "Denim"; "Wool-blend";
                  "Sequined velvet"; "Tulle"; "Organic cotton"; "Viscose";
                  "Cotton poplin"; "Linen blend"; "Cotton gauze"; "Ribbed jersey";
                  "Lace overlay"; "Tencel twill"]);
      ("sleeve_length", ["Sleeveless"; "Spaghetti straps"; "Straps"; "Short sleeves";
                         "Short flutter sleeves"; "Cap sleeves"; "Quarter sleeves";
                         "Long sleeves"; "Full sleeves"; "Cropped"; "Bishop sleeves";
                         "Balloon sleeves"; "Bell sleeves"; "Halter"; "Tube";
                         "One-shoulder"]);
      ("neckline", ["V neck"; "Sweetheart"; "Square neck"; "Boat neck"; "Tubetop";
                    "Halter"; "Cowl neck"; "Collar"; "One-shoulder"; "Polo collar";
                    "Illusion bateau"; "Round neck"]);
      ("length", ["Mini"; "Short"; "Midi"; "Maxi"]);
      ("pant_type", ["Wide-legged"; "Ankle length"; "Flared"; "Wide hem";
                     "Straight ankle"; "Mid-rise"; "Low-rise"]);
      ("occasion", ["Party"; "Vacation"; "Everyday"; "Evening"; "Work"; "Vocation"]) ].

(** The OpenAI call of [infer_attributes], up to and including
    [json.loads]: the parsed reply when it is a JSON object, [None] for any
    failure the method turns into [return None] (API error, invalid JSON, a
    reply that is not an object). *)
Class Oracle : Type := {
  available : bool;
  chat_completion : string → dict → SimilarityMatcher.mappings → option dict
}.

(** [attributes.get('category', '').lower()]: only a string has [lower]. *)
Definition category_of (attributes : dict) : result string :=
  match attributes !! "category" with
  | None => Ret (lower "")
  | Some (VStr s) => Ret (lower s)
  | Some _ => Raise AttributeError
  end.

(** The test that makes the loop [continue]. *)
Definition not_for_category (attr_lower : string) (valid_attrs : list string) : bool :=
  negb (String.eqb attr_lower "category") && negb (bool_decide (attr_lower ∈ valid_attrs)).

(** The validation of one value; [None] when nothing is stored. *)
Definition validate_value (attr_lower : string) (value : pyval) : option pyval :=
  match valid_values !! attr_lower with
  | Some allowed =>
      match value with
      | VList items =>
          let validated_list := List.filter (fun item => value_in item allowed) items in
          match validated_list with
          | [] => None
          | _ => Some (VList validated_list)
          end
      | _ => if value_in value allowed then Some value else None
      end
  | None => Some value
  end.

Section validation.
Context `{ItemsOrder}.

(** The body of [for attr, value in attributes.items()]. *)
Definition validate_step (valid_attrs : list string) (validated : dict)
    (kv : string * pyval) : dict :=
  let '(attr, value) := kv in
  let attr_lower := lower attr in
  if not_for_category attr_lower valid_attrs then validated
  else match validate_value attr_lower value with
       | Some kept => <[attr := kept]> validated
       | None => validated
       end.

Definition _validate_attributes (attributes : dict) : result dict :=
  category ← category_of attributes;
  let valid_attrs := default [] (category_attributes !! category) in
  Ret (fold_left (validate_step valid_attrs) (dict_items attributes) ∅).

Definition infer_attributes `{Oracle} (user_query : string) (existing_attributes : dict)
    (vibe_mappings : SimilarityMatcher.mappings) : option dict :=
  if negb available then None
  else match chat_completion user_query existing_attributes vibe_mappings with
       | None => None
       | Some attributes =>
           match _validate_attributes attributes with
           | Ret validated_attributes => Some validated_attributes
           | Raise _ => None
           end
       end.

End validation.

(** [get_available_attributes]. *)
Definition get_available_attributes (category : string) : list string :=
  default [] (category_attributes !! lower category).

End GPTInference.

(** ** modules/catalog_filter.py: the category table and the budget clause
       of [filter_products] *)

Module CatalogFilter.

(** The filter's own copy of [self.category_attributes] (lines 15-20). *)
Module Own.

Definition category_attributes : gmap string (list string) :=
  list_to_map
    [ ("top", ["fit"; "fabric"; "sleeve_length"; "color_or_print"]);
      ("dress", ["fit"; "fabric"; "sleeve_length"; "color_or_print"; "occasion"; "neckline"]);
      ("skirt", ["fabric"; "color_or_print"; "length"]);
      ("pants", ["fit"; "fabric"; "color_or_print"; "pant_type"]) ].

End Own.

(** [get_valid_attributes_for_category]. *)
Definition get_valid_attributes_for_category (category : string) : list string :=
  default [] (Own.category_attributes !! lower category).

(** A catalog row; [price] is [None] for the NaN left by
    [pd.to_numeric(errors='coerce')]. *)
Record product : Type := {
  name : string;
  price : option Q
}.

(** [float(s)] on a string; [None] stands for [ValueError]. *)
Class FloatOfStr : Type := float_of_str : string → option Q.

Section budget.
Context `{FloatOfStr}.

(** [float(v)]. *)
Definition float (v : pyval) : result Q :=
  match v with
  | VNum q => Ret q
  | VBool b => Ret (if b then 1%Q else 0%Q)
  | VStr s =>
      match float_of_str s with
      | Some q => Ret q
      | None => Raise ValueError
      end
  | VNone | VList _ | VDict _ => Raise TypeError
  end.

(** [filtered_df[filtered_df['price'] <= budget]]. *)
Definition price_at_most (budget : Q) (rows : list product) : list product :=
  List.filter (fun row => match price row with
                          | Some p => Qle_bool p budget
                          | None => false
                          end) rows.

(** Lines 79-84: the [try] around the coercion catches [ValueError] and
    [TypeError] only. *)
Definition filter_by_budget (attributes : dict) (filtered_df : list product)
  : result (list product) :=
  match attributes !! "budget" with
  | Some budget_value =>
      if truthy budget_value then
        match float budget_value with
        | Ret budget => Ret (price_at_most budget filtered_df)
        | Raise ValueError | Raise TypeError => Ret filtered_df
        | Raise e => Raise e
        end
      else Ret filtered_df
  | None => Ret filtered_df
  end.

End budget.

End CatalogFilter.

(** ** modules/nlp_analyzer.py *)

Module NLPAnalyzer.

(** What the analyzer reads of a spaCy document: its tokens, and the text
    of its noun chunks. *)
Module Spacy.

Record token : Type := {
  text : string;
  pos_ : string;
  is_punct : bool;
  is_stop : bool
}.

Record doc : Type := {
  tokens : list token;
  noun_chunks : list string
}.

End Spacy.

(** [self.nlp] and [self.stop_words], whatever model and stop word list
    were loaded. *)
Class Models : Type := {
  nlp : string → Spacy.doc;
  stop_words : gset string
}.

(** The two methods written with regular expressions, [clean_text] and
    [_extract_budget], are taken as they come. *)
Class TextTools : Type := {
  clean_text : string → string;
  _extract_budget : string → option Q
}.

(** [c.upper()] on ASCII. *)
Definition upper_ascii (c : ascii) : ascii :=
  let n := nat_of_ascii c in
  if (97 <=? n)%nat && (n <=? 122)%nat then ascii_of_nat (n - 32) else c.

Fixpoint upper (s : string) : string :=
  match s with
  | EmptyString => EmptyString
  | String c s' => String (upper_ascii c) (upper s')
  end.

(** [s.split()]: the maximal runs of characters that are not blank;
    [word] is the run being read. *)
Fixpoint split_from (word s : string) : list string :=
  match s with
  | EmptyString => if String.eqb word "" then [] else [word]
  | String c s' =>
      if is_py_space c
      then if String.eqb word "" then split_from "" s' else word :: split_from "" s'
      else split_from (word +:+ String c "") s'
  end.

Definition split (s : string) : list string := split_from "" s.

(** [_init_fashion_patterns]. *)
Definition occasions : list string :=
  [ "brunch"; "lunch"; "dinner"; "party"; "wedding"; "office"; "work";
    "date"; "casual"; "formal"; "business"; "workout"; "gym"; "beach";
    "vacation"; "travel"; "interview"; "meeting"; "event"; "night out" ].

Definition seasons : list string :=
  [ "summer"; "winter"; "spring"; "fall"; "autumn"; "hot"; "cold";
    "warm"; "cool"; "sunny"; "rainy"; "snowy" ].

Definition styles : list string :=
  [ "casual"; "formal"; "business"; "dressy"; "elegant"; "edgy";
    "bohemian"; "boho"; "chic"; "trendy"; "classic"; "vintage";
    "modern"; "minimalist"; "romantic"; "sporty"; "preppy" ].

Definition categories : list string :=
  [ "dress"; "top"; "tops"; "pants"; "skirt" ].

Definition fits : list string :=
  [ "relaxed"; "stretch to fit"; "body hugging"; "tailored"; "oversized"; "flowy";
    "bodycon"; "slim"; "sleek and straight" ].

Definition colors : list string :=
  [ "pastel yellow"; "deep blue"; "floral print"; "red"; "off-white";
    "midnight navy sequin"; "sapphire blue"; "ruby red"; "etc." ].

Definition coverage_patterns : list string :=
  [ "short sleeves"; "long sleeves"; "sleeveless"; "spaghetti straps"; "straps";
    "short flutter sleeves"; "cap sleeves"; "quarter sleeves"; "long sleeves";
    "full sleeves"; "cropped"; "bishop sleeves"; "balloon sleeves"; "bell sleeves";
    "halter"; "tube"; "one-shoulder" ].

Definition sizes : list string :=
  [ "XS"; "S"; "M"; "L"; "XL"; "XXL" ].

Definition fashion_patterns : list (string * list string) :=
  [ ("occasions", occasions); ("seasons", seasons); ("styles", styles);
    ("categories", categories); ("fits", fits); ("colors", colors);
    ("coverage", coverage_patterns); ("sizes", sizes) ].

(** The set built by [all_fashion_words.update(pattern_list)]. *)
Definition all_fashion_words : gset string :=
  foldl (fun words pattern_list => words ∪ list_to_set pattern_list) ∅
        (fashion_patterns.*2).

Definition size_mapping : gmap string string :=
  list_to_map
    [ ("xs", "XS"); ("extra small", "XS"); ("size xs", "XS");
      ("s", "S"); ("small", "S"); ("size s", "S");
      ("m", "M"); ("medium", "M"); ("size m", "M");
      ("l", "L"); ("large", "L"); ("size l", "L");
      ("xl", "XL"); ("extra large", "XL"); ("size xl", "XL");
      ("xxl", "XXL"); ("extra extra large", "XXL"); ("2xl", "XXL"); ("size xxl", "XXL") ].

Definition season_occasion_patterns : list string :=
  [ "summer brunch"; "winter formal"; "spring wedding"; "fall party";
    "summer party"; "winter date"; "spring casual"; "fall formal" ].

(** The dictionary [extracted] of [extract_key_phrases]: eight attributes
    that are [None] or a string, and three lists. *)
Record extracted : Type := {
  occasion : option string;
  season : option string;
  style : option string;
  category : option string;
  fit : option string;
  color : option string;
  coverage : option string;
  size : option string;
  raw_phrases : list string;
  noun_chunks : list string;
  adjectives : list string
}.

Definition set_occasion (v : option string) (e : extracted) : extracted :=
  {| occasion := v; season := season e; style := style e; category := category e;
     fit := fit e; color := color e; coverage := coverage e; size := size e;
     raw_phrases := raw_phrases e; noun_chunks := noun_chunks e;
     adjectives := adjectives e |}.

Definition set_season (v : option string) (e : extracted) : extracted :=
  {| occasion := occasion e; season := v; style := style e; category := category e;
     fit := fit e; color := color e; coverage := coverage e; size := size e;
     raw_phrases := raw_phrases e; noun_chunks := noun_chunks e;
     adjectives := adjectives e |}.

Definition set_style (v : option string) (e : extracted) : extracted :=
  {| occasion := occasion e; season := season e; style := v; category := category e;
     fit := fit e; color := color e; coverage := coverage e; size := size e;
     raw_phrases := raw_phrases e; noun_chunks := noun_chunks e;
     adjectives := adjectives e |}.

Definition set_category (v : option string) (e : extracted) : extracted :=
  {| occasion := occasion e; season := season e; style := style e; category := v;
     fit := fit e; color := color e; coverage := coverage e; size := size e;
     raw_phrases := raw_phrases e; noun_chunks := noun_chunks e;
     adjectives := adjectives e |}.

Definition set_fit (v : option string) (e : extracted) : extracted :=
  {| occasion := occasion e; season := season e; style := style e; category := category e;
     fit := v; color := color e; coverage := coverage e; size := size e;
     raw_phrases := raw_phrases e; noun_chunks := noun_chunks e;
     adjectives := adjectives e |}.

Definition set_color (v : option string) (e : extracted) : extracted :=
  {| occasion := occasion e; season := season e; style := style e; category := category e;
     fit := fit e; color := v; coverage := coverage e; size := size e;
     raw_phrases := raw_phrases e; noun_chunks := noun_chunks e;
     adjectives := adjectives e |}.

Definition set_coverage (v : option string) (e : extracted) : extracted :=
  {| occasion := occasion e; season := season e; style := style e; category := category e;
     fit := fit e; color := color e; coverage := v; size := size e;
     raw_phrases := raw_phrases e; noun_chunks := noun_chunks e;
     adjectives := adjectives e |}.

Definition set_size (v : option string) (e : extracted) : extracted :=
  {| occasion := occasion e; season := season e; style := style e; category := category e;
     fit := fit e; color := color e; coverage := coverage e; size := v;
     raw_phrases := raw_phrases e; noun_chunks := noun_chunks e;
     adjectives := adjectives e |}.

Definition append_raw_phrase (phrase : string) (e : extracted) : extracted :=
  {| occasion := occasion e; season := season e; style := style e; category := category e;
     fit := fit e; color := color e; coverage := coverage e; size := size e;
     raw_phrases := (raw_phrases e ++ [phrase])%list; noun_chunks := noun_chunks e;
     adjectives := adjectives e |}.

Definition append_noun_chunk (chunk : string) (e : extracted) : extracted :=
  {| occasion := occasion e; season := season e; style := style e; category := category e;
     fit := fit e; color := color e; coverage := coverage e; size := size e;
     raw_phrases := raw_phrases e; noun_chunks := (noun_chunks e ++ [chunk])%list;
     adjectives := adjectives e |}.

Definition append_adjective (adjective : string) (e : extracted) : extracted :=
  {| occasion := occasion e; season := season e; style := style e; category := category e;
     fit := fit e; color := color e; coverage := coverage e; size := size e;
     raw_phrases := raw_phrases e; noun_chunks := noun_chunks e;
     adjectives := (adjectives e ++ [adjective])%list |}.

(** [not extracted[attr]] for an attribute that is [None] or a string. *)
Definition unset (v : option string) : bool :=
  match v with
  | None => true
  | Some s => String.eqb s ""
  end.

(** [words[i]] raises [IndexError] out of range. *)
Inductive indexed (A : Type) : Type :=
  | Done (a : A)
  | IndexError.

Arguments Done {A} a.
Arguments IndexError {A}.

Definition item (words : list string) (i : nat) : indexed string :=
  match words !! i with
  | Some word => Done word
  | None => IndexError
  end.

(** The entries of the result of [analyze_query] that the system reads;
    ['original_query'], ['cleaned_query'] and ['confidence_scores'] are left
    out. *)
Module Analysis.

Record t : Type := {
  extracted_attributes : dict;
  key_phrases : list string;
  noun_chunks : list string;
  adjectives : list string
}.

End Analysis.

Section analyzer.
Context `{Models} `{TextTools}.

(** The body of [for chunk in doc.noun_chunks]. *)
Definition read_chunk (e : extracted) (chunk : string) : extracted :=
  let chunk_text := lower chunk in
  let e := append_noun_chunk chunk_text e in
  if existsb (fun season => contains season chunk_text) seasons
     && existsb (fun occasion => contains occasion chunk_text) occasions
  then append_raw_phrase chunk_text e
  else e.

(** The body of the first [for token in doc]. *)
Definition read_adjective (e : extracted) (token : Spacy.token) : extracted :=
  if String.eqb (Spacy.pos_ token) "ADJ"
     && negb (bool_decide (lower (Spacy.text token) ∈ stop_words))
  then append_adjective (lower (Spacy.text token)) e
  else e.

(** The list [tokens]. *)
Definition kept_tokens (d : Spacy.doc) : list string :=
  omap (fun token =>
          if negb (Spacy.is_punct token)
             && (negb (Spacy.is_stop token)
                 || bool_decide (lower (Spacy.text token) ∈ all_fashion_words))
          then Some (lower (Spacy.text token))
          else None)
       (Spacy.tokens d).

(** The body of [for token in tokens]. *)
Definition match_token (e : extracted) (token : string) : extracted :=
  let e := if bool_decide (token ∈ occasions) && unset (occasion e)
           then set_occasion (Some token) e else e in
  let e := if bool_decide (token ∈ seasons) && unset (season e)
           then set_season (Some token) e else e in
  let e := if bool_decide (token ∈ styles) && unset (style e)
           then set_style (Some token) e else e in
  let e := if bool_decide (token ∈ categories) && unset (category e)
           then set_category (Some token) e else e in
  let e := if bool_decide (token ∈ fits) && unset (fit e)
           then set_fit (Some token) e else e in
  let e := if bool_decide (token ∈ colors) && unset (color e)
           then set_color (Some token) e else e in
  let e := if bool_decide (token ∈ coverage_patterns) && unset (coverage e)
           then set_coverage (Some token) e else e in
  let e := if bool_decide (token ∈ sizes) && unset (size e)
           then set_size (Some (default (upper token) (size_mapping !! token))) e
           else e in
  e.

(** The body of [for chunk in extracted['noun_chunks']]. *)
Definition keep_compound (e : extracted) (chunk : string) : extracted :=
  if (1 <? length (split chunk))%nat then append_raw_phrase chunk e else e.

(** The body of [for pattern in season_occasion_patterns]. *)
Definition read_pattern (text_lower : string) (e : indexed extracted) (pattern : string)
  : indexed extracted :=
  match e with
  | IndexError => IndexError
  | Done e =>
      if contains pattern text_lower then
        let e := append_raw_phrase pattern e in
        let words := split pattern in
        match item words 0 with
        | IndexError => IndexError
        | Done season_word =>
            let e := if bool_decide (season_word ∈ seasons)
                     then set_season (Some season_word) e else e in
            match item words 1 with
            | IndexError => IndexError
            | Done occasion_word =>
                Done (if bool_decide (occasion_word ∈ occasions)
                      then set_occasion (Some occasion_word) e else e)
            end
        end
      else Done e
  end.

Definition extract_key_phrases (text : string) : indexed extracted :=
  let d := nlp text in
  let e := {| occasion := None; season := None; style := None; category := None;
              fit := None; color := None; coverage := None; size := None;
              raw_phrases := []; noun_chunks := []; adjectives := [] |} in
  let e := fold_left read_chunk (Spacy.noun_chunks d) e in
  let e := fold_left read_adjective (Spacy.tokens d) e in
  let tokens := kept_tokens d in
  let e := fold_left match_token tokens e in
  let text_lower := lower text in
  let e := fold_left keep_compound (noun_chunks e) e in
  fold_left (read_pattern text_lower) season_occasion_patterns (Done e).

(** [None] or a string, as a value of the attribute dictionary. *)
Definition attribute (v : option string) : pyval :=
  match v with
  | Some s => VStr s
  | None => VNone
  end.

Definition analyze_query (user_query : string) : indexed Analysis.t :=
  let cleaned_text := clean_text user_query in
  match extract_key_phrases cleaned_text with
  | IndexError => IndexError
  | Done e =>
      let budget := _extract_budget user_query in
      Done {| Analysis.extracted_attributes :=
                list_to_map
                  [ ("occasion", attribute (occasion e));
                    ("season", attribute (season e));
                    ("style", attribute (style e));
                    ("category", attribute (category e));
                    ("fit", attribute (fit e));
                    ("color", attribute (color e));
                    ("coverage", attribute (coverage e));
                    ("size", attribute (size e));
                    ("budget", match budget with Some b => VNum b | None => VNone end) ];
              Analysis.key_phrases := raw_phrases e;
              Analysis.noun_chunks := noun_chunks e;
              Analysis.adjectives := adjectives e |}
  end.

End analyzer.

End NLPAnalyzer.

(** ** recommendation_system.py *)

Module VibeRecommendationSystem.

Import SimilarityMatcher GPTInference CatalogFilter.

(** The collaborators whose internals are outside the resolution core. *)
Class Collaborators : Type := {
  (** [nlp_analyzer.analyze_query]: ['extracted_attributes'] and ['key_phrases']. *)
  analyze_query : string → dict * list string;
  (** [catalog_filter.filter_products]. *)
  filter_products : dict → nat → list product;
  (** [nlg_generator.generate_suggestion]. *)
  generate_suggestion : list product → string → dict → string;
  (** [config.get('max_results', 5)]. *)
  max_results : nat
}.

(** Calls that leave the core, in the order they are made. *)
Inductive event : Type :=
  | OracleCall (user_query : string) (existing_attributes : dict)
  | CatalogCall (attributes : dict) (limit : nat).

(** The dictionary returned by [get_recommendations]: the branch with
    ['success': False] and the one with ['success': True]. *)
Inductive response : Type :=
  | NeedsInfo (message : string) (missing_attributes suggested_questions : list string)
      (final_attributes : dict)
  | Ready (recommendation : string) (products : list product) (final_attributes : dict).

Definition success (r : response) : bool :=
  match r with NeedsInfo _ _ _ _ => false | Ready _ _ _ => true end.

(** The entry ['final_attributes'] of the returned dictionary. *)
Definition final_attributes (r : response) : dict :=
  match r with
  | NeedsInfo _ _ _ attributes => attributes
  | Ready _ _ attributes => attributes
  end.

Section system.
Context `{ItemsOrder} `{Backend} `{Oracle} `{Collaborators}.

(** One loop [for key, value in source.items(): if value: merged[key] = value]. *)
Definition override_with (source merged : dict) : dict :=
  fold_left (fun merged '(key, value) =>
               if truthy value then <[key := value]> merged else merged)
            (dict_items source) merged.

(** The four loops in source order: extracted, GPT inferred (skipped for
    [None] and for an empty dictionary), rule-based, user preferences. *)
Definition _merge_all_attributes (extracted rule_based : dict)
    (gpt_inferred : option dict) (user_prefs : dict) : dict :=
  let merged : dict := ∅ in
  let merged := override_with extracted merged in
  let merged :=
    match gpt_inferred with
    | Some inferred => if bool_decide (inferred = ∅) then merged
                       else override_with inferred merged
    | None => merged
    end in
  let merged := override_with rule_based merged in
  let merged := override_with user_prefs merged in
  merged.

(** [attr in attributes and attributes[attr]], also [not] of
    [attr not in attributes or not attributes.get(attr)]. *)
Definition present_and_truthy (attributes : dict) (attr : string) : bool :=
  match attributes !! attr with
  | Some value => truthy value
  | None => false
  end.

Definition _check_missing_attributes (attributes : dict) : list string :=
  let critical_attributes := ["category"; "size"; "budget"] in
  let missing :=
    fold_left (fun missing attr =>
                 let is_missing :=
                   negb (bool_decide (attr ∈ dom attributes))
                   || negb (match attributes !! attr with
                            | Some value => truthy value
                            | None => false
                            end) in
                 if is_missing then (missing ++ [attr])%list else missing)
              critical_attributes [] in
  if bool_decide ("category" ∈ dom attributes) && bool_decide ("size" ∈ dom attributes)
     && bool_decide ("budget" ∈ dom attributes) then
    let context_attributes := ["occasion"; "season"; "style"; "fit"] in
    let has_context := existsb (present_and_truthy attributes) context_attributes in
    if negb has_context then (missing ++ ["occasion or style"])%list else missing
  else missing.

Definition available_categories : list string :=
  ["dress"; "top"; "pants"; "skirt"; "jacket"; "shirt"; "blouse"].
Definition available_occasions : list string :=
  ["casual"; "formal"; "work"; "party"; "date"; "wedding"; "brunch"; "vacation"].
Definition available_styles : list string :=
  ["casual"; "formal"; "chic"; "bohemian"; "minimalist"; "edgy"; "romantic"; "professional"].
Definition available_fits : list string :=
  ["relaxed"; "tailored"; "loose"; "fitted"; "oversized"; "slim"; "regular"].
Definition available_sizes : list string :=
  ["XS"; "S"; "M"; "L"; "XL"; "XXL"].

Definition question_templates : gmap string string :=
  list_to_map
    [ ("category", "What type of clothing are you looking for? Choose from: "
                   +:+ join ", " available_categories);
      ("size", "What size do you need? Available sizes: " +:+ join ", " available_sizes);
      ("budget", "What's your budget? You can say something like '$50', 'under $100', or '200 dollars'");
      ("occasion", "What's the occasion? For example: " +:+ join ", " (take 6 available_occasions));
      ("season", "What season is this for? (spring, summer, fall, winter)");
      ("style", "What style are you going for? Options include: "
                +:+ join ", " (take 6 available_styles));
      ("fit", "How would you like it to fit? Choose from: " +:+ join ", " (take 4 available_fits)) ].

(** The reply to the compound marker. *)
Definition occasion_or_style_question : string :=
  "Tell me about the occasion or style! For example: "
  +:+ join ", " (take 4 available_occasions) +:+ " or " +:+ join ", " (take 4 available_styles).

Definition _generate_follow_up_questions (missing_attributes : list string) : list string :=
  fold_left (fun questions attr =>
               match question_templates !! attr with
               | Some template => (questions ++ [template])%list
               | None =>
                   if contains "or" attr then
                     if contains "occasion" attr
                     then (questions ++ [occasion_or_style_question])%list
                     else (questions ++ ["Could you tell me more about the " +:+ attr
                                         +:+ "? Give me some details!"])%list
                   else questions
               end)
            missing_attributes [].

(** Steps 5 to 7 of [get_recommendations], from [final_attributes] on. *)
Definition respond (user_query : string) (final_attributes : dict)
  : list event * response :=
  let missing_attributes := _check_missing_attributes final_attributes in
  match missing_attributes with
  | _ :: _ =>
      let follow_up_questions := _generate_follow_up_questions missing_attributes in
      let user_friendly_message :=
        match follow_up_questions with
        | first :: _ => first
        | [] => "I need more information to help you find the perfect clothing item."
        end in
      ([], NeedsInfo user_friendly_message missing_attributes follow_up_questions
                     final_attributes)
  | [] =>
      let matching_products := filter_products final_attributes max_results in
      let suggestion := generate_suggestion matching_products user_query final_attributes in
      ([CatalogCall final_attributes max_results],
       Ready suggestion matching_products final_attributes)
  end.

(** Step 3: whether the oracle is called, and what it contributes. *)
Definition gpt_step (self : SimilarityMatcher.t) (user_query : string)
    (extracted_attributes : dict) (similarity : similarity_result)
  : list event * option dict :=
  let rule_based_attributes := matched_attributes similarity in
  let has_high_confidence := has_high_confidence_matches similarity in
  if negb has_high_confidence || (size rule_based_attributes <? 3)%nat then
    let existing_attributes := rule_based_attributes ∪ extracted_attributes in
    ([OracleCall user_query existing_attributes],
     infer_attributes user_query existing_attributes (vibe_mappings self))
  else ([], Some ∅).

(** The whole turn; [self] is [self.similarity_matcher], the other
    collaborators come from the context. *)
Definition get_recommendations (self : SimilarityMatcher.t) (user_query : string)
    (user_preferences : option dict) : result (list event * response) :=
  let '(extracted_attributes, key_phrases) := analyze_query user_query in
  similarity_result ← find_best_matches self key_phrases extracted_attributes;
  let rule_based_attributes := matched_attributes similarity_result in
  let '(oracle_events, gpt_attributes) :=
    gpt_step self user_query extracted_attributes similarity_result in
  let final_attributes :=
    _merge_all_attributes extracted_attributes rule_based_attributes gpt_attributes
      (default ∅ user_preferences) in
  let '(catalog_events, reply) := respond user_query final_attributes in
  Ret ((oracle_events ++ catalog_events)%list, reply).

End system.

End VibeRecommendationSystem.

(** ** streamlit_app.py: the conversation state *)

Module StreamlitApp.

Import SimilarityMatcher GPTInference CatalogFilter VibeRecommendationSystem.

(** The four conversation entries of [st.session_state]; an exchange of
    the history is the pair of its ['user'] and ['assistant'] texts. *)
Record session : Type := {
  conversation_history : list (string * string);
  pending_attributes : dict;
  missing_attributes : list string;
  conversation_active : bool
}.

(** The state set up at lines 64-71. *)
Definition initial : session :=
  {| conversation_history := [];
     pending_attributes := ∅;
     missing_attributes := [];
     conversation_active := false |}.

(** [f"{value}"] for a value that is not a list. *)
Class Formatting : Type := format_value : pyval → string.

(** What the user does in one run of the script: submit the form, press
    "New Request", or press "Get Final Recommendations". *)
Inductive action : Type :=
  | Send (user_input : string)
  | NewRequest
  | GetFinalRecommendations.

(** The items of [', '.join(value)]: every one must be a string. *)
Fixpoint strings (items : list pyval) : result (list string) :=
  match items with
  | [] => Ret []
  | VStr s :: items' => rest ← strings items'; Ret (s :: rest)
  | _ :: _ => Raise TypeError
  end.

(** [not (value in [None, "", []])]. *)
Definition not_blank (value : pyval) : bool :=
  match value with
  | VNone | VStr "" | VList [] => false
  | _ => true
  end.

Section app.
Context `{ItemsOrder} `{Backend} `{Oracle} `{Collaborators} `{Formatting}.

(** One round of the loop over [pending_attributes.items()]. *)
Definition context_part (kv : string * pyval) : result string :=
  let '(key, value) := kv in
  match value with
  | VList items => parts ← strings items; Ret (key +:+ ": " +:+ join ", " parts)
  | _ => Ret (key +:+ ": " +:+ format_value value)
  end.

Fixpoint context_parts (items : list (string * pyval)) : result (list string) :=
  match items with
  | [] => Ret []
  | kv :: items' =>
      part ← context_part kv;
      rest ← context_parts items';
      Ret (part :: rest)
  end.

(** The loop that copies what the analyzer extracted from the current
    input into the pending attributes. *)
Definition remember (extracted pending : dict) : dict :=
  fold_left (fun pending '(key, value) =>
               if truthy value && not_blank value then <[key := value]> pending
               else pending)
            (dict_items extracted) pending.

(** [system] is [st.session_state.recommendation_system], given by its
    matcher; the other components come from the context.  An exception
    inside the [try] leaves the state as it is. *)
Definition process_user_input (system : SimilarityMatcher.t) (user_input : string)
    (user_prefs : dict) (state : session) : result session :=
  combined_query ←
    (if bool_decide (pending_attributes state ≠ ∅) then
       parts ← context_parts (dict_items (pending_attributes state));
       Ret ("Previous context: " +:+ join "; " parts
            +:+ ". New information: " +:+ user_input)
     else Ret user_input);
  let merged_prefs := pending_attributes state ∪ user_prefs in
  match get_recommendations system combined_query (Some merged_prefs) with
  | Ret (_, Ready recommendation _ _) =>
      Ret {| conversation_history :=
               (conversation_history state ++ [(user_input, recommendation)])%list;
             pending_attributes := ∅;
             missing_attributes := [];
             conversation_active := false |}
  | Ret (_, NeedsInfo message missing _ final_attributes) =>
      let pending := final_attributes ∪ pending_attributes state in
      let pending := remember (analyze_query user_input).1 pending in
      Ret {| conversation_history :=
               (conversation_history state ++ [(user_input, message)])%list;
             pending_attributes := pending;
             missing_attributes := missing;
             conversation_active := true |}
  | Raise _ => Ret state
  end.

Definition get_final_recommendations (system : SimilarityMatcher.t)
    (pending_attributes : dict) (user_prefs : dict) (state : session) : result session :=
  query_parts ← context_parts (dict_items pending_attributes);
  let combined_query := "Find clothing with: " +:+ join "; " query_parts in
  match get_recommendations system combined_query (Some user_prefs) with
  | Ret (_, Ready _ _ _) =>
      Ret {| conversation_history := conversation_history state;
             pending_attributes := ∅;
             missing_attributes := [];
             conversation_active := false |}
  | Ret (_, NeedsInfo _ _ _ _) => Ret state
  | Raise _ => Ret state
  end.

(** The part of [main] that changes the state (lines 136-153). *)
Definition main (system : SimilarityMatcher.t) (a : action) (state : session)
  : result session :=
  match a with
  | NewRequest => Ret initial
  | GetFinalRecommendations =>
      if bool_decide (pending_attributes state ≠ ∅)
      then get_final_recommendations system (pending_attributes state) ∅ state
      else Ret state
  | Send user_input =>
      if negb (String.eqb (strip user_input) "")
      then process_user_input system user_input ∅ state
      else Ret state
  end.

(** The sessions that a sequence of runs can produce. *)
Inductive reachable (system : SimilarityMatcher.t) : session → Prop :=
  | reachable_initial : reachable system initial
  | reachable_run (a : action) (state state' : session) :
      reachable system state →
      main system a state = Ret state' →
      reachable system state'.

End app.

End StreamlitApp.

Import SimilarityMatcher GPTInference CatalogFilter VibeRecommendationSystem.

(** * Notions used in the statements *)

(** What a source offers for a key: its value when it has a truthy one. *)
Definition offer (source : dict) (key : string) : option pyval :=
  match source !! key with
  | Some value => if truthy value then Some value else None
  | None => None
  end.

(** The first of several offers, highest priority first. *)
Definition first_offer (offers : list (option pyval)) : option pyval :=
  foldr (fun o rest => match o with Some v => Some v | None => rest end) None offers.

(** The marker is appended when the three critical keys are in the
    dictionary and no context attribute is present with a truthy value. *)
Definition wants_context (attributes : dict) : bool :=
  bool_decide ("category" ∈ dom attributes) && bool_decide ("size" ∈ dom attributes)
  && bool_decide ("budget" ∈ dom attributes)
  && negb (existsb (present_and_truthy attributes) ["occasion"; "season"; "style"; "fit"]).

(** The question that answers one missing key: its entry in the template
    table, or the combined template for the compound marker. *)
Definition question_for (key question : string) : Prop :=
  question_templates !! key = Some question
  ∨ (key = "occasion or style" ∧ question = occasion_or_style_question).

(** Every vibe key has its entry in [key_to_mapping]. *)
Definition kb_consistent (self : SimilarityMatcher.t) : Prop :=
  ∀ vibe_key, vibe_key ∈ all_vibe_keys self → is_Some (key_to_mapping self !! vibe_key).

(** Two matchers over the same knowledge base (they may differ in their
    threshold). *)
Definition same_kb (self other : SimilarityMatcher.t) : Prop :=
  all_vibe_keys self = all_vibe_keys other
  ∧ key_to_mapping self = key_to_mapping other
  ∧ tfidf_matrix self = tfidf_matrix other.

(** The score order of [tfidf_matches]: later elements never score higher. *)
Definition scores_at_most (x y : string * Q) : Prop := (y.2 <= x.2)%Q.

(** The TF-IDF matches the sparse tier looks at: none unless the dense
    maximum is below 0.5. *)
Definition consulted_tfidf `{Backend} (self : SimilarityMatcher.t) (phrase : string)
    (dense_score : Q) : list (string * Q) :=
  if Qlt_bool dense_score (1 # 2) then calculate_tfidf_similarity self phrase else [].

(** What the loop maintains about the recorded confidences: they cover the
    matched keys, and each is the score of a recorded match that passed
    the threshold. *)
Definition confidences_justified (threshold : Q) (found : list rule_based_match)
    (st : merge_state) : Prop :=
  dom st.1.2 = dom st.1.1
  ∧ ∀ key score, st.1.2 !! key = Some score →
      (threshold <= score)%Q ∧ ∃ m, m ∈ found ∧ similarity_score m = score.

(** The bindings of the knowledge base, table after table, in load order. *)
Definition kb_entries (vm : mappings) : list (string * (string * dict)) :=
  vm ≫= fun '(mapping_type, mapping_data) =>
          (fun '(vibe_key, attributes) => (vibe_key, (mapping_type, attributes)))
            <$> mapping_data.

(** What the candidate loop maintains about its three dictionaries and the
    matches recorded so far: same keys everywhere, one method name, and every
    matched value stands with the score of a recorded match that offers it
    and passed the threshold. *)
Definition accepted_state (threshold : Q) (found : list rule_based_match)
    (st : merge_state) : Prop :=
  dom st.1.2 = dom st.1.1
  ∧ dom st.2 = dom st.1.1
  ∧ (∀ key name, st.2 !! key = Some name → name = "rule_based_similarity")
  ∧ ∀ key value, st.1.1 !! key = Some value →
      ∃ m, m ∈ found ∧ attributes m !! key = Some value
           ∧ st.1.2 !! key = Some (similarity_score m)
           ∧ (threshold <= similarity_score m)%Q.

(** The recorded confidence of a key is at least the score of every
    processed match that passed the threshold and offers the key. *)
Definition covers (threshold : Q) (processed : list rule_based_match)
    (st : merge_state) : Prop :=
  ∀ m, m ∈ processed → (threshold <= similarity_score m)%Q →
    ∀ key, is_Some (attributes m !! key) →
      ∃ score, st.1.2 !! key = Some score ∧ (similarity_score m <= score)%Q.

(** What the candidate loop records for one candidate: nothing when the
    candidate is skipped or the matcher has no answer, else the answer. *)
Definition recorded `{Backend} (self : SimilarityMatcher.t) (candidate : string)
  : option rule_based_match :=
  if skipped candidate then None
  else match _find_best_match_for_phrase self candidate with
       | Ret (Some (vibe_key, score, mapping_type, attributes)) =>
           Some {| input_phrase := candidate;
                   matched_vibe := vibe_key;
                   similarity_score := score;
                   mapping_type := mapping_type;
                   attributes := attributes |}
       | _ => None
       end.

(** The attributes of two states of the extraction agree. *)
Definition same_attributes (e e' : NLPAnalyzer.extracted) : Prop :=
  NLPAnalyzer.occasion e' = NLPAnalyzer.occasion e
  ∧ NLPAnalyzer.season e' = NLPAnalyzer.season e
  ∧ NLPAnalyzer.style e' = NLPAnalyzer.style e
  ∧ NLPAnalyzer.category e' = NLPAnalyzer.category e
  ∧ NLPAnalyzer.fit e' = NLPAnalyzer.fit e
  ∧ NLPAnalyzer.color e' = NLPAnalyzer.color e
  ∧ NLPAnalyzer.coverage e' = NLPAnalyzer.coverage e
  ∧ NLPAnalyzer.size e' = NLPAnalyzer.size e.

(** The first of the tokens that is in a word list. *)
Definition first_in (words tokens : list string) : option string :=
  List.find (fun token => bool_decide (token ∈ words)) tokens.

(** A chunk that names a season and an occasion, and a chunk of several
    words: the two tests under which a noun chunk becomes a key phrase. *)
Definition names_season_and_occasion (chunk_text : string) : bool :=
  existsb (fun season => contains season chunk_text) NLPAnalyzer.seasons
  && existsb (fun occasion => contains occasion chunk_text) NLPAnalyzer.occasions.

Definition has_several_words (chunk : string) : bool :=
  (1 <? length (NLPAnalyzer.split chunk))%nat.

(** The compound patterns that occur in a text. *)
Definition patterns_in (text_lower : string) (patterns : list string) : list string :=
  List.filter (fun pattern => contains pattern text_lower) patterns.

(** An answer of the matcher that is a binding of the lookup table. *)
Definition in_table (self : SimilarityMatcher.t)
    (answer : option SimilarityMatcher.best_match_t) : Prop :=
  match answer with
  | Some (vibe_key, _, mapping_type, attributes) =>
      SimilarityMatcher.key_to_mapping self !! vibe_key = Some (mapping_type, attributes)
  | None => True
  end.

(** Every value of a dictionary is truthy. *)
Definition all_truthy (attributes : dict) : Prop :=
  ∀ key value, attributes !! key = Some value → truthy value = true.

(** Each recorded confidence is the score of a recorded match that offers
    the kept value, and no accepted match recorded before it that has the key
    scores as much: among equal scores the earliest match keeps the key. *)
Definition earliest (threshold : Q) (found : list rule_based_match)
    (st : merge_state) : Prop :=
  ∀ key score, st.1.2 !! key = Some score →
    ∃ before m after,
      found = (before ++ m :: after)%list
      ∧ similarity_score m = score
      ∧ is_Some (attributes m !! key)
      ∧ st.1.1 !! key = attributes m !! key
      ∧ ∀ other, other ∈ before → (threshold <= similarity_score other)%Q →
          is_Some (attributes other !! key) →
          (similarity_score other < score)%Q.

(** * Sample data for the examples *)

(** A sample [float] on strings for the examples below: it accepts the
    unsigned decimal integers (surrounding blanks removed) and rejects
    every other string. *)
Definition digit_of (c : ascii) : option N :=
  let n := N_of_ascii c in
  if ((48 <=? n) && (n <=? 57))%N then Some (n - 48)%N else None.

Fixpoint digits (s : string) (acc : N) : option N :=
  match s with
  | EmptyString => Some acc
  | String c s' => d ← digit_of c; digits s' (10 * acc + d)%N
  end.

Definition decimal_float : FloatOfStr := fun s =>
  match strip s with
  | EmptyString => None
  | s' => (fun n => inject_Z (Z.of_N n)) <$> digits s' 0%N
  end.

(** The degraded configuration of the spec's failure modes: no embedding
    model and no TF-IDF space. *)
Definition no_backend : Backend := {|
  nlp := false;
  doc_similarity := fun _ _ => None;
  tfidf_fit_transform := fun _ => false;
  tfidf_cosine := fun _ _ => None
|}.

(** A back end for the examples: the embedding model is loaded and finds
    every pair of phrases mildly similar; TF-IDF scores the second key high. *)
Definition lukewarm_backend : Backend := {|
  nlp := true;
  doc_similarity := fun _ _ => Some (3 # 10);
  tfidf_fit_transform := fun _ => true;
  tfidf_cosine := fun rows _ =>
    Some (imap (fun i _ => if (i =? 1)%nat then 9 # 10 else 1 # 10) rows)
|}.

(** An oracle that always replies with a dress in size M and a budget. *)
Definition talkative_oracle : Oracle := {|
  available := true;
  chat_completion := fun _ _ _ =>
    Some (list_to_map [ ("category", VStr "dress"); ("size", VStr "M");
                        ("budget", VNum 80); ("fit", VStr "Relaxed") ])
|}.

(** Collaborators for the examples: an analyzer that extracts nothing, an
    empty catalog, a fixed sentence. *)
Definition quiet_collaborators : Collaborators := {|
  analyze_query := fun _ => (∅, []);
  filter_products := fun _ _ => [];
  generate_suggestion := fun _ _ _ => "Nothing matched.";
  max_results := 5
|}.

(** A spaCy stand-in for the examples: one token per blank-separated word,
    the whole text as only noun chunk, no stop words. *)
Definition word_model : NLPAnalyzer.Models := {|
  NLPAnalyzer.nlp := fun text =>
    {| NLPAnalyzer.Spacy.tokens :=
         (fun word => {| NLPAnalyzer.Spacy.text := word;
                         NLPAnalyzer.Spacy.pos_ := "NOUN";
                         NLPAnalyzer.Spacy.is_punct := false;
                         NLPAnalyzer.Spacy.is_stop := false |})
           <$> NLPAnalyzer.split text;
       NLPAnalyzer.Spacy.noun_chunks := [text] |};
  NLPAnalyzer.stop_words := ∅
|}.

(** Text tools for the examples: cleaning only lower-cases and strips, and
    no budget is found. *)
Definition plain_text_tools : NLPAnalyzer.TextTools := {|
  NLPAnalyzer.clean_text := fun text => strip (lower text);
  NLPAnalyzer._extract_budget := fun _ => None
|}.

(** Collaborators whose analyzer is [NLPAnalyzer.analyze_query] over the
    stand-ins above; empty catalog, fixed sentence. *)
Definition analyzer_collaborators : Collaborators := {|
  analyze_query := fun user_query =>
    match @NLPAnalyzer.analyze_query word_model plain_text_tools user_query with
    | NLPAnalyzer.Done r =>
        (NLPAnalyzer.Analysis.extracted_attributes r, NLPAnalyzer.Analysis.key_phrases r)
    | NLPAnalyzer.IndexError => (∅, [])
    end;
  filter_products := fun _ _ => [];
  generate_suggestion := fun _ _ _ => "Nothing matched.";
  max_results := 5
|}.

(** A formatting for the examples: strings as they are, [?] for any other
    value. *)
Definition plain_formatting : StreamlitApp.Formatting := fun value =>
  match value with
  | VStr s => s
  | _ => "?"
  end.

(** * Properties *)

(** ** Loops over [items()] *)

Section items_loops.
Context `{ItemsOrder}.

Lemma dict_items_NoDup {A} (d : gmap string A) : NoDup (dict_items d).*1.
Proof. rewrite (dict_items_perm A d). apply NoDup_fst_map_to_list. Qed.

Lemma elem_of_dict_items {A} (d : gmap string A) k v :
  (k, v) ∈ dict_items d ↔ d !! k = Some v.
Proof. rewrite (dict_items_perm A d). apply elem_of_map_to_list. Qed.

Lemma dict_items_to_map {A} (d : gmap string A) : list_to_map (dict_items d) = d.
Proof.
  rewrite <- (list_to_map_to_list d) at 2.
  apply list_to_map_proper; [apply dict_items_NoDup | apply dict_items_perm].
Qed.

Lemma dict_items_nil {A} (d : gmap string A) : dict_items d = [] ↔ d = ∅.
Proof.
  rewrite <- map_to_list_empty_iff. split; intros E.
  - apply Permutation_nil_r. rewrite <- E. symmetry. apply dict_items_perm.
  - apply Permutation_nil_r. rewrite <- E. apply dict_items_perm.
Qed.

(** A loop whose body writes at most the key it is visiting ends with, at
    every key, either what the body stored for it or the initial content. *)
Lemma own_key_loop_list {A B} (f : string → A → option B)
    (step : gmap string B → string * A → gmap string B) :
  (∀ acc k v, step acc (k, v) = match f k v with
                                | Some w => <[k := w]> acc
                                | None => acc
                                end) →
  ∀ (l : list (string * A)) acc k,
    NoDup l.*1 →
    fold_left step l acc !! k =
      match (list_to_map l : gmap string A) !! k ≫= f k with
      | Some w => Some w
      | None => acc !! k
      end.
Proof.
  intros Hstep l. induction l as [|[k0 v0] l IH]; intros acc k Hnd.
  - simpl. by rewrite lookup_empty.
  - inversion Hnd as [|? ? Hnotin Hnd']; subst. simpl fold_left.
    rewrite IH by done. rewrite Hstep. rewrite list_to_map_cons.
    destruct (decide (k = k0)) as [->|Hne].
    + rewrite lookup_insert_eq. rewrite (not_elem_of_list_to_map_1 l k0 Hnotin). simpl.
      destruct (f k0 v0); [by rewrite lookup_insert_eq | done].
    + rewrite lookup_insert_ne by done.
      destruct (list_to_map l !! k ≫= f k); [done|].
      destruct (f k0 v0); [by rewrite lookup_insert_ne | done].
Qed.

Lemma own_key_loop {A B} (f : string → A → option B)
    (step : gmap string B → string * A → gmap string B) :
  (∀ acc k v, step acc (k, v) = match f k v with
                                | Some w => <[k := w]> acc
                                | None => acc
                                end) →
  ∀ (d : gmap string A) acc k,
    fold_left step (dict_items d) acc !! k =
      match d !! k ≫= f k with
      | Some w => Some w
      | None => acc !! k
      end.
Proof.
  intros Hstep d acc k.
  rewrite (own_key_loop_list f step Hstep) by apply dict_items_NoDup.
  by rewrite dict_items_to_map.
Qed.

End items_loops.

(** ** Attribute fusion *)

Section fusion.
Context `{ItemsOrder}.

Lemma override_with_lookup (source merged : dict) key :
  override_with source merged !! key =
    match offer source key with
    | Some value => Some value
    | None => merged !! key
    end.
Proof.
  unfold override_with.
  rewrite (own_key_loop (fun _ value => if truthy value then Some value else None)).
  - unfold offer. destruct (source !! key) as [value|]; simpl; [|done].
    by destruct (truthy value).
  - intros acc k v. by destruct (truthy v).
Qed.

Lemma override_with_empty (merged : dict) : override_with ∅ merged = merged.
Proof.
  apply map_eq. intros key. rewrite override_with_lookup. unfold offer.
  by rewrite lookup_empty.
Qed.

(** The ladder: the resolved value of a key is the offer of the
    highest-priority source that makes one. *)
Lemma merge_lookup (extracted rule_based : dict) (gpt_inferred : option dict)
    (user_prefs : dict) key :
  _merge_all_attributes extracted rule_based gpt_inferred user_prefs !! key =
    first_offer [ offer user_prefs key; offer rule_based key;
                  offer (default ∅ gpt_inferred) key; offer extracted key ].
Proof.
  unfold _merge_all_attributes, first_offer. simpl.
  rewrite !override_with_lookup.
  destruct (offer user_prefs key); [done|].
  destruct (offer rule_based key); [done|].
  destruct gpt_inferred as [inferred|]; simpl.
  - case_bool_decide as Hempty.
    + subst inferred. unfold offer at 1. rewrite lookup_empty.
      rewrite override_with_lookup, lookup_empty. done.
    + rewrite !override_with_lookup, lookup_empty. done.
  - unfold offer at 1. rewrite lookup_empty.
    rewrite override_with_lookup, lookup_empty. done.
Qed.

Lemma offer_truthy source key value : offer source key = Some value → truthy value = true.
Proof.
  unfold offer. destruct (source !! key) as [v|]; [|done].
  destruct (truthy v) eqn:E; [|done]. by intros [= <-].
Qed.

Lemma offer_lookup source key value : offer source key = Some value → source !! key = Some value.
Proof.
  unfold offer. destruct (source !! key) as [v|]; [|done].
  destruct (truthy v); [|done]. by intros [= <-].
Qed.

Lemma offer_Some source key value :
  source !! key = Some value → truthy value = true → offer source key = Some value.
Proof. unfold offer. intros -> ->. done. Qed.

Lemma offer_falsy source key value :
  source !! key = Some value → truthy value = false → offer source key = None.
Proof. unfold offer. intros -> ->. done. Qed.

(** Every resolved value is the offer of one of the four sources. *)
Lemma merge_source (extracted rule_based : dict) (gpt_inferred : option dict)
    (user_prefs : dict) key value :
  _merge_all_attributes extracted rule_based gpt_inferred user_prefs !! key = Some value →
  offer user_prefs key = Some value ∨ offer rule_based key = Some value
  ∨ offer (default ∅ gpt_inferred) key = Some value ∨ offer extracted key = Some value.
Proof.
  rewrite merge_lookup. unfold first_offer. simpl.
  destruct (offer user_prefs key); [by auto|].
  destruct (offer rule_based key); [by auto|].
  destruct (offer (default ∅ gpt_inferred) key); [by auto|].
  destruct (offer extracted key); by auto.
Qed.

End fusion.

Section fusion_claims.
Context `{ItemsOrder}.

(** C1 (as amended).  Fusion resolves every key by the ladder
    [user_prefs > rule_based > gpt_inferred > extracted], with no reference
    to any confidence score: the resolved value of a key is the value of the
    highest-priority source whose value for that key is truthy (not [None],
    not empty, and for a number or boolean not zero or [False]), and the key
    is absent when no source has a truthy value; a falsy value therefore
    never overwrites anything.  In particular extracted [{size: "M"}] and
    user preference [{size: "L"}] resolve [size] to ["L"]. *)
Theorem C1_priority_ladder (extracted rule_based : dict) (gpt_inferred : option dict)
    (user_prefs : dict) (key : string) :
  _merge_all_attributes extracted rule_based gpt_inferred user_prefs !! key =
    first_offer [ offer user_prefs key; offer rule_based key;
                  offer (default ∅ gpt_inferred) key; offer extracted key ]
  ∧ _merge_all_attributes {[ "size" := VStr "M" ]} rule_based gpt_inferred
      {[ "size" := VStr "L" ]} !! "size" = Some (VStr "L").
Proof.
  split; [apply merge_lookup|].
  rewrite merge_lookup. unfold offer at 1. by rewrite lookup_singleton_eq.
Qed.

(** C9.  Every key of the fused dictionary maps to a truthy value: no
    source can enter an empty, null or otherwise falsy value. *)
Theorem C9_resolved_values_truthy (extracted rule_based : dict)
    (gpt_inferred : option dict) (user_prefs : dict) (key : string) (value : pyval) :
  _merge_all_attributes extracted rule_based gpt_inferred user_prefs !! key = Some value →
  truthy value = true.
Proof.
  intros Hkey. destruct (merge_source _ _ _ _ _ _ Hkey) as [Ho|[Ho|[Ho|Ho]]];
    eauto using offer_truthy.
Qed.

End fusion_claims.

(** C1, the claim as worded fails: a user preference [{budget: 0}] is
    neither null nor empty, yet it does not overwrite the extracted budget. *)
Lemma C1_zero_budget_does_not_overwrite :
  non_empty_non_null (VNum 0) = true
  ∧ _merge_all_attributes {[ "budget" := VNum 50 ]} ∅ None {[ "budget" := VNum 0 ]}
      !! "budget" = Some (VNum 50).
Proof. split; vm_compute; reflexivity. Qed.

Lemma C9_resolved_values_truthy_witness :
  _merge_all_attributes {[ "size" := VStr "M" ]} ∅ (Some {[ "fit" := VStr "" ]})
      {[ "size" := VStr "L" ]} !! "size" = Some (VStr "L")
  ∧ truthy (VStr "L") = true.
Proof.
  assert (E : _merge_all_attributes {[ "size" := VStr "M" ]} ∅ (Some {[ "fit" := VStr "" ]})
                {[ "size" := VStr "L" ]} !! "size" = Some (VStr "L"))
    by (vm_compute; reflexivity).
  split; [exact E|].
  exact (C9_resolved_values_truthy _ _ _ _ _ _ E).
Defined.

(** ** Budget coercion *)

Section budget_claims.
Context `{ItemsOrder} `{FloatOfStr}.




End budget_claims.



(** ** Validation of the oracle's reply *)

Lemma category_attributes_inv (category : string) (attrs : list string) :
  category_attributes !! category = Some attrs →
  attrs ∈ [ ["fit"; "fabric"; "sleeve_length"; "color_or_print"];
            ["fit"; "fabric"; "sleeve_length"; "color_or_print"; "occasion"; "neckline"];
            ["fabric"; "color_or_print"; "length"];
            ["fit"; "fabric"; "color_or_print"; "pant_type"] ].
Proof.
  intros E. apply elem_of_list_to_map_2 in E.
  apply list_elem_of_In in E. apply list_elem_of_In. simpl in *.
  intuition congruence.
Qed.

Lemma never_allowed (category attr_lower : string) :
  attr_lower = "size" ∨ attr_lower = "budget" →
  not_for_category attr_lower (default [] (category_attributes !! category)) = true.
Proof.
  intros Hattr.
  destruct (category_attributes !! category) as [attrs|] eqn:E; simpl.
  - apply category_attributes_inv, list_elem_of_In in E. simpl in E.
    destruct Hattr as [-> | ->];
      destruct E as [<-|[<-|[<-|[<-|[]]]]]; vm_compute; reflexivity.
  - destruct Hattr as [-> | ->]; vm_compute; reflexivity.
Qed.

Section validation_facts.
Context `{ItemsOrder}.

(** What the loop stores at a key. *)
Lemma validate_lookup (attributes validated : dict) :
  _validate_attributes attributes = Ret validated →
  ∃ category,
    category_of attributes = Ret category ∧
    ∀ attr,
      validated !! attr =
        attributes !! attr ≫= fun value =>
          if not_for_category (lower attr) (default [] (category_attributes !! category))
          then None else validate_value (lower attr) value.
Proof.
  unfold _validate_attributes.
  destruct (category_of attributes) as [category|e] eqn:Ecat; simpl; [|done].
  intros [= <-]. exists category. split; [done|]. intros attr.
  rewrite (own_key_loop (fun attr value =>
             if not_for_category (lower attr) (default [] (category_attributes !! category))
             then None else validate_value (lower attr) value)).
  - rewrite lookup_empty. by destruct (attributes !! attr ≫= _).
  - intros acc k v. unfold validate_step.
    by destruct (not_for_category _ _).
Qed.

Lemma validate_raises (attributes : dict) (e : exn) :
  _validate_attributes attributes = Raise e →
  e = AttributeError ∧ ∃ v, attributes !! "category" = Some v ∧ is_str v = false.
Proof.
  unfold _validate_attributes, category_of.
  destruct (attributes !! "category") as [v|]; [|done].
  destruct v; simpl; try done; intros [= <-]; eauto.
Qed.

End validation_facts.

Lemma not_for_category_false (attr_lower : string) (valid_attrs : list string) :
  not_for_category attr_lower valid_attrs = false ↔
  attr_lower = "category" ∨ attr_lower ∈ valid_attrs.
Proof.
  unfold not_for_category. rewrite andb_false_iff, !negb_false_iff.
  rewrite String.eqb_eq, bool_decide_eq_true. done.
Qed.

Section validation_claims.
Context `{ItemsOrder}.


End validation_claims.



(** ** The inferred tier and the critical attributes *)

Section inferred_tier.
Context `{ItemsOrder} `{Oracle}.

Lemma validate_drops (attributes validated : dict) (attr : string) :
  _validate_attributes attributes = Ret validated →
  lower attr = "size" ∨ lower attr = "budget" →
  validated !! attr = None.
Proof.
  intros Hrun Hattr. destruct (validate_lookup _ _ Hrun) as (category & _ & Hlook).
  rewrite Hlook. destruct (attributes !! attr) as [value|]; [|done]. simpl.
  by rewrite (never_allowed category (lower attr) Hattr).
Qed.

Lemma infer_drops (user_query : string) (existing : dict) (vm : mappings)
    (inferred : dict) (attr : string) :
  infer_attributes user_query existing vm = Some inferred →
  lower attr = "size" ∨ lower attr = "budget" →
  inferred !! attr = None.
Proof.
  unfold infer_attributes. destruct (negb available); [done|].
  destruct (chat_completion _ _ _) as [attributes|]; [|done].
  destruct (_validate_attributes attributes) as [validated|e] eqn:Hrun; [|done].
  intros [= <-] Hattr. exact (validate_drops _ _ _ Hrun Hattr).
Qed.

(** C10 (as amended).  The validated reply of the oracle never has the key
    ['size'] or ['budget'] (in any casing): neither is ['category'] nor on
    any category's allowed list.  The inferred tier therefore never supplies
    them, and a resolved size or budget is always the value held by the
    extraction, by the rule-based matches or by the user preferences. *)
Theorem C10_inferred_tier_never_supplies_size_or_budget (attr : string) :
  lower attr = "size" ∨ lower attr = "budget" →
  (∀ attributes validated : dict,
     _validate_attributes attributes = Ret validated → validated !! attr = None)
  ∧ (∀ user_query existing vm inferred,
       infer_attributes user_query existing vm = Some inferred → inferred !! attr = None)
  ∧ (∀ (extracted rule_based user_prefs : dict) user_query existing vm value,
       _merge_all_attributes extracted rule_based
         (infer_attributes user_query existing vm) user_prefs !! attr = Some value →
       user_prefs !! attr = Some value ∨ rule_based !! attr = Some value
       ∨ extracted !! attr = Some value).
Proof.
  intros Hattr. split; [|split].
  - intros attributes validated Hrun. exact (validate_drops _ _ _ Hrun Hattr).
  - intros user_query existing vm inferred Hrun. exact (infer_drops _ _ _ _ _ Hrun Hattr).
  - intros extracted rule_based user_prefs user_query existing vm value Hres.
    destruct (merge_source _ _ _ _ _ _ Hres) as [Ho|[Ho|[Ho|Ho]]];
      try (apply offer_lookup in Ho; by auto).
    apply offer_lookup in Ho.
    destruct (infer_attributes user_query existing vm) as [inferred|] eqn:Hinf; simpl in Ho.
    + by rewrite (infer_drops _ _ _ _ _ Hinf Hattr) in Ho.
    + by rewrite lookup_empty in Ho.
Qed.

End inferred_tier.

(** C10, the claim as worded fails: with the vibe ["petite"] mapped to
    [{size: "S"}] the rule-based tier resolves [size], although neither
    the extraction nor the user preferences hold a size. *)
Lemma C10_rule_based_match_supplies_size :
  let kb : mappings := [ ("fit_mapping", [ ("petite", {[ "size" := VStr "S" ]}) ]) ] in
  let self := @__init__ no_backend kb (4 # 5) in
  let extracted : dict := {[ "category" := VStr "dress" ]} in
  let user_prefs : dict := ∅ in
  ∃ similarity,
    @find_best_matches traversal_order no_backend self ["petite"] extracted = Ret similarity
    ∧ _merge_all_attributes extracted (matched_attributes similarity)
        (@infer_attributes _ talkative_oracle "petite dress" extracted kb) user_prefs
        !! "size" = Some (VStr "S")
    ∧ extracted !! "size" = None
    ∧ user_prefs !! "size" = None.
Proof.
  vm_compute. eexists. split; [reflexivity|]. repeat split.
Qed.

Lemma C10_inferred_tier_never_supplies_size_or_budget_witness :
  (lower "size" = "size" ∨ lower "size" = "budget")
  ∧ (∀ attributes validated : dict,
       _validate_attributes attributes = Ret validated → validated !! "size" = None)
  ∧ (∀ user_query existing vm inferred,
       @infer_attributes _ talkative_oracle user_query existing vm = Some inferred →
       inferred !! "size" = None)
  ∧ (∀ (extracted rule_based user_prefs : dict) user_query existing vm value,
       _merge_all_attributes extracted rule_based
         (@infer_attributes _ talkative_oracle user_query existing vm) user_prefs
         !! "size" = Some value →
       user_prefs !! "size" = Some value ∨ rule_based !! "size" = Some value
       ∨ extracted !! "size" = Some value).
Proof.
  assert (Hattr : lower "size" = "size" ∨ lower "size" = "budget")
    by (left; reflexivity).
  split; [exact Hattr|].
  exact (@C10_inferred_tier_never_supplies_size_or_budget traversal_order talkative_oracle
           "size" Hattr).
Defined.

(** ** Completeness check and clarification questions *)

Lemma bool_decide_dom (attributes : dict) (attr : string) :
  bool_decide (attr ∈ dom attributes) =
    match attributes !! attr with Some _ => true | None => false end.
Proof.
  destruct (attributes !! attr) as [v|] eqn:E.
  - apply bool_decide_eq_true. apply elem_of_dom. by eexists.
  - apply bool_decide_eq_false. by apply not_elem_of_dom.
Qed.

Lemma check_missing_closed (attributes : dict) :
  _check_missing_attributes attributes =
    ((if present_and_truthy attributes "category" then [] else ["category"])
     ++ (if present_and_truthy attributes "size" then [] else ["size"])
     ++ (if present_and_truthy attributes "budget" then [] else ["budget"])
     ++ (if wants_context attributes then ["occasion or style"] else []))%list.
Proof.
  unfold _check_missing_attributes, wants_context.
  set (has_context := existsb (present_and_truthy attributes) _).
  unfold present_and_truthy.
  simpl fold_left. rewrite !bool_decide_dom.
  destruct (attributes !! "category") as [c|];
    destruct (attributes !! "size") as [s|];
    destruct (attributes !! "budget") as [b|]; simpl;
    repeat match goal with |- context [truthy ?v] => destruct (truthy v) end; simpl;
    try reflexivity;
    destruct has_context; reflexivity.
Qed.

Section completeness_claims.
Context `{Collaborators}.

(** C3.  The list of missing attributes is exactly: the critical
    attributes among category, size and budget that are absent or falsy, in
    that order and each once, followed by the marker ["occasion or style"]
    when, and only when, the three critical keys are all present and no
    context attribute (occasion, season, style, fit) is present with a
    truthy value; nothing else is ever listed.  So each critical attribute
    is listed exactly when it is absent or falsy, the marker is never listed
    while a critical key is absent, and the turn is READY, the set being
    passed to catalog filtering, exactly when the list is empty. *)
Theorem C3_completeness_check (user_query : string) (attributes : dict) :
  let missing := _check_missing_attributes attributes in
  let absent_or_falsy attr :=
    attributes !! attr = None
    ∨ ∃ value, attributes !! attr = Some value ∧ truthy value = false in
  let no_context :=
    ∀ attr, attr ∈ ["occasion"; "season"; "style"; "fit"] →
      ¬ ∃ value, attributes !! attr = Some value ∧ truthy value = true in
  let all_present :=
    "category" ∈ dom attributes ∧ "size" ∈ dom attributes ∧ "budget" ∈ dom attributes in
  (∀ attr, attr ∈ ["category"; "size"; "budget"] → attr ∈ missing ↔ absent_or_falsy attr)
  ∧ (all_present → "occasion or style" ∈ missing ↔ no_context)
  ∧ (success (respond user_query attributes).2 = true ↔ missing = [])
  ∧ (CatalogCall attributes max_results ∈ (respond user_query attributes).1 ↔ missing = [])
  ∧ ("occasion or style" ∈ missing ↔ all_present ∧ no_context)
  ∧ (∃ critical marker,
       missing = (critical ++ marker)%list
       ∧ critical `sublist_of` ["category"; "size"; "budget"]
       ∧ (∀ attr, attr ∈ critical ↔
            attr ∈ ["category"; "size"; "budget"] ∧ absent_or_falsy attr)
       ∧ (marker = ["occasion or style"] ∧ all_present ∧ no_context
          ∨ marker = [] ∧ ¬ (all_present ∧ no_context)))
  ∧ missing
    = (List.filter (fun attr => negb (present_and_truthy attributes attr))
                   ["category"; "size"; "budget"]
       ++ (if wants_context attributes then ["occasion or style"] else []))%list.
Proof.
  intros missing absent_or_falsy no_context all_present.
  assert (Hp : ∀ attr, present_and_truthy attributes attr = false ↔ absent_or_falsy attr).
  { intros attr. unfold present_and_truthy, absent_or_falsy.
    destruct (attributes !! attr) as [v|].
    - split; [by eauto|]. intros [?|(v' & [= <-] & ?)]; done.
    - split; [by left | done]. }
  assert (Hcontext : existsb (present_and_truthy attributes)
                       ["occasion"; "season"; "style"; "fit"] = false ↔ no_context).
  { rewrite <- not_true_iff_false, existsb_exists. unfold no_context. split.
    - intros Hno attr Hattr (value & Hv & Ht). apply Hno. exists attr.
      split; [by apply list_elem_of_In|]. unfold present_and_truthy. by rewrite Hv.
    - intros Hno (attr & Hattr & Hpresent). apply (Hno attr); [by apply list_elem_of_In|].
      unfold present_and_truthy in Hpresent.
      destruct (attributes !! attr) as [v|]; [|done]. by exists v. }
  assert (Hwants : wants_context attributes = true ↔ all_present ∧ no_context).
  { unfold wants_context, all_present.
    rewrite !andb_true_iff, !bool_decide_eq_true, negb_true_iff, Hcontext. tauto. }
  assert (Hclosed : missing
            = (List.filter (fun attr => negb (present_and_truthy attributes attr))
                           ["category"; "size"; "budget"]
               ++ (if wants_context attributes then ["occasion or style"] else []))%list).
  { unfold missing. rewrite check_missing_closed. simpl.
    destruct (present_and_truthy attributes "category");
      destruct (present_and_truthy attributes "size");
      destruct (present_and_truthy attributes "budget"); reflexivity. }
  assert (Hcritical : ∀ attr,
            attr ∈ List.filter (fun attr => negb (present_and_truthy attributes attr))
                               ["category"; "size"; "budget"]
            ↔ attr ∈ ["category"; "size"; "budget"] ∧ absent_or_falsy attr).
  { intros attr. rewrite list_elem_of_In, filter_In, <- list_elem_of_In.
    by rewrite negb_true_iff, Hp. }
  assert (Hmarker : "occasion or style" ∈ missing ↔ all_present ∧ no_context).
  { rewrite <- Hwants, Hclosed, elem_of_app, Hcritical. split.
    - intros [[Hin _]|Hin].
      + apply list_elem_of_In in Hin. simpl in Hin. intuition discriminate.
      + destruct (wants_context attributes); [done|]. by apply elem_of_nil in Hin.
    - intros ->. right. by apply list_elem_of_singleton. }
  split; [|split; [|split; [|split; [|split; [|split; [|exact Hclosed]]]]]].
  6:{ eexists _, _. split; [exact Hclosed|]. split; [|split; [exact Hcritical|]].
      - clear. induction ["category"; "size"; "budget"] as [|attr attrs IH]; simpl; [done|].
        destruct (negb (present_and_truthy attributes attr));
          [by apply sublist_skip | by apply sublist_cons].
      - destruct (wants_context attributes) eqn:Ewants.
        + left. split; [done|]. by apply Hwants.
        + right. split; [done|]. intros Hyes. apply Hwants in Hyes. congruence. }
  5:{ exact Hmarker. }
  - intros attr Hattr.
    rewrite <- Hp. unfold missing. rewrite check_missing_closed.
    apply list_elem_of_In in Hattr. simpl in Hattr.
    destruct Hattr as [<-|[<-|[<-|[]]]];
      destruct (present_and_truthy attributes "category");
      destruct (present_and_truthy attributes "size");
      destruct (present_and_truthy attributes "budget");
      destruct (wants_context attributes); simpl;
      rewrite list_elem_of_In; simpl; intuition congruence.
  - intros Hpresent. rewrite Hmarker. tauto.
  - unfold respond. fold missing. destruct missing; simpl; [done|]. split; done.
  - unfold respond. fold missing. destruct missing; simpl.
    + split; [done|]. intros _. apply list_elem_of_singleton. done.
    + split; [|done]. intros Hin. by apply elem_of_nil in Hin.
Qed.

End completeness_claims.

Section clarification_claims.
Context `{Collaborators}.

(** C8.  When the completeness check yields a non-empty list, the
    follow-up questions are, in order, one per missing key, each taken from
    the template table or, for the marker ["occasion or style"], the combined
    template; the whole list is returned as [suggested_questions] and its
    first element is the message.  For [{category: "dress", size: "M"}] the
    list contains ["budget"] and the first question is the budget template. *)
Theorem C8_clarification_questions (user_query : string) (attributes : dict) :
  let missing := _check_missing_attributes attributes in
  let questions := _generate_follow_up_questions missing in
  missing ≠ [] →
  Forall2 question_for missing questions
  ∧ (∃ first rest,
       questions = first :: rest
       ∧ respond user_query attributes = ([], NeedsInfo first missing questions attributes))
  ∧ (let example : dict := list_to_map [ ("category", VStr "dress"); ("size", VStr "M") ] in
     "budget" ∈ _check_missing_attributes example
     ∧ head (_generate_follow_up_questions (_check_missing_attributes example))
       = question_templates !! "budget"
     ∧ question_templates !! "budget"
       = Some "What's your budget? You can say something like '$50', 'under $100', or '200 dollars'").
Proof.
  intros missing questions Hmissing.
  split; [|split].
  - unfold questions, missing in *. rewrite check_missing_closed in *.
    destruct (present_and_truthy attributes "category");
      destruct (present_and_truthy attributes "size");
      destruct (present_and_truthy attributes "budget");
      destruct (wants_context attributes); simpl in Hmissing; try done;
      vm_compute;
      repeat (constructor;
              [first [left; reflexivity | right; split; reflexivity]|]);
      constructor.
  - unfold respond. fold missing. fold questions.
    assert (Hq : ∃ first rest, questions = first :: rest).
    { unfold questions, missing in *. rewrite check_missing_closed in *.
      destruct (present_and_truthy attributes "category");
        destruct (present_and_truthy attributes "size");
        destruct (present_and_truthy attributes "budget");
        destruct (wants_context attributes); simpl in Hmissing; try done;
        vm_compute; eexists _, _; reflexivity. }
    destruct Hq as (first & rest & Hq). exists first, rest. split; [done|].
    destruct missing as [|m ms] eqn:Em; [done|]. by rewrite Hq.
  - vm_compute. split; [|split; reflexivity].
    apply list_elem_of_In. simpl. by left.
Qed.

End clarification_claims.

Lemma C8_clarification_questions_witness :
  let attributes : dict := list_to_map [ ("category", VStr "dress"); ("size", VStr "M") ] in
  let missing := _check_missing_attributes attributes in
  let questions := _generate_follow_up_questions missing in
  missing ≠ []
  ∧ Forall2 question_for missing questions
  ∧ ∃ first rest,
      questions = first :: rest
      ∧ @respond quiet_collaborators "a dress in M" attributes
        = ([], NeedsInfo first missing questions attributes).
Proof.
  intros attributes missing questions.
  assert (Hmissing : missing ≠ []) by (vm_compute; discriminate).
  split; [exact Hmissing|].
  destruct (@C8_clarification_questions quiet_collaborators "a dress in M" attributes
              Hmissing) as (Hall & Hfirst & _).
  split; [exact Hall | exact Hfirst].
Defined.

(** ** The similarity matcher *)

(** Comparisons on scores. *)
Lemma Qlt_bool_true (x y : Q) : Qlt_bool x y = true ↔ (x < y)%Q.
Proof.
  unfold Qlt_bool. rewrite negb_true_iff, <- not_true_iff_false, Qle_bool_iff.
  split; [apply Qnot_le_lt | apply Qlt_not_le].
Qed.

Lemma Qlt_bool_false (x y : Q) : Qlt_bool x y = false ↔ (y <= x)%Q.
Proof. unfold Qlt_bool. by rewrite negb_false_iff, Qle_bool_iff. Qed.

Lemma Qge_bool_true (x y : Q) : Qge_bool x y = true ↔ (y <= x)%Q.
Proof. unfold Qge_bool. apply Qle_bool_iff. Qed.

Section matcher_facts.
Context `{ItemsOrder} `{Backend}.

Lemma prepare_inner_consistent (mapping_type : string) (mapping_data : list (string * dict))
    (keys : list string) (k2m : gmap string (string * dict)) :
  (∀ k, k ∈ keys → is_Some (k2m !! k)) →
  let '(keys', k2m') :=
    fold_left (fun '(keys, k2m) '(vibe_key, attributes) =>
                 ((keys ++ [vibe_key])%list,
                  <[vibe_key := (mapping_type, attributes)]> k2m))
              mapping_data (keys, k2m) in
  ∀ k, k ∈ keys' → is_Some (k2m' !! k).
Proof.
  revert keys k2m. induction mapping_data as [|[vibe_key attributes] rest IH];
    intros keys k2m Hinv; simpl; [done|].
  apply IH. intros k Hk. apply elem_of_app in Hk as [Hk|Hk].
  - destruct (decide (k = vibe_key)) as [->|Hne].
    + rewrite lookup_insert_eq. by eexists.
    + rewrite lookup_insert_ne by done. by apply Hinv.
  - apply list_elem_of_singleton in Hk as ->. rewrite lookup_insert_eq. by eexists.
Qed.

Lemma prepare_outer_consistent (vm : mappings) (keys : list string)
    (k2m : gmap string (string * dict)) :
  (∀ k, k ∈ keys → is_Some (k2m !! k)) →
  let '(keys', k2m') :=
    fold_left (fun acc '(mapping_type, mapping_data) =>
      fold_left (fun '(keys, k2m) '(vibe_key, attributes) =>
                   ((keys ++ [vibe_key])%list,
                    <[vibe_key := (mapping_type, attributes)]> k2m))
                (mapping_data : list (string * dict)) acc)
      vm (keys, k2m) in
  ∀ k, k ∈ keys' → is_Some (k2m' !! k).
Proof.
  revert keys k2m. induction vm as [|[mapping_type mapping_data] rest IH];
    intros keys k2m Hinv; simpl; [done|].
  pose proof (prepare_inner_consistent mapping_type mapping_data keys k2m Hinv) as Hin.
  destruct (fold_left _ mapping_data (keys, k2m)) as [keys1 k2m1].
  by apply IH.
Qed.

Lemma init_consistent (vm : mappings) (threshold : Q) :
  kb_consistent (__init__ vm threshold).
Proof.
  unfold kb_consistent, __init__, _prepare_vibe_vectors.
  pose proof (prepare_outer_consistent vm [] ∅) as Hinv.
  destruct (fold_left _ vm _) as [keys k2m]. simpl.
  apply Hinv. intros k Hk. by apply elem_of_nil in Hk.
Qed.

Lemma init_same_kb (vm : mappings) (low high : Q) :
  same_kb (__init__ vm high) (__init__ vm low).
Proof.
  unfold same_kb, __init__. destruct (_prepare_vibe_vectors vm) as [[keys k2m] matrix].
  done.
Qed.

Lemma init_threshold (vm : mappings) (threshold : Q) :
  similarity_threshold (__init__ vm threshold) = threshold.
Proof. unfold __init__. by destruct (_prepare_vibe_vectors vm) as [[keys k2m] matrix]. Qed.

Lemma key_to_mapping_get_same (self other : SimilarityMatcher.t) (vibe_key : string) :
  same_kb self other → key_to_mapping_get self vibe_key = key_to_mapping_get other vibe_key.
Proof. intros (_ & Hk & _). unfold key_to_mapping_get. by rewrite Hk. Qed.

Lemma key_to_mapping_get_Some (self : SimilarityMatcher.t) (vibe_key : string) :
  is_Some (key_to_mapping self !! vibe_key) →
  ∃ mapping_type attributes,
    key_to_mapping self !! vibe_key = Some (mapping_type, attributes)
    ∧ key_to_mapping_get self vibe_key = Ret (mapping_type, attributes).
Proof.
  intros [[mapping_type attributes] E]. exists mapping_type, attributes.
  unfold key_to_mapping_get. by rewrite E.
Qed.

End matcher_facts.

(** *** The three tiers *)

Section tiers.
Context `{ItemsOrder} `{Backend}.

Lemma insert_desc_perm (x : string * Q) (sorted : list (string * Q)) :
  insert_desc x sorted ≡ₚ x :: sorted.
Proof.
  induction sorted as [|y sorted IH]; simpl; [done|].
  destruct (Qlt_bool x.2 y.2); [|done].
  rewrite IH. apply Permutation_swap.
Qed.

Lemma sort_desc_perm (pairs : list (string * Q)) : sort_desc pairs ≡ₚ pairs.
Proof.
  induction pairs as [|x pairs IH]; simpl; [done|].
  rewrite insert_desc_perm. by rewrite IH.
Qed.

Lemma insert_desc_sorted (x : string * Q) (sorted : list (string * Q)) :
  StronglySorted scores_at_most sorted →
  StronglySorted scores_at_most (insert_desc x sorted).
Proof.
  induction 1 as [|y sorted Hsorted IH Hall]; simpl.
  - repeat constructor.
  - destruct (Qlt_bool x.2 y.2) eqn:E.
    + constructor; [done|]. rewrite insert_desc_perm. constructor; [|done].
      apply Qlt_bool_true in E. by apply Qlt_le_weak.
    + apply Qlt_bool_false in E. constructor; [by constructor|].
      constructor; [done|].
      eapply Forall_impl; [exact Hall|]. intros z Hz. unfold scores_at_most in *.
      by eapply Qle_trans.
Qed.

Lemma sort_desc_sorted (pairs : list (string * Q)) :
  StronglySorted scores_at_most (sort_desc pairs).
Proof.
  induction pairs as [|x pairs IH]; simpl; [constructor|]. by apply insert_desc_sorted.
Qed.

(** The head of the sorted list carries the highest score. *)
Lemma sort_desc_head (pairs : list (string * Q)) (top : string * Q) rest :
  sort_desc pairs = top :: rest →
  ∀ pair, pair ∈ pairs → (pair.2 <= top.2)%Q.
Proof.
  intros Hsort pair Hin.
  pose proof (sort_desc_sorted pairs) as Hsorted. rewrite Hsort in Hsorted.
  rewrite <- (sort_desc_perm pairs), Hsort in Hin.
  apply StronglySorted_inv in Hsorted as [_ Hall].
  apply elem_of_cons in Hin as [->|Hin]; [apply Qle_refl|].
  rewrite Forall_forall in Hall. by apply Hall.
Qed.

Lemma tfidf_keys (self : SimilarityMatcher.t) (phrase vibe_key : string) (score : Q) :
  (vibe_key, score) ∈ calculate_tfidf_similarity self phrase →
  vibe_key ∈ all_vibe_keys self.
Proof.
  unfold calculate_tfidf_similarity.
  destruct (tfidf_matrix self) as [rows|]; [|by intros ?%elem_of_nil].
  destruct (length rows =? 0)%nat; [by intros ?%elem_of_nil|].
  destruct (tfidf_cosine rows phrase) as [similarities|]; [|by intros ?%elem_of_nil].
  rewrite sort_desc_perm. apply elem_of_zip_l.
Qed.

Lemma tfidf_same (self other : SimilarityMatcher.t) (phrase : string) :
  same_kb self other →
  calculate_tfidf_similarity self phrase = calculate_tfidf_similarity other phrase.
Proof. intros (Hk & _ & Hm). unfold calculate_tfidf_similarity. by rewrite Hk, Hm. Qed.

Lemma exact_tier_same (self other : SimilarityMatcher.t) phrase_lower keys :
  same_kb self other →
  exact_tier self phrase_lower keys = exact_tier other phrase_lower keys.
Proof.
  intros Hsame. induction keys as [|vibe_key keys IH]; simpl; [done|].
  rewrite IH. by rewrite (key_to_mapping_get_same self other vibe_key Hsame).
Qed.

Lemma dense_tier_same (self other : SimilarityMatcher.t) phrase keys best_match best_score :
  same_kb self other →
  dense_tier self phrase keys best_match best_score
  = dense_tier other phrase keys best_match best_score.
Proof.
  intros Hsame. revert best_match best_score.
  induction keys as [|vibe_key keys IH]; intros best_match best_score; simpl; [done|].
  rewrite (key_to_mapping_get_same self other vibe_key Hsame).
  destruct (Qlt_bool _ _); [|apply IH].
  destruct (key_to_mapping_get other vibe_key) as [[mapping_type attributes]|e];
    simpl; [apply IH | done].
Qed.

Lemma find_best_match_same (self other : SimilarityMatcher.t) (phrase : string) :
  same_kb self other →
  _find_best_match_for_phrase self phrase = _find_best_match_for_phrase other phrase.
Proof.
  intros Hsame. unfold _find_best_match_for_phrase, sparse_tier.
  destruct Hsame as (Hk & Hm & Ht). pose proof (conj Hk (conj Hm Ht)) as Hsame.
  rewrite Hk. rewrite (exact_tier_same self other _ _ Hsame).
  destruct (exact_tier other _ _) as [[found|]|e]; simpl; try done.
  rewrite (dense_tier_same self other _ _ _ _ Hsame).
  destruct (if nlp then _ else _) as [[best_match best_score]|e]; simpl; [|done].
  rewrite (tfidf_same self other phrase Hsame).
  destruct (Qlt_bool best_score (1 # 2)); [|done].
  destruct (calculate_tfidf_similarity other phrase) as [|[top_key top_score] rest]; [done|].
  destruct (Qlt_bool best_score top_score); [|done].
  by rewrite (key_to_mapping_get_same self other top_key Hsame).
Qed.

(** The exact tier returns the first key equal to the normalised phrase. *)
Lemma exact_tier_find (self : SimilarityMatcher.t) (phrase_lower : string)
    (keys : list string) :
  (∀ k, k ∈ keys → is_Some (key_to_mapping self !! k)) →
  match List.find (fun k => String.eqb phrase_lower (lower k)) keys with
  | Some vibe_key =>
      ∃ mapping_type attributes,
        key_to_mapping self !! vibe_key = Some (mapping_type, attributes)
        ∧ exact_tier self phrase_lower keys
          = Ret (Some (vibe_key, 1%Q, mapping_type, attributes))
  | None => exact_tier self phrase_lower keys = Ret None
  end.
Proof.
  induction keys as [|vibe_key keys IH]; intros Hall; simpl; [done|].
  destruct (String.eqb phrase_lower (lower vibe_key)).
  - destruct (key_to_mapping_get_Some self vibe_key) as (mapping_type & attributes & E & Hget).
    { apply Hall. by left. }
    exists mapping_type, attributes. by rewrite Hget.
  - apply IH. intros k Hk. apply Hall. by right.
Qed.

(** The dense tier keeps a running maximum of the similarities. *)
Lemma dense_tier_max (self : SimilarityMatcher.t) (phrase : string) (keys : list string)
    (best_match : option best_match_t) (best_score : Q) :
  (∀ k, k ∈ keys → is_Some (key_to_mapping self !! k)) →
  ∃ final_match final_score,
    dense_tier self phrase keys best_match best_score = Ret (final_match, final_score)
    ∧ (best_score <= final_score)%Q
    ∧ (∀ k, k ∈ keys → (calculate_spacy_similarity phrase k <= final_score)%Q)
    ∧ ((final_match = best_match ∧ final_score = best_score)
       ∨ ∃ vibe_key mapping_type attributes,
           vibe_key ∈ keys
           ∧ final_score = calculate_spacy_similarity phrase vibe_key
           ∧ (best_score < final_score)%Q
           ∧ key_to_mapping self !! vibe_key = Some (mapping_type, attributes)
           ∧ final_match = Some (vibe_key, final_score, mapping_type, attributes)).
Proof.
  revert best_match best_score.
  induction keys as [|vibe_key keys IH]; intros best_match best_score Hall; simpl.
  { exists best_match, best_score. split; [done|]. split; [apply Qle_refl|].
    split; [by intros k ?%elem_of_nil | by left]. }
  assert (Hrest : ∀ k, k ∈ keys → is_Some (key_to_mapping self !! k)).
  { intros k Hk. apply Hall. by right. }
  destruct (Qlt_bool best_score (calculate_spacy_similarity phrase vibe_key)) eqn:E.
  - apply Qlt_bool_true in E.
    destruct (key_to_mapping_get_Some self vibe_key) as (mapping_type & attributes & Ek & Hget).
    { apply Hall. by left. }
    rewrite Hget. simpl.
    destruct (IH (Some (vibe_key, calculate_spacy_similarity phrase vibe_key,
                        mapping_type, attributes))
                 (calculate_spacy_similarity phrase vibe_key) Hrest)
      as (final_match & final_score & Hrun & Hle & Hmax & Hwho).
    exists final_match, final_score. split; [done|].
    split; [apply Qlt_le_weak; by eapply Qlt_le_trans|].
    split.
    + intros k Hk. apply elem_of_cons in Hk as [->|Hk]; [done | by apply Hmax].
    + right. destruct Hwho as [[-> ->]|(k' & mt & at' & Hk' & Hs & Hlt & Hm & ->)].
      * exists vibe_key, mapping_type, attributes. repeat split; try done. by left.
      * exists k', mt, at'. repeat split; try done; [by right|].
        by eapply Qlt_trans.
  - apply Qlt_bool_false in E.
    destruct (IH best_match best_score Hrest)
      as (final_match & final_score & Hrun & Hle & Hmax & Hwho).
    exists final_match, final_score. split; [done|]. split; [done|]. split.
    + intros k Hk. apply elem_of_cons in Hk as [->|Hk]; [by eapply Qle_trans | by apply Hmax].
    + destruct Hwho as [?|(k' & mt & at' & Hk' & Hs & Hlt & Hm & ->)]; [by left|].
      right. exists k', mt, at'. repeat split; try done. by right.
Qed.

End tiers.

Section matching_claims.
Context `{ItemsOrder} `{Backend}.

Lemma sparse_tier_spec (self : SimilarityMatcher.t) (phrase : string)
    (dense_match : option best_match_t) (dense_score : Q) :
  kb_consistent self →
  ∃ answer,
    sparse_tier self phrase dense_match dense_score = Ret answer
    ∧ match consulted_tfidf self phrase dense_score with
      | (top_key, top_score) :: _ =>
          if Qlt_bool dense_score top_score
          then ∃ mapping_type attributes,
                 key_to_mapping self !! top_key = Some (mapping_type, attributes)
                 ∧ answer = Some (top_key, top_score, mapping_type, attributes)
          else answer = dense_match
      | [] => answer = dense_match
      end.
Proof.
  intros Hkb. unfold sparse_tier, consulted_tfidf.
  destruct (Qlt_bool dense_score (1 # 2)); [|by eexists].
  destruct (calculate_tfidf_similarity self phrase) as [|[top_key top_score] rest] eqn:Et;
    [by eexists|].
  destruct (Qlt_bool dense_score top_score); [|by eexists].
  destruct (key_to_mapping_get_Some self top_key) as (mapping_type & attributes & Ek & Hget).
  { apply Hkb. apply (tfidf_keys self phrase top_key top_score). rewrite Et. by left. }
  rewrite Hget. simpl. eexists. split; [done|]. by exists mapping_type, attributes.
Qed.

(** C2 (as amended).  If the phrase, lower-cased and stripped of
    surrounding blanks, equals the lower-cased form of a vibe key, the
    matcher returns the first such key in knowledge-base order with that
    key's attributes and score exactly 1, whatever the other tiers would
    say; a key without surrounding blanks is thus matched with score 1 by
    any of its casing variants, the answer being the first key equal to it
    up to case.  Otherwise the dense tier (when the embedding model is
    loaded; its score is 0 when it is not) scores every vibe key and keeps
    the maximum, starting from 0; the TF-IDF tier is consulted only when
    that maximum is below 0.5 and supersedes the dense result only when its
    top score, the highest TF-IDF score, strictly exceeds it; a returned
    score is the maximum over the tiers that ran.  No [KeyError] occurs. *)
Theorem C2_tiered_matching (vm : mappings) (threshold : Q) (phrase : string) :
  let self := __init__ vm threshold in
  let keys := all_vibe_keys self in
  let answer := _find_best_match_for_phrase self phrase in
  match List.find (fun k => String.eqb (strip (lower phrase)) (lower k)) keys with
  | Some vibe_key =>
      ∃ mapping_type attributes,
        key_to_mapping self !! vibe_key = Some (mapping_type, attributes)
        ∧ answer = Ret (Some (vibe_key, 1%Q, mapping_type, attributes))
  | None =>
      ∃ dense_match dense_score,
        (if nlp then dense_tier self phrase keys None 0%Q else Ret (None, 0%Q))
        = Ret (dense_match, dense_score)
        ∧ (0 <= dense_score)%Q
        ∧ (nlp = true → ∀ k, k ∈ keys →
             (calculate_spacy_similarity phrase k <= dense_score)%Q)
        ∧ match dense_match with
          | None => dense_score = 0%Q
          | Some (vibe_key, score, mapping_type, attributes) =>
              nlp = true ∧ vibe_key ∈ keys
              ∧ score = calculate_spacy_similarity phrase vibe_key
              ∧ score = dense_score
              ∧ key_to_mapping self !! vibe_key = Some (mapping_type, attributes)
          end
        ∧ match consulted_tfidf self phrase dense_score with
          | (top_key, top_score) :: _ =>
              if Qlt_bool dense_score top_score
              then ∃ mapping_type attributes,
                     key_to_mapping self !! top_key = Some (mapping_type, attributes)
                     ∧ answer = Ret (Some (top_key, top_score, mapping_type, attributes))
              else answer = Ret dense_match
          | [] => answer = Ret dense_match
          end
        ∧ (∀ vibe_key score mapping_type attributes,
             answer = Ret (Some (vibe_key, score, mapping_type, attributes)) →
             (dense_score <= score)%Q
             ∧ ∀ pair, pair ∈ consulted_tfidf self phrase dense_score →
                 (pair.2 <= score)%Q)
  end
  ∧ (∀ vibe_key, vibe_key ∈ keys → strip (lower phrase) = lower vibe_key →
       ∃ first_key mapping_type attributes,
         first_key ∈ keys ∧ lower first_key = lower vibe_key
         ∧ key_to_mapping self !! first_key = Some (mapping_type, attributes)
         ∧ answer = Ret (Some (first_key, 1%Q, mapping_type, attributes))).
Proof.
  intros self keys answer.
  pose proof (init_consistent vm threshold) as Hkb. fold self in Hkb.
  pose proof (exact_tier_find self (strip (lower phrase)) keys Hkb) as Hexact.
  assert (Hfirst :
    match List.find (fun k => String.eqb (strip (lower phrase)) (lower k)) keys with
    | Some vibe_key =>
        ∃ mapping_type attributes,
          key_to_mapping self !! vibe_key = Some (mapping_type, attributes)
          ∧ answer = Ret (Some (vibe_key, 1%Q, mapping_type, attributes))
    | None => exact_tier self (strip (lower phrase)) keys = Ret None
    end).
  { destruct (List.find _ keys) as [vibe_key|]; [|done].
    destruct Hexact as (mapping_type & attributes & Ek & Hrun).
    exists mapping_type, attributes. split; [done|].
    unfold answer, _find_best_match_for_phrase. fold keys. by rewrite Hrun. }
  split.
  - destruct (List.find _ keys) as [vibe_key|] eqn:Efind; [done|].
    assert (Hdense : ∃ dense_match dense_score,
      (if nlp then dense_tier self phrase keys None 0%Q else Ret (None, 0%Q))
      = Ret (dense_match, dense_score)
      ∧ (0 <= dense_score)%Q
      ∧ (nlp = true → ∀ k, k ∈ keys →
           (calculate_spacy_similarity phrase k <= dense_score)%Q)
      ∧ match dense_match with
        | None => dense_score = 0%Q
        | Some (vibe_key, score, mapping_type, attributes) =>
            nlp = true ∧ vibe_key ∈ keys
            ∧ score = calculate_spacy_similarity phrase vibe_key
            ∧ score = dense_score
            ∧ key_to_mapping self !! vibe_key = Some (mapping_type, attributes)
        end).
    { destruct nlp eqn:Enlp.
      - destruct (dense_tier_max self phrase keys None 0%Q Hkb)
          as (dm & ds & Hrun & Hle & Hmax & Hwho).
        exists dm, ds. split; [done|]. split; [done|]. split; [by intros _|].
        destruct Hwho as [[-> ->]|(k & mt & at' & Hk & Hs & Hlt & Hm & ->)]; [done|].
        by repeat split.
      - exists None, 0%Q. split; [done|]. split; [apply Qle_refl|]. by split. }
    destruct Hdense as (dense_match & dense_score & Hrun & Hpos & Hmax & Hwho).
    exists dense_match, dense_score.
    split; [done|]. split; [done|]. split; [done|]. split; [done|].
    destruct (sparse_tier_spec self phrase dense_match dense_score Hkb)
      as (final & Hsparse & Hfinal).
    assert (Hanswer : answer = Ret final).
    { unfold answer, _find_best_match_for_phrase. fold keys. rewrite Hfirst. simpl.
      rewrite Hrun. simpl. exact Hsparse. }
    assert (Htop : ∀ top rest, consulted_tfidf self phrase dense_score = top :: rest →
                   ∀ pair, pair ∈ consulted_tfidf self phrase dense_score →
                     (pair.2 <= top.2)%Q).
    { intros top rest Ec pair Hpair. rewrite Ec in Hpair.
      unfold consulted_tfidf in Ec.
      destruct (Qlt_bool dense_score (1 # 2)); [|done].
      unfold calculate_tfidf_similarity in Ec.
      destruct (tfidf_matrix self) as [rows|]; [|done].
      destruct (length rows =? 0)%nat; [done|].
      destruct (tfidf_cosine rows phrase) as [similarities|]; [|done].
      eapply sort_desc_head; [exact Ec|].
      rewrite <- (sort_desc_perm (zip _ _)), Ec. exact Hpair. }
    rewrite Hanswer. split.
    + destruct (consulted_tfidf self phrase dense_score) as [|[top_key top_score] rest];
        [by rewrite Hfinal|].
      destruct (Qlt_bool dense_score top_score); [|by rewrite Hfinal].
      destruct Hfinal as (mt & at' & Ek & ->). by exists mt, at'.
    + intros vibe_key score mapping_type attributes [= ->].
      destruct (consulted_tfidf self phrase dense_score) as [|[top_key top_score] rest]
        eqn:Ec.
      * subst dense_match. destruct Hwho as (_ & _ & _ & -> & _).
        split; [apply Qle_refl|]. by intros pair ?%elem_of_nil.
      * specialize (Htop _ _ eq_refl). simpl in Htop.
        destruct (Qlt_bool dense_score top_score) eqn:Elt.
        -- destruct Hfinal as (mt & at' & Ek & [= -> -> -> ->]).
           apply Qlt_bool_true in Elt. split; [by apply Qlt_le_weak | exact Htop].
        -- subst dense_match. destruct Hwho as (_ & _ & _ & -> & _).
           apply Qlt_bool_false in Elt. split; [apply Qle_refl|].
           intros pair Hpair. eapply Qle_trans; [by apply Htop | done].
  - intros vibe_key Hin Heq.
    destruct (List.find _ keys) as [first_key|] eqn:Efind.
    + destruct Hfirst as (mapping_type & attributes & Ek & Hanswer).
      apply find_some in Efind as [Hfin Hfeq]. apply String.eqb_eq in Hfeq.
      exists first_key, mapping_type, attributes.
      split; [by apply list_elem_of_In|]. split; [congruence|]. by split.
    + exfalso. apply list_elem_of_In in Hin.
      pose proof (find_none _ _ Efind vibe_key Hin) as Hno. simpl in Hno.
      apply String.eqb_neq in Hno. done.
Qed.

End matching_claims.

(** C2, the claim as worded fails on three counts: a vibe key with a
    trailing blank is not matched by itself at the exact tier (with no
    embedding model and no TF-IDF space it is not matched at all); the key
    ["boho"] is answered with the attributes of the earlier key ["Boho"];
    and the phrase [" boho"], equal to no key even up to case, gets the
    exact score 1. *)
Lemma C2_exact_tier_is_not_case_insensitive_equality :
  let kb : mappings :=
    [ ("occasion_mapping",
       [ ("beach ", {[ "occasion" := VStr "Vacation" ]});
         ("Boho", {[ "fit" := VStr "Flowy" ]});
         ("boho", {[ "fit" := VStr "Relaxed" ]}) ]) ] in
  let self := @__init__ no_backend kb (4 # 5) in
  let match_phrase := @_find_best_match_for_phrase no_backend self in
  ("beach " ∈ all_vibe_keys self ∧ match_phrase "beach " = Ret None)
  ∧ (key_to_mapping self !! "boho"
       = Some ("occasion_mapping", {[ "fit" := VStr "Relaxed" ]})
     ∧ match_phrase "boho"
       = Ret (Some ("Boho", 1%Q, "occasion_mapping", {[ "fit" := VStr "Flowy" ]})))
  ∧ (Forall (fun k => lower " boho" ≠ lower k) (all_vibe_keys self)
     ∧ match_phrase " boho"
       = Ret (Some ("Boho", 1%Q, "occasion_mapping", {[ "fit" := VStr "Flowy" ]}))).
Proof.
  vm_compute. repeat split.
  - apply list_elem_of_In. simpl. by left.
  - repeat constructor; discriminate.
Qed.

(** The dense maximum 0.3 is below 0.5, so TF-IDF is consulted and its top
    score 0.9 supersedes. *)
Example sparse_tier_supersedes :
  let kb : mappings :=
    [ ("occasion_mapping",
       [ ("beach day", {[ "occasion" := VStr "Vacation" ]});
         ("office hours", {[ "occasion" := VStr "Work" ]}) ]) ] in
  @_find_best_match_for_phrase lukewarm_backend
    (@__init__ lukewarm_backend kb (4 # 5)) "working hours"
  = Ret (Some ("office hours", 9 # 10, "occasion_mapping", {[ "occasion" := VStr "Work" ]})).
Proof. vm_compute. reflexivity. Qed.

(** *** The candidate loop *)

Section candidates.
Context `{ItemsOrder} `{Backend}.

Lemma find_best_match_total (self : SimilarityMatcher.t) (phrase : string) :
  kb_consistent self → ∃ answer, _find_best_match_for_phrase self phrase = Ret answer.
Proof.
  intros Hkb. unfold _find_best_match_for_phrase.
  pose proof (exact_tier_find self (strip (lower phrase)) (all_vibe_keys self) Hkb) as Hexact.
  destruct (List.find _ _) as [vibe_key|].
  - destruct Hexact as (mapping_type & attributes & _ & ->). simpl. by eexists.
  - rewrite Hexact. simpl.
    assert (Hdense : ∃ dm ds,
      (if nlp then dense_tier self phrase (all_vibe_keys self) None 0%Q
       else Ret (None, 0%Q)) = Ret (dm, ds)).
    { destruct nlp; [|by eexists _, _].
      destruct (dense_tier_max self phrase (all_vibe_keys self) None 0%Q Hkb)
        as (dm & ds & Hrun & _). by exists dm, ds. }
    destruct Hdense as (dm & ds & ->). simpl.
    destruct (sparse_tier_spec self phrase dm ds Hkb) as (answer & -> & _). by eexists.
Qed.

Lemma merge_attribute_dom (score : Q) (st : merge_state) (kv : string * pyval) :
  dom (merge_attribute score st kv).1.1 = {[ kv.1 ]} ∪ dom st.1.1.
Proof.
  destruct st as [[matched confidence] method], kv as [attr_key attr_value]. simpl.
  destruct (matched !! attr_key) as [old|] eqn:E; simpl.
  - assert (attr_key ∈ dom matched) by (apply elem_of_dom; by eexists).
    destruct (Qlt_bool _ _); simpl; rewrite ?dom_insert_L; set_solver.
  - by rewrite dom_insert_L.
Qed.

Lemma fold_merge_dom (score : Q) (items : list (string * pyval)) (st : merge_state) :
  dom (fold_left (merge_attribute score) items st).1.1
  = list_to_set items.*1 ∪ dom st.1.1.
Proof.
  revert st. induction items as [|kv items IH]; intros st; simpl.
  - set_solver.
  - rewrite IH, merge_attribute_dom. set_solver.
Qed.

(** Lowering the threshold can only add keys to [matched_attributes]. *)
Lemma match_candidates_mono (high low : SimilarityMatcher.t) (candidates : list string) :
  same_kb high low → kb_consistent low →
  (similarity_threshold low <= similarity_threshold high)%Q →
  ∀ found_high st_high found_low st_low,
    dom st_high.1.1 ⊆ dom st_low.1.1 →
    ∃ out_high out_low,
      match_candidates high candidates found_high st_high = Ret out_high
      ∧ match_candidates low candidates found_low st_low = Ret out_low
      ∧ dom out_high.2.1.1 ⊆ dom out_low.2.1.1.
Proof.
  intros Hsame Hkb Hthr.
  induction candidates as [|candidate candidates IH];
    intros found_high st_high found_low st_low Hdom; simpl.
  { by exists (found_high, st_high), (found_low, st_low). }
  destruct (skipped candidate); [by apply IH|].
  rewrite (find_best_match_same high low candidate Hsame).
  destruct (find_best_match_total low candidate Hkb) as (answer & ->). simpl.
  destruct answer as [[[[vibe_key score] mapping_type] attributes]|]; [|by apply IH].
  apply IH.
  destruct (Qge_bool score (similarity_threshold high)) eqn:Ehigh;
    destruct (Qge_bool score (similarity_threshold low)) eqn:Elow;
    rewrite ?fold_merge_dom; try set_solver.
  apply Qge_bool_true in Ehigh.
  assert (Qge_bool score (similarity_threshold low) = true) as Hlow.
  { apply Qge_bool_true. by eapply Qle_trans. }
  congruence.
Qed.

Lemma merge_attribute_justified (threshold : Q) (found : list rule_based_match)
    (score : Q) (st : merge_state) (kv : string * pyval) :
  (threshold <= score)%Q →
  (∃ m, m ∈ found ∧ similarity_score m = score) →
  confidences_justified threshold found st →
  confidences_justified threshold found (merge_attribute score st kv).
Proof.
  intros Hthr Hfound [Hdom Hconf].
  destruct st as [[matched confidence] method], kv as [attr_key attr_value].
  simpl in *.
  assert (Hinsert : confidences_justified threshold found
                      (<[attr_key := attr_value]> matched,
                       <[attr_key := score]> confidence, method)).
  { split; simpl.
    - rewrite !dom_insert_L. by rewrite Hdom.
    - intros key s. destruct (decide (key = attr_key)) as [->|Hne].
      + rewrite lookup_insert_eq. by intros [= <-].
      + rewrite lookup_insert_ne by done. apply Hconf. }
  destruct (matched !! attr_key) as [old|].
  - destruct (Qlt_bool _ _).
    + destruct Hinsert as [Hd Hc]. by split.
    + by split.
  - destruct Hinsert as [Hd Hc]. split; simpl; [by rewrite !dom_insert_L, Hdom|done].
Qed.

Lemma fold_merge_justified (threshold : Q) (found : list rule_based_match)
    (score : Q) (items : list (string * pyval)) (st : merge_state) :
  (threshold <= score)%Q →
  (∃ m, m ∈ found ∧ similarity_score m = score) →
  confidences_justified threshold found st →
  confidences_justified threshold found (fold_left (merge_attribute score) items st).
Proof.
  intros Hthr Hfound. revert st.
  induction items as [|kv items IH]; intros st Hst; simpl; [done|].
  apply IH. by apply merge_attribute_justified.
Qed.

Lemma confidences_justified_grow (threshold : Q) (found : list rule_based_match)
    (m : rule_based_match) (st : merge_state) :
  confidences_justified threshold found st →
  confidences_justified threshold (found ++ [m]) st.
Proof.
  intros [Hdom Hconf]. split; [done|]. intros key score Hkey.
  destruct (Hconf key score Hkey) as (Hthr & m' & Hm' & Hs).
  split; [done|]. exists m'. split; [|done]. apply elem_of_app. by left.
Qed.

Lemma match_candidates_justified (self : SimilarityMatcher.t) (candidates : list string) :
  kb_consistent self →
  ∀ found st,
    confidences_justified (similarity_threshold self) found st →
    ∃ found' st',
      match_candidates self candidates found st = Ret (found', st')
      ∧ confidences_justified (similarity_threshold self) found' st'.
Proof.
  intros Hkb. induction candidates as [|candidate candidates IH]; intros found st Hst; simpl.
  { by exists found, st. }
  destruct (skipped candidate); [by apply IH|].
  destruct (find_best_match_total self candidate Hkb) as (answer & ->). simpl.
  destruct answer as [[[[vibe_key score] mapping_type] attributes]|]; [|by apply IH].
  apply IH.
  destruct (Qge_bool score (similarity_threshold self)) eqn:Ethr.
  - apply Qge_bool_true in Ethr. apply fold_merge_justified; [done| |].
    + eexists. split; [apply elem_of_app; right; by apply list_elem_of_singleton|done].
    + by apply confidences_justified_grow.
  - by apply confidences_justified_grow.
Qed.

End candidates.

Section threshold_claims.
Context `{ItemsOrder} `{Backend}.

(** C5.  For a fixed knowledge base and fixed candidates, every attribute
    key accepted by [find_best_matches] at a threshold is accepted at any
    lower threshold; in particular the number of accepted attributes does
    not grow when the threshold is raised. *)
Theorem C5_threshold_monotone (vm : mappings) (extracted_phrases : list string)
    (individual_attributes : dict) (low high : Q) :
  (low <= high)%Q →
  ∃ at_low at_high,
    find_best_matches (__init__ vm low) extracted_phrases individual_attributes = Ret at_low
    ∧ find_best_matches (__init__ vm high) extracted_phrases individual_attributes
      = Ret at_high
    ∧ dom (matched_attributes at_high) ⊆ dom (matched_attributes at_low)
    ∧ (size (matched_attributes at_high) ≤ size (matched_attributes at_low))%nat.
Proof.
  intros Hle. unfold find_best_matches.
  destruct (match_candidates_mono (__init__ vm high) (__init__ vm low)
              (all_candidates extracted_phrases individual_attributes)
              (init_same_kb vm low high) (init_consistent vm low)) with
    (found_high := @nil rule_based_match) (st_high := ((∅, ∅, ∅) : merge_state))
    (found_low := @nil rule_based_match) (st_low := ((∅, ∅, ∅) : merge_state))
    as (out_high & out_low & Hhigh & Hlow & Hdom).
  { by rewrite !init_threshold. }
  { done. }
  rewrite Hhigh, Hlow.
  destruct out_high as [found_high [[matched_high conf_high] method_high]].
  destruct out_low as [found_low [[matched_low conf_low] method_low]].
  simpl in *. eexists _, _. split; [done|]. split; [done|]. simpl.
  split; [done|]. rewrite <- !size_dom. by apply subseteq_size.
Qed.

End threshold_claims.

Lemma C5_threshold_monotone_witness :
  let kb : mappings :=
    [ ("occasion_mapping",
       [ ("beach day", {[ "occasion" := VStr "Vacation" ]});
         ("office hours", {[ "occasion" := VStr "Work"; "fit" := VStr "Tailored" ]}) ]) ] in
  (4 # 5 <= 19 # 20)%Q
  ∧ ∃ at_low at_high,
      @find_best_matches traversal_order lukewarm_backend
        (@__init__ lukewarm_backend kb (4 # 5)) ["working hours"] ∅ = Ret at_low
      ∧ @find_best_matches traversal_order lukewarm_backend
          (@__init__ lukewarm_backend kb (19 # 20)) ["working hours"] ∅ = Ret at_high
      ∧ dom (matched_attributes at_high) ⊆ dom (matched_attributes at_low)
      ∧ (size (matched_attributes at_high) ≤ size (matched_attributes at_low))%nat.
Proof.
  intros kb.
  assert (Hle : (4 # 5 <= 19 # 20)%Q) by (unfold Qle; simpl; lia).
  split; [exact Hle|].
  exact (@C5_threshold_monotone traversal_order lukewarm_backend kb ["working hours"] ∅
           (4 # 5) (19 # 20) Hle).
Defined.

(** ** Invocation of the inference oracle *)

Section oracle_claims.
Context `{ItemsOrder} `{Backend} `{Oracle} `{Collaborators}.

Lemma no_confidence_no_attribute (threshold : Q) (found : list rule_based_match)
    (st : merge_state) :
  confidences_justified threshold found st →
  existsb (fun '(_, score) => Qge_bool score threshold) (dict_items st.1.2) = false →
  st.1.1 = ∅.
Proof.
  intros [Hdom Hconf] Hnone.
  assert (Hempty : dict_items st.1.2 = []).
  { destruct (dict_items st.1.2) as [|[key score] items] eqn:E; [done|].
    assert (Hin : st.1.2 !! key = Some score).
    { apply elem_of_dict_items. rewrite E. by left. }
    destruct (Hconf key score Hin) as [Hthr _]. apply Qge_bool_true in Hthr.
    simpl in Hnone. by rewrite Hthr in Hnone. }
  apply dict_items_nil in Hempty. apply dom_empty_iff_L.
  by rewrite <- Hdom, Hempty, dom_empty_L.
Qed.

Lemma no_match_no_confidence (threshold : Q) (found : list rule_based_match)
    (st : merge_state) :
  confidences_justified threshold found st →
  Forall (fun m => (similarity_score m < threshold)%Q) found →
  existsb (fun '(_, score) => Qge_bool score threshold) (dict_items st.1.2) = false.
Proof.
  intros [Hdom Hconf] Hall.
  apply not_true_iff_false. intros Hsome.
  apply existsb_exists in Hsome as ([key score] & Hin & _).
  apply list_elem_of_In, elem_of_dict_items in Hin.
  destruct (Hconf key score Hin) as (Hthr & m & Hm & Hs).
  rewrite Forall_forall in Hall. specialize (Hall m Hm). rewrite Hs in Hall.
  by apply Qlt_not_le in Hall.
Qed.

(** C6.  In a turn the oracle is invoked exactly when no recorded match has
    a score at or above the threshold or fewer than three attributes were
    resolved by rule-based matching; otherwise the step is skipped and the
    fusion receives an empty dictionary from it. *)
Theorem C6_oracle_invocation (vm : mappings) (threshold : Q) (user_query : string)
    (user_preferences : option dict) :
  let self := __init__ vm threshold in
  let extracted_attributes := (analyze_query user_query).1 in
  let key_phrases := (analyze_query user_query).2 in
  ∃ similarity events reply,
    find_best_matches self key_phrases extracted_attributes = Ret similarity
    ∧ get_recommendations self user_query user_preferences = Ret (events, reply)
    ∧ let no_match_at_threshold :=
        Forall (fun m => (similarity_score m < threshold)%Q)
               (rule_based_matches (match_details similarity)) in
      let few_attributes := (size (matched_attributes similarity) < 3)%nat in
      ((∃ existing_attributes, OracleCall user_query existing_attributes ∈ events)
       ↔ no_match_at_threshold ∨ few_attributes)
      ∧ (¬ (no_match_at_threshold ∨ few_attributes) →
         final_attributes reply
         = _merge_all_attributes extracted_attributes (matched_attributes similarity)
             (Some ∅) (default ∅ user_preferences)).
Proof.
  intros self extracted_attributes key_phrases.
  pose proof (init_consistent vm threshold) as Hkb. fold self in Hkb.
  destruct (match_candidates_justified self
              (all_candidates key_phrases extracted_attributes) Hkb []
              ((∅, ∅, ∅) : merge_state)) as (found & st & Hrun & Hinv).
  { split; [done|]. intros key score Hkey. simpl in Hkey. by rewrite lookup_empty in Hkey. }
  unfold self in Hinv. rewrite init_threshold in Hinv. fold self in Hinv.
  destruct st as [[matched confidence] method].
  set (similarity :=
         {| matched_attributes := matched;
            match_details :=
              {| rule_based_matches := found;
                 similarity_scores := ∅;
                 confidence_scores := confidence;
                 method_used := method |};
            has_high_confidence_matches :=
              existsb (fun '(_, score) => Qge_bool score (similarity_threshold self))
                      (dict_items confidence) |}).
  assert (Hfind : find_best_matches self key_phrases extracted_attributes = Ret similarity).
  { unfold find_best_matches. by rewrite Hrun. }
  assert (Hcond :
    negb (has_high_confidence_matches similarity)
    || (size (matched_attributes similarity) <? 3)%nat = true
    ↔ Forall (fun m => (similarity_score m < threshold)%Q) found
      ∨ (size matched < 3)%nat).
  { simpl. unfold self at 1. rewrite init_threshold.
    rewrite orb_true_iff, negb_true_iff, Nat.ltb_lt. split.
    - intros [Hnone|Hfew]; [|by right]. right.
      pose proof (no_confidence_no_attribute threshold found (matched, confidence, method)
                    Hinv Hnone) as Hmatched.
      simpl in Hmatched. rewrite Hmatched, map_size_empty. lia.
    - intros [Hall|Hfew]; [|by right]. left.
      by apply (no_match_no_confidence threshold found (matched, confidence, method)). }
  unfold get_recommendations.
  destruct (analyze_query user_query) as [extracted phrases] eqn:Eanalyze.
  simpl in extracted_attributes, key_phrases.
  subst extracted_attributes key_phrases.
  rewrite Hfind. simpl mbind. unfold gpt_step.
  destruct (negb (has_high_confidence_matches similarity)
            || (size (matched_attributes similarity) <? 3)%nat) eqn:Egate.
  - destruct (respond user_query _) as [catalog_events reply] eqn:Erespond.
    exists similarity, ([OracleCall user_query (matched_attributes similarity ∪ extracted)]
                          ++ catalog_events)%list, reply.
    split; [done|]. split; [done|]. simpl. split.
    + split; [intros _; by apply Hcond|].
      intros _. eexists. by left.
    + intros Hnot. exfalso. apply Hnot. by apply Hcond.
  - destruct (respond user_query _) as [catalog_events reply] eqn:Erespond.
    exists similarity, catalog_events, reply.
    split; [done|]. split; [done|]. simpl. split.
    + split.
      * intros [existing Hin]. exfalso.
        unfold respond in Erespond.
        destruct (_check_missing_attributes _); injection Erespond as <- <-.
        -- apply list_elem_of_singleton in Hin. discriminate.
        -- by apply elem_of_nil in Hin.
      * intros Hyes. apply Hcond in Hyes. congruence.
    + intros _. unfold respond in Erespond.
      destruct (_check_missing_attributes _); by injection Erespond as <- <-.
Qed.

End oracle_claims.


(** * Further properties of the code *)

(** ** The knowledge base as prepared by the matcher *)

Section knowledge_base.
Context `{ItemsOrder} `{Backend}.

Lemma inserts_to_map {A} (l : list (string * A)) (m : gmap string A) :
  fold_left (fun m '(k, v) => <[k := v]> m) l m = list_to_map (reverse l) ∪ m.
Proof.
  revert m. induction l as [|[k v] l IH]; intros m; simpl.
  - by rewrite (left_id_L ∅ (∪)).
  - rewrite IH, reverse_cons, list_to_map_app. simpl.
    rewrite <- (assoc_L (∪)). f_equal.
    by rewrite insert_union_singleton_l, insert_empty.
Qed.

Lemma prepare_inner_spec (mapping_type : string) (mapping_data : list (string * dict))
    (keys : list string) (k2m : gmap string (string * dict)) :
  fold_left (fun '(keys, k2m) '(vibe_key, attributes) =>
               ((keys ++ [vibe_key])%list,
                <[vibe_key := (mapping_type, attributes)]> k2m))
            mapping_data (keys, k2m)
  = ((keys ++ mapping_data.*1)%list,
     fold_left (fun m '(k, v) => <[k := v]> m)
       ((fun '(vibe_key, attributes) => (vibe_key, (mapping_type, attributes)))
          <$> mapping_data) k2m).
Proof.
  revert keys k2m. induction mapping_data as [|[vibe_key attributes] rest IH];
    intros keys k2m; simpl.
  - by rewrite app_nil_r.
  - rewrite IH. by rewrite <- app_assoc.
Qed.

Lemma prepare_outer_spec (vm : mappings) (keys : list string)
    (k2m : gmap string (string * dict)) :
  fold_left (fun acc '(mapping_type, mapping_data) =>
    fold_left (fun '(keys, k2m) '(vibe_key, attributes) =>
                 ((keys ++ [vibe_key])%list,
                  <[vibe_key := (mapping_type, attributes)]> k2m))
              (mapping_data : list (string * dict)) acc)
    vm (keys, k2m)
  = ((keys ++ (kb_entries vm).*1)%list,
     fold_left (fun m '(k, v) => <[k := v]> m) (kb_entries vm) k2m).
Proof.
  revert keys k2m. induction vm as [|[mapping_type mapping_data] rest IH];
    intros keys k2m; simpl.
  - by rewrite app_nil_r.
  - rewrite prepare_inner_spec, IH. unfold kb_entries. simpl.
    rewrite fmap_app, fold_left_app, <- app_assoc. f_equal. f_equal. f_equal.
    rewrite <- list_fmap_compose. apply list_fmap_ext. by intros i [k a] _.
Qed.

Lemma init_fields (vm : mappings) (threshold : Q) :
  all_vibe_keys (__init__ vm threshold) = (kb_entries vm).*1
  ∧ key_to_mapping (__init__ vm threshold) = list_to_map (reverse (kb_entries vm))
  ∧ tfidf_matrix (__init__ vm threshold)
    = match (kb_entries vm).*1 with
      | [] => None
      | keys => if tfidf_fit_transform keys then Some keys else None
      end.
Proof.
  unfold __init__, _prepare_vibe_vectors.
  rewrite (prepare_outer_spec vm [] ∅). simpl.
  rewrite inserts_to_map, (right_id_L ∅ (∪)).
  split; [done|]. split; [done|]. by destruct ((kb_entries vm).*1).
Qed.

(** X1.  [all_vibe_keys] lists the vibe keys of all tables in load order,
    duplicates included, while [key_to_mapping] has exactly these keys and
    holds, for a key bound several times, the binding loaded last. *)
Theorem knowledge_base_last_binding_wins (vm : mappings) (threshold : Q) :
  let self := __init__ vm threshold in
  all_vibe_keys self = (kb_entries vm).*1
  ∧ dom (key_to_mapping self) = list_to_set (all_vibe_keys self)
  ∧ ∀ earlier vibe_key entry later,
      kb_entries vm = (earlier ++ (vibe_key, entry) :: later)%list →
      vibe_key ∉ later.*1 →
      key_to_mapping self !! vibe_key = Some entry.
Proof.
  intros self. destruct (init_fields vm threshold) as (Hkeys & Hmap & _).
  fold self in Hkeys, Hmap. split; [done|]. split.
  - rewrite Hkeys, Hmap. rewrite dom_list_to_map_L.
    apply set_eq. intros k. rewrite !elem_of_list_to_set, fmap_reverse.
    by rewrite elem_of_reverse.
  - intros earlier vibe_key entry later Hentries Hlast.
    rewrite Hmap, Hentries, reverse_app, reverse_cons, <- app_assoc, list_to_map_app.
    rewrite lookup_union_r.
    + simpl. by rewrite lookup_insert_eq.
    + apply not_elem_of_list_to_map_1. by rewrite fmap_reverse, elem_of_reverse.
Qed.

End knowledge_base.

(** ** What [find_best_matches] returns *)

Section accepted_attributes.
Context `{ItemsOrder} `{Backend}.

Lemma find_nothing (self : SimilarityMatcher.t) (phrase : string) :
  all_vibe_keys self = [] → tfidf_matrix self = None →
  _find_best_match_for_phrase self phrase = Ret None.
Proof.
  intros Hkeys Hmatrix.
  unfold _find_best_match_for_phrase, sparse_tier, calculate_tfidf_similarity.
  rewrite Hkeys, Hmatrix. simpl. by destruct nlp.
Qed.

Lemma match_candidates_nothing (self : SimilarityMatcher.t) (candidates : list string)
    (found : list rule_based_match) (st : merge_state) :
  all_vibe_keys self = [] → tfidf_matrix self = None →
  match_candidates self candidates found st = Ret (found, st).
Proof.
  intros Hkeys Hmatrix. induction candidates as [|candidate candidates IH]; simpl; [done|].
  destruct (skipped candidate); [done|].
  by rewrite (find_nothing self candidate Hkeys Hmatrix).
Qed.

(** X2.  With a knowledge base that has no vibe key (no table, or only
    empty tables) the matcher answers [None] to every phrase, and
    [find_best_matches] returns no attribute, no match and no high
    confidence, whatever the back ends are. *)
Theorem empty_knowledge_base_matches_nothing (vm : mappings) (threshold : Q)
    (phrase : string) (extracted_phrases : list string) (individual_attributes : dict) :
  Forall (fun table => table.2 = []) vm →
  _find_best_match_for_phrase (__init__ vm threshold) phrase = Ret None
  ∧ find_best_matches (__init__ vm threshold) extracted_phrases individual_attributes
    = Ret {| matched_attributes := ∅;
             match_details := {| rule_based_matches := [];
                                 similarity_scores := ∅;
                                 confidence_scores := ∅;
                                 method_used := ∅ |};
             has_high_confidence_matches := false |}.
Proof.
  intros Hempty.
  assert (Hentries : kb_entries vm = []).
  { unfold kb_entries. induction Hempty as [|[mapping_type mapping_data] rest Hd _ IH];
      [done|]. simpl in Hd. subst mapping_data. by rewrite bind_cons, IH. }
  destruct (init_fields vm threshold) as (Hkeys & _ & Hmatrix).
  rewrite Hentries in Hkeys, Hmatrix. simpl in Hkeys, Hmatrix.
  split; [by apply find_nothing|].
  unfold find_best_matches.
  rewrite (match_candidates_nothing _ _ _ _ Hkeys Hmatrix). simpl.
  assert (Hitems : dict_items (∅ : gmap string Q) = []) by by apply dict_items_nil.
  by rewrite Hitems.
Qed.

Lemma merge_attribute_accepted (threshold : Q) (found : list rule_based_match)
    (m0 : rule_based_match) (st : merge_state) (key : string) (value : pyval) :
  m0 ∈ found → (threshold <= similarity_score m0)%Q →
  attributes m0 !! key = Some value →
  accepted_state threshold found st →
  accepted_state threshold found (merge_attribute (similarity_score m0) st (key, value)).
Proof.
  intros Hin Hthr Hvalue (Hconf & Hmeth & Hnames & Hvalues).
  destruct st as [[matched confidence] method]. simpl in *.
  assert (Hnew : ∀ k v, <[key := value]> matched !! k = Some v →
            ∃ m, m ∈ found ∧ attributes m !! k = Some v
                 ∧ <[key := similarity_score m0]> confidence !! k
                   = Some (similarity_score m)
                 ∧ (threshold <= similarity_score m)%Q).
  { intros k v. destruct (decide (k = key)) as [->|Hne].
    - rewrite !lookup_insert_eq. intros [= <-]. by exists m0.
    - rewrite !lookup_insert_ne by done. apply Hvalues. }
  destruct (matched !! key) as [old|] eqn:Eold.
  - assert (Hdom : key ∈ dom matched) by (apply elem_of_dom; by eexists).
    destruct (Qlt_bool _ _); [|done].
    repeat split; simpl; try done.
    + rewrite !dom_insert_L. by rewrite Hconf.
    + rewrite dom_insert_L, Hmeth. set_solver.
  - repeat split; simpl; try done.
    + rewrite !dom_insert_L. by rewrite Hconf.
    + rewrite !dom_insert_L. by rewrite Hmeth.
    + intros k name. destruct (decide (k = key)) as [->|Hne].
      * rewrite lookup_insert_eq. by intros [= <-].
      * rewrite lookup_insert_ne by done. apply Hnames.
Qed.

Lemma merge_attribute_confidence_grows (score : Q) (st : merge_state)
    (kv : string * pyval) (key : string) (old : Q) :
  dom st.1.2 = dom st.1.1 →
  st.1.2 !! key = Some old →
  ∃ new, (merge_attribute score st kv).1.2 !! key = Some new ∧ (old <= new)%Q.
Proof.
  destruct st as [[matched confidence] method], kv as [attr_key attr_value]. simpl.
  intros Hdom Hold.
  destruct (decide (key = attr_key)) as [->|Hne].
  - destruct (matched !! attr_key) as [v|] eqn:Ev.
    + rewrite Hold. simpl. destruct (Qlt_bool old score) eqn:E; simpl.
      * rewrite lookup_insert_eq. eexists. split; [done|].
        apply Qlt_le_weak. by apply Qlt_bool_true.
      * exists old. split; [done | apply Qle_refl].
    + exfalso. apply not_elem_of_dom in Ev. apply Ev. rewrite <- Hdom.
      apply elem_of_dom. by eexists.
  - exists old. split; [|apply Qle_refl].
    destruct (matched !! attr_key); [destruct (Qlt_bool _ _)|]; simpl;
      rewrite ?lookup_insert_ne by done; done.
Qed.

Lemma merge_attribute_confidence_floor (score : Q) (st : merge_state)
    (key : string) (value : pyval) :
  dom st.1.2 = dom st.1.1 →
  ∃ new, (merge_attribute score st (key, value)).1.2 !! key = Some new
         ∧ (score <= new)%Q.
Proof.
  destruct st as [[matched confidence] method]. simpl. intros Hdom.
  destruct (matched !! key) as [v|] eqn:Ev.
  - assert (Hc : is_Some (confidence !! key)).
    { apply elem_of_dom. rewrite Hdom. apply elem_of_dom. by eexists. }
    destruct Hc as [old Hold]. rewrite Hold. simpl.
    destruct (Qlt_bool old score) eqn:E; simpl.
    + rewrite lookup_insert_eq. eexists. split; [done | apply Qle_refl].
    + exists old. split; [done|]. by apply Qlt_bool_false.
  - simpl. rewrite lookup_insert_eq. eexists. split; [done | apply Qle_refl].
Qed.

Lemma fold_merge_accepted (threshold : Q) (found : list rule_based_match)
    (m0 : rule_based_match) (items : list (string * pyval)) (st : merge_state) :
  m0 ∈ found → (threshold <= similarity_score m0)%Q →
  (∀ key value, (key, value) ∈ items → attributes m0 !! key = Some value) →
  accepted_state threshold found st →
  let st' := fold_left (merge_attribute (similarity_score m0)) items st in
  accepted_state threshold found st'
  ∧ (∀ key old, st.1.2 !! key = Some old →
       ∃ new, st'.1.2 !! key = Some new ∧ (old <= new)%Q)
  ∧ (∀ key value, (key, value) ∈ items →
       ∃ new, st'.1.2 !! key = Some new ∧ (similarity_score m0 <= new)%Q).
Proof.
  intros Hin Hthr. revert st.
  induction items as [|[k v] items IH]; intros st Hitems Hst; simpl.
  { split; [done|]. split.
    - intros key old Hold. exists old. split; [done | apply Qle_refl].
    - intros key value Hkv. by apply elem_of_nil in Hkv. }
  assert (Hkv : attributes m0 !! k = Some v) by (apply Hitems; by left).
  pose proof (merge_attribute_accepted threshold found m0 st k v Hin Hthr Hkv Hst) as Hst1.
  destruct (IH (merge_attribute (similarity_score m0) st (k, v))) as (Hacc & Hgrow & Hfloor);
    [intros key value Hmem; apply Hitems; by right | done |].
  destruct Hst as (Hdom & _).
  split; [done|]. split.
  - intros key old Hold.
    destruct (merge_attribute_confidence_grows (similarity_score m0) st (k, v) key old
                Hdom Hold) as (mid & Hmid & Hle1).
    destruct (Hgrow key mid Hmid) as (new & Hnew & Hle2).
    exists new. split; [done|]. by eapply Qle_trans.
  - intros key value Hmem. apply elem_of_cons in Hmem as [[= -> ->]|Hmem].
    + destruct (merge_attribute_confidence_floor (similarity_score m0) st k v Hdom)
        as (mid & Hmid & Hle1).
      destruct (Hgrow k mid Hmid) as (new & Hnew & Hle2).
      exists new. split; [done|]. by eapply Qle_trans.
    + by eapply Hfloor.
Qed.

Lemma accepted_state_grow (threshold : Q) (found : list rule_based_match)
    (m : rule_based_match) (st : merge_state) :
  accepted_state threshold found st → accepted_state threshold (found ++ [m]) st.
Proof.
  intros (Hconf & Hmeth & Hnames & Hvalues). repeat split; try done.
  intros key value Hkey. destruct (Hvalues key value Hkey) as (m' & Hm' & Hrest).
  exists m'. split; [|done]. apply elem_of_app. by left.
Qed.

Lemma omap_cons_eq {A B} (f : A → option B) (x : A) (l : list A) :
  omap f (x :: l) = match f x with Some y => y :: omap f l | None => omap f l end.
Proof. done. Qed.

Lemma match_candidates_accepted (self : SimilarityMatcher.t) (candidates : list string) :
  kb_consistent self →
  ∀ found st,
    accepted_state (similarity_threshold self) found st →
    covers (similarity_threshold self) found st →
    ∃ st',
      match_candidates self candidates found st
      = Ret ((found ++ omap (recorded self) candidates)%list, st')
      ∧ accepted_state (similarity_threshold self)
          (found ++ omap (recorded self) candidates) st'
      ∧ covers (similarity_threshold self) (found ++ omap (recorded self) candidates) st'.
Proof.
  intros Hkb. induction candidates as [|candidate candidates IH];
    intros found st Hacc Hcov.
  { simpl. rewrite app_nil_r. by exists st. }
  rewrite omap_cons_eq. cbn [match_candidates].
  destruct (skipped candidate) eqn:Eskip.
  { assert (recorded self candidate = None) as ->
      by (unfold recorded; by rewrite Eskip).
    by apply IH. }
  destruct (find_best_match_total self candidate Hkb) as (answer & Hanswer).
  rewrite Hanswer. simpl mbind.
  destruct answer as [[[[vibe_key score] mapping_type] attrs]|].
  2:{ assert (recorded self candidate = None) as ->
        by (unfold recorded; by rewrite Eskip, Hanswer).
      by apply IH. }
  set (m0 := {| input_phrase := candidate; matched_vibe := vibe_key;
                similarity_score := score; mapping_type := mapping_type;
                attributes := attrs |}).
  assert (recorded self candidate = Some m0) as ->
    by (unfold recorded; by rewrite Eskip, Hanswer).
  rewrite (cons_middle m0 found (omap (recorded self) candidates)), (assoc_L (++)).
  assert (Hm0 : m0 ∈ (found ++ [m0])%list).
  { apply elem_of_app. right. by apply list_elem_of_singleton. }
  destruct (Qge_bool score (similarity_threshold self)) eqn:Ethr.
  - apply Qge_bool_true in Ethr.
    destruct (fold_merge_accepted (similarity_threshold self) (found ++ [m0]) m0
                (dict_items attrs) st Hm0 Ethr) as (Hacc' & Hgrow & Hfloor).
    { intros key value Hkv. by apply elem_of_dict_items. }
    { by apply accepted_state_grow. }
    apply IH; [done|].
    intros m Hm Hmthr key Hkey. apply elem_of_app in Hm as [Hm|Hm].
    + destruct (Hcov m Hm Hmthr key Hkey) as (old & Hold & Hle).
      destruct (Hgrow key old Hold) as (new & Hnew & Hle').
      exists new. split; [done|]. by eapply Qle_trans.
    + apply list_elem_of_singleton in Hm as ->. destruct Hkey as [value Hvalue].
      apply (Hfloor key value). by apply elem_of_dict_items.
  - apply IH; [by apply accepted_state_grow|].
    intros m Hm Hmthr key Hkey. apply elem_of_app in Hm as [Hm|Hm].
    + by apply Hcov.
    + apply list_elem_of_singleton in Hm as ->. simpl in Hmthr.
      apply Qge_bool_true in Hmthr. congruence.
Qed.

Lemma find_best_matches_run (vm : mappings) (threshold : Q)
    (extracted_phrases : list string) (individual_attributes : dict) :
  let self := __init__ vm threshold in
  let found := omap (recorded self) (all_candidates extracted_phrases individual_attributes) in
  ∃ matched confidence method,
    find_best_matches self extracted_phrases individual_attributes
    = Ret {| matched_attributes := matched;
             match_details :=
               {| rule_based_matches := found;
                  similarity_scores := ∅;
                  confidence_scores := confidence;
                  method_used := method |};
             has_high_confidence_matches :=
               existsb (fun '(_, score) => Qge_bool score threshold)
                       (dict_items confidence) |}
    ∧ accepted_state threshold found (matched, confidence, method)
    ∧ covers threshold found (matched, confidence, method).
Proof.
  intros self found.
  destruct (match_candidates_accepted self
              (all_candidates extracted_phrases individual_attributes)
              (init_consistent vm threshold) [] ((∅, ∅, ∅) : merge_state))
    as ([[matched confidence] method] & Hrun & Hacc & Hcov).
  { do 2 (split; [done|]). split; intros key x Hkey; simpl in Hkey;
      by rewrite lookup_empty in Hkey. }
  { intros m Hm. by apply elem_of_nil in Hm. }
  simpl in Hrun, Hacc, Hcov. unfold self in Hacc, Hcov. rewrite init_threshold in Hacc, Hcov.
  exists matched, confidence, method. split; [|done].
  unfold find_best_matches. fold self. rewrite Hrun. simpl.
  unfold self. by rewrite init_threshold.
Qed.


(** X4.  In the result of [find_best_matches] the three dictionaries
    [matched_attributes], [confidence_scores] and [method_used] have the same
    keys, every method is ['rule_based_similarity'] and every confidence is
    at or above the threshold. *)
Theorem accepted_attributes_aligned (vm : mappings) (threshold : Q)
    (extracted_phrases : list string) (individual_attributes : dict) :
  ∃ r, find_best_matches (__init__ vm threshold) extracted_phrases individual_attributes
       = Ret r
       ∧ dom (confidence_scores (match_details r)) = dom (matched_attributes r)
       ∧ dom (method_used (match_details r)) = dom (matched_attributes r)
       ∧ (∀ key name, method_used (match_details r) !! key = Some name →
            name = "rule_based_similarity")
       ∧ ∀ key score, confidence_scores (match_details r) !! key = Some score →
           (threshold <= score)%Q.
Proof.
  destruct (find_best_matches_run vm threshold extracted_phrases individual_attributes)
    as (matched & confidence & method & Hrun & (Hconf & Hmeth & Hnames & Hvalues) & _).
  eexists. split; [exact Hrun|]. simpl in *. do 3 (split; [done|]).
  intros key score Hscore.
  assert (Hkey : is_Some (matched !! key)).
  { apply elem_of_dom. rewrite <- Hconf. apply elem_of_dom. by eexists. }
  destruct Hkey as [value Hvalue].
  destruct (Hvalues key value Hvalue) as (m & _ & _ & Hm & Hthr).
  rewrite Hm in Hscore. by injection Hscore as <-.
Qed.

(** X5.  The keys of [matched_attributes] are exactly the attribute keys of
    the recorded matches whose score is at or above the threshold. *)
Theorem accepted_keys (vm : mappings) (threshold : Q)
    (extracted_phrases : list string) (individual_attributes : dict) :
  ∃ r, find_best_matches (__init__ vm threshold) extracted_phrases individual_attributes
       = Ret r
       ∧ ∀ key, key ∈ dom (matched_attributes r)
           ↔ ∃ m, m ∈ rule_based_matches (match_details r)
                  ∧ (threshold <= similarity_score m)%Q
                  ∧ key ∈ dom (attributes m).
Proof.
  destruct (find_best_matches_run vm threshold extracted_phrases individual_attributes)
    as (matched & confidence & method & Hrun & (Hconf & _ & _ & Hvalues) & Hcov).
  eexists. split; [exact Hrun|]. simpl in *. intros key. split.
  - intros [value Hvalue]%elem_of_dom.
    destruct (Hvalues key value Hvalue) as (m & Hm & Hattr & _ & Hthr).
    exists m. do 2 (split; [done|]). apply elem_of_dom. by eexists.
  - intros (m & Hm & Hthr & Hkey%elem_of_dom).
    destruct (Hcov m Hm Hthr key Hkey) as (score & Hscore & _).
    rewrite <- Hconf. apply elem_of_dom. by eexists.
Qed.

(** X7.  [has_high_confidence_matches] is [True] exactly when
    [matched_attributes] is not empty. *)
Theorem high_confidence_iff_some_attribute (vm : mappings) (threshold : Q)
    (extracted_phrases : list string) (individual_attributes : dict) :
  ∃ r, find_best_matches (__init__ vm threshold) extracted_phrases individual_attributes
       = Ret r
       ∧ (has_high_confidence_matches r = true ↔ matched_attributes r ≠ ∅).
Proof.
  destruct (find_best_matches_run vm threshold extracted_phrases individual_attributes)
    as (matched & confidence & method & Hrun & (Hconf & _ & _ & Hvalues) & _).
  eexists. split; [exact Hrun|]. simpl in *. split.
  - intros ([key score] & Hin & _)%existsb_exists ->.
    apply list_elem_of_In, elem_of_dict_items in Hin.
    assert (Hkey : key ∈ dom confidence) by (apply elem_of_dom; by eexists).
    rewrite Hconf, dom_empty_L in Hkey. by apply elem_of_empty in Hkey.
  - intros Hne. apply map_choose in Hne as (key & value & Hvalue).
    destruct (Hvalues key value Hvalue) as (m & _ & _ & Hscore & Hthr).
    apply existsb_exists. exists (key, similarity_score m). split.
    + apply list_elem_of_In. by apply elem_of_dict_items.
    + by apply Qge_bool_true.
Qed.

End accepted_attributes.

Lemma empty_knowledge_base_matches_nothing_witness :
  let vm : mappings := [ ("fit_mapping", []); ("color_mapping", []) ] in
  Forall (fun table => table.2 = []) vm
  ∧ @_find_best_match_for_phrase lukewarm_backend
      (@__init__ lukewarm_backend vm (4 # 5)) "summer brunch" = Ret None
  ∧ @find_best_matches traversal_order lukewarm_backend
      (@__init__ lukewarm_backend vm (4 # 5)) ["summer brunch"] ∅
    = Ret {| matched_attributes := ∅;
             match_details := {| rule_based_matches := [];
                                 similarity_scores := ∅;
                                 confidence_scores := ∅;
                                 method_used := ∅ |};
             has_high_confidence_matches := false |}.
Proof.
  intros vm.
  assert (Hempty : Forall (fun table : string * list (string * dict) => table.2 = []) vm)
    by (repeat constructor).
  split; [exact Hempty|].
  exact (@empty_knowledge_base_matches_nothing traversal_order lukewarm_backend vm (4 # 5)
           "summer brunch" ["summer brunch"] ∅ Hempty).
Defined.

(** ** A whole turn *)

Section turn.
Context `{ItemsOrder} `{Backend} `{Oracle} `{Collaborators}.

(** The steps of a turn, with the matcher's result named. *)
Lemma turn_run (vm : mappings) (threshold : Q) (user_query : string)
    (user_preferences : option dict) :
  let self := __init__ vm threshold in
  let extracted_attributes := (analyze_query user_query).1 in
  let key_phrases := (analyze_query user_query).2 in
  ∃ similarity,
    find_best_matches self key_phrases extracted_attributes = Ret similarity
    ∧ (has_high_confidence_matches similarity = true ↔ matched_attributes similarity ≠ ∅)
    ∧ let step := gpt_step self user_query extracted_attributes similarity in
      let final :=
        _merge_all_attributes extracted_attributes (matched_attributes similarity)
          step.2 (default ∅ user_preferences) in
      get_recommendations self user_query user_preferences
      = Ret ((step.1 ++ (respond user_query final).1)%list, (respond user_query final).2).
Proof.
  intros self extracted_attributes key_phrases.
  destruct (find_best_matches_run vm threshold key_phrases extracted_attributes)
    as (matched & confidence & method & Hrun & (Hconf & _ & _ & Hvalues) & _).
  eexists. split; [exact Hrun|]. split.
  - simpl in *. split.
    + intros ([key score] & Hin & _)%existsb_exists ->.
      apply list_elem_of_In, elem_of_dict_items in Hin.
      assert (Hkey : key ∈ dom confidence) by (apply elem_of_dom; by eexists).
      rewrite Hconf, dom_empty_L in Hkey. by apply elem_of_empty in Hkey.
    + intros Hne. apply map_choose in Hne as (key & value & Hvalue).
      destruct (Hvalues key value Hvalue) as (m & _ & _ & Hscore & Hthr).
      apply existsb_exists. exists (key, similarity_score m). split.
      * apply list_elem_of_In. by apply elem_of_dict_items.
      * by apply Qge_bool_true.
  - unfold get_recommendations. subst extracted_attributes key_phrases.
    revert Hrun. destruct (analyze_query user_query) as [extracted phrases].
    simpl fst. simpl snd. fold self. intros ->. simpl mbind.
    destruct (gpt_step _ _ _ _) as [oracle_events gpt_attributes].
    by destruct (respond _ _) as [catalog_events reply].
Qed.

Lemma questions_for_missing (attributes : dict) :
  _check_missing_attributes attributes ≠ [] →
  ∃ first others,
    _generate_follow_up_questions (_check_missing_attributes attributes) = first :: others.
Proof.
  rewrite check_missing_closed.
  destruct (present_and_truthy attributes "category");
    destruct (present_and_truthy attributes "size");
    destruct (present_and_truthy attributes "budget");
    destruct (wants_context attributes); simpl; intros Hne; try done;
    vm_compute; eexists _, _; reflexivity.
Qed.

(** X8.  In a turn the oracle is consulted exactly when rule-based
    matching accepted fewer than three attributes (the test on
    [has_high_confidence_matches] adds nothing to the one on the length);
    when it is consulted it is the first call of the turn, it is asked once,
    and the attributes it is shown are the extracted ones overridden by the
    rule-based ones. *)
Theorem oracle_consulted_iff_few_rule_based (vm : mappings) (threshold : Q)
    (user_query : string) (user_preferences : option dict) :
  let self := __init__ vm threshold in
  let extracted_attributes := (analyze_query user_query).1 in
  let key_phrases := (analyze_query user_query).2 in
  ∃ similarity events reply,
    find_best_matches self key_phrases extracted_attributes = Ret similarity
    ∧ get_recommendations self user_query user_preferences = Ret (events, reply)
    ∧ let shown := OracleCall user_query
                     (matched_attributes similarity ∪ extracted_attributes) in
      ((size (matched_attributes similarity) < 3)%nat →
         ∃ rest, events = shown :: rest ∧ ∀ q existing, OracleCall q existing ∉ rest)
      ∧ (¬ (size (matched_attributes similarity) < 3)%nat →
           ∀ q existing, OracleCall q existing ∉ events).
Proof.
  intros self extracted_attributes key_phrases.
  destruct (turn_run vm threshold user_query user_preferences)
    as (similarity & Hfind & Hflag & Hturn).
  fold self extracted_attributes key_phrases in Hfind, Hturn.
  simpl in Hturn.
  assert (Hcatalog : ∀ final q existing,
            OracleCall q existing ∉ (respond user_query final).1).
  { intros final q existing. unfold respond.
    destruct (_check_missing_attributes final); simpl.
    - intros Hin%list_elem_of_singleton. discriminate.
    - apply not_elem_of_nil. }
  assert (Hgate : negb (has_high_confidence_matches similarity)
                  || (size (matched_attributes similarity) <? 3)%nat
                  = (size (matched_attributes similarity) <? 3)%nat).
  { destruct (has_high_confidence_matches similarity) eqn:Ehigh; [done|]. simpl.
    assert (Hempty : matched_attributes similarity = ∅).
    { destruct (decide (matched_attributes similarity = ∅)) as [|Hne]; [done|].
      apply Hflag in Hne. congruence. }
    by rewrite Hempty, map_size_empty. }
  eexists similarity, _, _. split; [done|]. split; [exact Hturn|].
  unfold gpt_step. rewrite Hgate. simpl. split.
  - intros Hfew%Nat.ltb_lt. rewrite Hfew. simpl. eexists. split; [done|].
    apply Hcatalog.
  - intros Hmany%Nat.ltb_nlt. rewrite Hmany. simpl. apply Hcatalog.
Qed.

(** X9.  A turn ends in exactly one of two ways.  Either something is
    missing: the catalog is not called, and the reply carries the missing
    keys, one question per key, and the first question as message.  Or
    nothing is missing: the last call of the turn is the only call to the
    catalog, made with the fused attributes and the configured limit, and
    the reply carries the products it returned and the text generated for
    them. *)
Theorem turn_outcome (vm : mappings) (threshold : Q)
    (user_query : string) (user_preferences : option dict) :
  ∃ events reply,
    get_recommendations (__init__ vm threshold) user_query user_preferences
    = Ret (events, reply)
    ∧ let final := final_attributes reply in
      let missing := _check_missing_attributes final in
      match reply with
      | NeedsInfo message missing_attributes suggested_questions _ =>
          missing ≠ []
          ∧ missing_attributes = missing
          ∧ suggested_questions = _generate_follow_up_questions missing
          ∧ head suggested_questions = Some message
          ∧ ∀ attributes limit, CatalogCall attributes limit ∉ events
      | Ready recommendation products _ =>
          missing = []
          ∧ products = filter_products final max_results
          ∧ recommendation = generate_suggestion products user_query final
          ∧ ∃ before, events = (before ++ [CatalogCall final max_results])%list
                      ∧ ∀ attributes limit, CatalogCall attributes limit ∉ before
      end.
Proof.
  destruct (turn_run vm threshold user_query user_preferences)
    as (similarity & Hfind & Hflag & Hturn).
  simpl in Hturn. eexists _, _. split; [exact Hturn|].
  set (step := gpt_step _ _ _ _).
  assert (Hstep : ∀ attributes limit, CatalogCall attributes limit ∉ step.1).
  { intros attributes limit. unfold step, gpt_step.
    destruct (_ || _); simpl.
    - intros Hin%list_elem_of_singleton. discriminate.
    - apply not_elem_of_nil. }
  set (final := _merge_all_attributes _ _ _ _).
  unfold respond.
  destruct (_check_missing_attributes final) as [|attr rest] eqn:Emissing; simpl.
  - rewrite Emissing. do 3 (split; [done|]). by exists step.1.
  - rewrite Emissing. split; [done|]. do 2 (split; [done|]).
    destruct (questions_for_missing final) as (first & others & Hq);
      [by rewrite Emissing|]. rewrite Emissing in Hq. rewrite Hq.
 simpl. split; [done|].
    intros attributes limit. rewrite app_nil_r. apply Hstep.
Qed.

Lemma present_not_missing (attributes : dict) (key : string) :
  present_and_truthy attributes key = true →
  key ∈ ["category"; "size"; "budget"] →
  key ∉ _check_missing_attributes attributes.
Proof.
  intros Hpresent Hkey. rewrite check_missing_closed.
  apply list_elem_of_In in Hkey. simpl in Hkey.
  destruct Hkey as [<-|[<-|[<-|[]]]]; rewrite Hpresent;
    destruct (present_and_truthy attributes "category");
    destruct (present_and_truthy attributes "size");
    destruct (present_and_truthy attributes "budget");
    destruct (wants_context attributes); simpl;
    rewrite list_elem_of_In; simpl; intuition congruence.
Qed.

Lemma context_not_missing (attributes : dict) (key : string) :
  present_and_truthy attributes key = true →
  key ∈ ["occasion"; "season"; "style"; "fit"] →
  "occasion or style" ∉ _check_missing_attributes attributes.
Proof.
  intros Hpresent Hkey. rewrite check_missing_closed.
  assert (Hcontext : wants_context attributes = false).
  { unfold wants_context. apply andb_false_iff. right. apply negb_false_iff.
    apply existsb_exists. exists key. split; [by apply list_elem_of_In | done]. }
  rewrite Hcontext.
  destruct (present_and_truthy attributes "category");
    destruct (present_and_truthy attributes "size");
    destruct (present_and_truthy attributes "budget"); simpl;
    rewrite list_elem_of_In; simpl; intuition congruence.
Qed.

(** X10.  A truthy user preference reaches the reply of the turn unchanged,
    whatever the analyzer, the matcher and the oracle say about the key; the
    system then never asks for it: a preferred category, size or budget is
    not listed as missing, and a preferred occasion, season, style or fit
    keeps the marker ['occasion or style'] off the list. *)
Theorem preference_is_kept_and_not_asked_for (vm : mappings) (threshold : Q)
    (user_query : string) (user_prefs : dict) (key : string) (value : pyval) :
  user_prefs !! key = Some value →
  truthy value = true →
  ∃ events reply,
    get_recommendations (__init__ vm threshold) user_query (Some user_prefs)
    = Ret (events, reply)
    ∧ final_attributes reply !! key = Some value
    ∧ ∀ message missing questions attributes,
        reply = NeedsInfo message missing questions attributes →
        (key ∈ ["category"; "size"; "budget"] → key ∉ missing)
        ∧ (key ∈ ["occasion"; "season"; "style"; "fit"] → "occasion or style" ∉ missing).
Proof.
  intros Hpref Htruthy.
  destruct (turn_run vm threshold user_query (Some user_prefs))
    as (similarity & Hfind & Hflag & Hturn).
  simpl in Hturn. eexists _, _. split; [exact Hturn|].
  set (final := _merge_all_attributes _ _ _ _).
  assert (Hfinal : final !! key = Some value).
  { unfold final. rewrite merge_lookup. simpl.
    by rewrite (offer_Some user_prefs key value Hpref Htruthy). }
  assert (Hpresent : present_and_truthy final key = true).
  { unfold present_and_truthy. by rewrite Hfinal. }
  unfold respond.
  destruct (_check_missing_attributes final) as [|attr rest] eqn:Emissing; simpl.
  - split; [done|]. intros message missing questions attributes. discriminate.
  - split; [done|]. intros message missing questions attributes [= _ <- _ _].
    rewrite <- Emissing. split; intros Hkey.
    + by apply present_not_missing.
    + by apply (context_not_missing final key).
Qed.

End turn.

Lemma preference_is_kept_and_not_asked_for_witness :
  let user_prefs : dict := {[ "size" := VStr "M" ]} in
  user_prefs !! "size" = Some (VStr "M")
  ∧ truthy (VStr "M") = true
  ∧ ∃ events reply,
      @get_recommendations traversal_order lukewarm_backend talkative_oracle
        quiet_collaborators
        (@__init__ lukewarm_backend [] (8 # 10)) "a dress" (Some user_prefs)
      = Ret (events, reply)
      ∧ final_attributes reply !! "size" = Some (VStr "M")
      ∧ ∀ message missing questions attributes,
          reply = NeedsInfo message missing questions attributes →
          ("size" ∈ ["category"; "size"; "budget"] → "size" ∉ missing)
          ∧ ("size" ∈ ["occasion"; "season"; "style"; "fit"] →
             "occasion or style" ∉ missing).
Proof.
  intros user_prefs.
  assert (Hpref : user_prefs !! "size" = Some (VStr "M")) by (vm_compute; reflexivity).
  assert (Htruthy : truthy (VStr "M") = true) by reflexivity.
  split; [exact Hpref|]. split; [exact Htruthy|].
  exact (@preference_is_kept_and_not_asked_for traversal_order lukewarm_backend
           talkative_oracle quiet_collaborators [] (8 # 10) "a dress" user_prefs
           "size" (VStr "M") Hpref Htruthy).
Defined.

(** ** The budget clause of the catalog filter *)

Section budget_clause.
Context `{FloatOfStr}.

Lemma price_at_most_spec (budget : Q) (rows : list product) :
  price_at_most budget rows `sublist_of` rows
  ∧ ∀ row, row ∈ price_at_most budget rows
      ↔ row ∈ rows ∧ ∃ p, price row = Some p ∧ (p <= budget)%Q.
Proof.
  unfold price_at_most. split.
  - induction rows as [|row rows IH]; simpl; [done|].
    destruct (match price row with Some p => Qle_bool p budget | None => false end).
    + by apply sublist_skip.
    + by apply sublist_cons.
  - intros row. rewrite list_elem_of_In, filter_In, <- list_elem_of_In.
    split; intros [Hin Hprice]; (split; [done|]).
    + destruct (price row) as [p|]; [|done]. exists p. split; [done|].
      by apply Qle_bool_iff.
    + destruct Hprice as (p & -> & Hle). by apply Qle_bool_iff.
Qed.

(** X11.  With a truthy budget that [float] accepts, the budget clause
    returns, in catalog order, exactly the rows that have a price and whose
    price is at most the budget; a row without a price (NaN) is dropped. *)
Theorem budget_clause_keeps_the_affordable_rows (attributes : dict)
    (budget_value : pyval) (budget : Q) (rows : list product) :
  attributes !! "budget" = Some budget_value →
  truthy budget_value = true →
  float budget_value = Ret budget →
  ∃ kept, filter_by_budget attributes rows = Ret kept
          ∧ kept `sublist_of` rows
          ∧ ∀ row, row ∈ kept ↔ row ∈ rows ∧ ∃ p, price row = Some p ∧ (p <= budget)%Q.
Proof.
  intros Hbudget Htruthy Hfloat. unfold filter_by_budget.
  rewrite Hbudget, Htruthy, Hfloat. eexists. split; [done|].
  apply price_at_most_spec.
Qed.

End budget_clause.

Lemma budget_clause_keeps_the_affordable_rows_witness :
  let attributes : dict := {[ "budget" := VStr " 40 " ]} in
  let rows := [ {| name := "linen top"; price := Some 35%Q |};
                {| name := "unpriced skirt"; price := None |};
                {| name := "silk dress"; price := Some 90%Q |};
                {| name := "cotton top"; price := Some 40%Q |} ] in
  attributes !! "budget" = Some (VStr " 40 ")
  ∧ truthy (VStr " 40 ") = true
  ∧ @float decimal_float (VStr " 40 ") = Ret 40%Q
  ∧ ∃ kept, @filter_by_budget decimal_float attributes rows = Ret kept
            ∧ kept `sublist_of` rows
            ∧ ∀ row, row ∈ kept ↔ row ∈ rows ∧ ∃ p, price row = Some p ∧ (p <= 40)%Q.
Proof.
  intros attributes rows.
  assert (Hbudget : attributes !! "budget" = Some (VStr " 40 "))
    by (vm_compute; reflexivity).
  assert (Htruthy : truthy (VStr " 40 ") = true) by reflexivity.
  assert (Hfloat : @float decimal_float (VStr " 40 ") = Ret 40%Q)
    by (vm_compute; reflexivity).
  split; [exact Hbudget|]. split; [exact Htruthy|]. split; [exact Hfloat|].
  exact (@budget_clause_keeps_the_affordable_rows decimal_float attributes
           (VStr " 40 ") 40%Q rows Hbudget Htruthy Hfloat).
Defined.

(** ** Validation of the oracle's reply, continued *)

Lemma validate_value_again (attr_lower : string) (value kept : pyval) :
  validate_value attr_lower value = Some kept →
  validate_value attr_lower kept = Some kept.
Proof.
  unfold validate_value. destruct (valid_values !! attr_lower) as [allowed|].
  - destruct value as [|b|q|s|items|fields]; simpl; try done.
    + destruct (bool_decide (s ∈ allowed)) eqn:E; [|done]. intros [= <-]. simpl.
      by rewrite E.
    + destruct (List.filter _ items) as [|item kept_items] eqn:E; [done|].
      intros [= <-].
      assert (Hagain : List.filter (fun item => value_in item allowed) (item :: kept_items)
                       = item :: kept_items).
      { rewrite <- E. apply forallb_filter_id, forallb_filter. }
      by rewrite Hagain.
  - by intros [= <-].
Qed.

Lemma category_key_step (valid_attrs : list string) (s : string) :
  (if not_for_category (lower "category") valid_attrs then None
   else validate_value (lower "category") (VStr s))
  = if bool_decide (s ∈ ["top"; "dress"; "skirt"; "pants"]) then Some (VStr s) else None.
Proof. done. Qed.

Section validation_again.
Context `{ItemsOrder} `{Oracle}.

Lemma validate_category_key (attributes validated : dict) :
  _validate_attributes attributes = Ret validated →
  validated !! "category" = attributes !! "category"
  ∨ (validated !! "category" = None
     ∧ ∃ s, attributes !! "category" = Some (VStr s)
            ∧ s ∉ ["top"; "dress"; "skirt"; "pants"]).
Proof.
  intros Hrun. destruct (validate_lookup _ _ Hrun) as (category & Hcat & Hlook).
  rewrite (Hlook "category"). unfold category_of in Hcat.
  destruct (attributes !! "category") as [value|]; [|by left].
  destruct value as [|b|q|s|items|fields]; try done.
  cbn [mbind option_bind]. rewrite category_key_step.
  case_bool_decide; [by left|]. right. split; [done|]. by exists s.
Qed.

Lemma validate_same_category (attributes validated : dict) :
  _validate_attributes attributes = Ret validated →
  validated !! "category" = attributes !! "category" →
  _validate_attributes validated = Ret validated.
Proof.
  intros Hrun Hsame.
  destruct (validate_lookup _ _ Hrun) as (category & Hcat & Hlook).
  assert (Hcat' : category_of validated = Ret category).
  { unfold category_of in *. by rewrite Hsame. }
  destruct (_validate_attributes validated) as [again|e] eqn:Hagain.
  2:{ unfold _validate_attributes in Hagain. by rewrite Hcat' in Hagain. }
  destruct (validate_lookup _ _ Hagain) as (category' & Hcat'' & Hlook').
  assert (category' = category) as -> by congruence.
  f_equal. apply map_eq. intros attr. rewrite Hlook'.
  destruct (validated !! attr) as [kept|] eqn:Ekept; [|done]. simpl.
  rewrite Hlook in Ekept. destruct (attributes !! attr) as [value|]; [|done].
  simpl in Ekept. destruct (not_for_category _ _); [done|].
  by apply validate_value_again in Ekept.
Qed.

(** X12.  Validating a validated reply changes nothing, provided the
    reply had no ['category'] or had one of the four category names spelled
    as in the table. *)
Theorem validation_is_idempotent (attributes validated : dict) :
  _validate_attributes attributes = Ret validated →
  attributes !! "category" = None
  ∨ (∃ s, attributes !! "category" = Some (VStr s)
          ∧ s ∈ ["top"; "dress"; "skirt"; "pants"]) →
  _validate_attributes validated = Ret validated.
Proof.
  intros Hrun Hcategory. apply (validate_same_category attributes); [done|].
  destruct (validate_category_key _ _ Hrun) as [Hsame|(_ & s & Hs & Hout)]; [done|].
  destruct Hcategory as [Hnone|(s' & Hs' & Hin)]; congruence.
Qed.

(** X13.  A reply whose category is a string that is not exactly one of
    ['top'], ['dress'], ['skirt'], ['pants'] (for instance ['Dress']) loses
    its ['category'] in validation, while its other attributes are still
    admitted by the lower-cased category; validating the result once more
    then drops every key except those that spell ['category'] in some
    casing. *)
Theorem inexact_category_is_dropped (attributes validated : dict) (s : string) :
  _validate_attributes attributes = Ret validated →
  attributes !! "category" = Some (VStr s) →
  s ∉ ["top"; "dress"; "skirt"; "pants"] →
  validated !! "category" = None
  ∧ (∀ attr value, attributes !! attr = Some value →
       lower attr ∈ default [] (category_attributes !! lower s) →
       validated !! attr = validate_value (lower attr) value)
  ∧ ∃ again, _validate_attributes validated = Ret again
             ∧ ∀ attr, again !! attr
                 = if decide (lower attr = "category") then validated !! attr else None.
Proof.
  intros Hrun Hcategory Hout.
  destruct (validate_category_key _ _ Hrun) as [Hsame|(Hnone & _)].
  { exfalso. destruct (validate_lookup _ _ Hrun) as (category & Hcat & Hlook).
    specialize (Hlook "category"). rewrite Hsame, Hcategory in Hlook.
    cbn [mbind option_bind] in Hlook. rewrite category_key_step in Hlook.
    by rewrite bool_decide_eq_false_2 in Hlook. }
  split; [done|].
  destruct (validate_lookup _ _ Hrun) as (category & Hcat & Hlook).
  assert (category = lower s) as ->.
  { unfold category_of in Hcat. rewrite Hcategory in Hcat. congruence. }
  split.
  - intros attr value Hvalue Hallowed. rewrite Hlook, Hvalue. simpl.
    assert (not_for_category (lower attr) (default [] (category_attributes !! lower s))
            = false) as ->; [|done].
    apply not_for_category_false. by right.
  - destruct (_validate_attributes validated) as [again|e] eqn:Hagain.
    2:{ unfold _validate_attributes, category_of in Hagain. by rewrite Hnone in Hagain. }
    exists again. split; [done|]. intros attr.
    destruct (validate_lookup _ _ Hagain) as (category' & Hcat' & Hlook').
    assert (category' = "") as ->.
    { unfold category_of in Hcat'. rewrite Hnone in Hcat'. by injection Hcat' as <-. }
    rewrite Hlook'. change (default [] (category_attributes !! "")) with (@nil string).
    destruct (validated !! attr) as [kept|] eqn:Ekept; simpl; [|by destruct (decide _)].
    destruct (decide (lower attr = "category")) as [Hkey|Hkey].
    + assert (not_for_category (lower attr) [] = false) as ->
        by (apply not_for_category_false; by left).
      rewrite Hlook in Ekept. destruct (attributes !! attr) as [value|]; [|done].
      simpl in Ekept. destruct (not_for_category _ _); [done|].
      by apply validate_value_again in Ekept.
    + assert (not_for_category (lower attr) [] = true) as ->; [|done].
      destruct (not_for_category (lower attr) []) eqn:E; [done|].
      apply not_for_category_false in E as [Hyes|Hyes]; [done|].
      by apply elem_of_nil in Hyes.
Qed.

(** X14.  [infer_attributes] returns [None] in exactly three cases: the
    oracle is not available, the call or the parsing of its reply failed, or
    the reply has a ['category'] that is not a string; in the last case the
    whole reply is discarded, valid attributes included. *)
Theorem inference_fails_exactly_when (user_query : string) (existing_attributes : dict)
    (vm : mappings) :
  infer_attributes user_query existing_attributes vm = None
  ↔ available = false
    ∨ chat_completion user_query existing_attributes vm = None
    ∨ ∃ reply value,
        chat_completion user_query existing_attributes vm = Some reply
        ∧ reply !! "category" = Some value ∧ is_str value = false.
Proof.
  unfold infer_attributes. destruct available; simpl.
  2:{ split; [by left | done]. }
  destruct (chat_completion _ _ _) as [reply|].
  2:{ split; [by (right; left) | done]. }
  destruct (_validate_attributes reply) as [validated|e] eqn:Hrun.
  - split; [done|]. intros [?|[?|(reply' & value & [= <-] & Hvalue & Hstr)]]; try done.
    unfold _validate_attributes, category_of in Hrun. rewrite Hvalue in Hrun.
    by destruct value.
  - split; [|done]. intros _. right. right.
    destruct (validate_raises _ _ Hrun) as (_ & value & Hvalue & Hstr).
    by exists reply, value.
Qed.

End validation_again.

Lemma validation_is_idempotent_witness :
  let attributes : dict :=
    list_to_map [ ("category", VStr "dress"); ("fabric", VList [VStr "Silk"; VStr "Nylon"]);
                  ("size", VStr "M"); ("fit", VStr "Baggy") ] in
  let validated : dict :=
    list_to_map [ ("category", VStr "dress"); ("fabric", VList [VStr "Silk"]) ] in
  _validate_attributes attributes = Ret validated
  ∧ (attributes !! "category" = None
     ∨ (∃ s, attributes !! "category" = Some (VStr s)
             ∧ s ∈ ["top"; "dress"; "skirt"; "pants"]))
  ∧ _validate_attributes validated = Ret validated.
Proof.
  intros attributes validated.
  assert (Hrun : _validate_attributes attributes = Ret validated)
    by (vm_compute; reflexivity).
  assert (Hcategory : attributes !! "category" = None
                      ∨ (∃ s, attributes !! "category" = Some (VStr s)
                              ∧ s ∈ ["top"; "dress"; "skirt"; "pants"])).
  { right. exists "dress". split; [vm_compute; reflexivity|].
    apply list_elem_of_In. simpl. auto. }
  split; [exact Hrun|]. split; [exact Hcategory|].
  exact (validation_is_idempotent attributes validated Hrun Hcategory).
Defined.

Lemma inexact_category_is_dropped_witness :
  let attributes : dict :=
    list_to_map [ ("category", VStr "Dress"); ("Category", VStr "dress");
                  ("neckline", VStr "V neck") ] in
  let validated : dict :=
    list_to_map [ ("Category", VStr "dress"); ("neckline", VStr "V neck") ] in
  _validate_attributes attributes = Ret validated
  ∧ attributes !! "category" = Some (VStr "Dress")
  ∧ ("Dress" ∉ ["top"; "dress"; "skirt"; "pants"])
  ∧ validated !! "category" = None
  ∧ (∀ attr value, attributes !! attr = Some value →
       lower attr ∈ default [] (category_attributes !! lower "Dress") →
       validated !! attr = validate_value (lower attr) value)
  ∧ ∃ again, _validate_attributes validated = Ret again
             ∧ ∀ attr, again !! attr
                 = if decide (lower attr = "category") then validated !! attr else None.
Proof.
  intros attributes validated.
  assert (Hrun : _validate_attributes attributes = Ret validated)
    by (vm_compute; reflexivity).
  assert (Hcategory : attributes !! "category" = Some (VStr "Dress"))
    by (vm_compute; reflexivity).
  assert (Hout : "Dress" ∉ ["top"; "dress"; "skirt"; "pants"]).
  { intros Hin. apply list_elem_of_In in Hin. simpl in Hin. intuition discriminate. }
  split; [exact Hrun|]. split; [exact Hcategory|]. split; [exact Hout|].
  exact (inexact_category_is_dropped attributes validated "Dress" Hrun Hcategory Hout).
Defined.

(** ** The analyzer *)

Lemma lower_ascii_not_upper (c : ascii) :
  let n := nat_of_ascii (lower_ascii c) in
  (65 <=? n)%nat && (n <=? 90)%nat = false.
Proof.
  destruct c as [b0 b1 b2 b3 b4 b5 b6 b7].
  destruct b0, b1, b2, b3, b4, b5, b6, b7; reflexivity.
Qed.

Section analyzer_facts.
Import NLPAnalyzer.
Context `{Models} `{TextTools}.

Lemma lower_not_a_size (word : string) : lower word ∉ sizes.
Proof.
  intros Hin. apply list_elem_of_In in Hin. simpl in Hin.
  destruct word as [|c word]; simpl in Hin; [intuition discriminate|].
  pose proof (lower_ascii_not_upper c) as Hc. cbv zeta in Hc.
  repeat destruct Hin as [Hin|Hin]; try done;
    injection Hin as Hfirst _; rewrite <- Hfirst in Hc; discriminate.
Qed.

Lemma kept_tokens_lower (d : Spacy.doc) (token : string) :
  token ∈ kept_tokens d → ∃ word, token = lower word.
Proof.
  unfold kept_tokens. intros (t & _ & Ht)%list_elem_of_omap.
  destruct (_ && _); [|done]. injection Ht as <-. by eexists.
Qed.

Lemma same_attributes_fold {A} (step : extracted → A → extracted) (xs : list A) :
  (∀ e x, same_attributes e (step e x)) →
  ∀ e, same_attributes e (fold_left step xs e).
Proof.
  intros Hstep. induction xs as [|x xs IH]; intros e; simpl; [by repeat split|].
  destruct (IH (step e x)) as (?&?&?&?&?&?&?&?).
  destruct (Hstep e x) as (?&?&?&?&?&?&?&?).
  repeat split; congruence.
Qed.

Lemma read_chunk_attributes (e : extracted) (chunk : string) :
  same_attributes e (read_chunk e chunk).
Proof. unfold read_chunk. by destruct (_ && _). Qed.

Lemma read_adjective_attributes (e : extracted) (token : Spacy.token) :
  same_attributes e (read_adjective e token).
Proof. unfold read_adjective. by destruct (_ && _). Qed.

Lemma keep_compound_attributes (e : extracted) (chunk : string) :
  same_attributes e (keep_compound e chunk).
Proof. unfold keep_compound. by destruct (_ <? _)%nat. Qed.

Ltac fields :=
  cbn [occasion season style category fit color coverage size
       raw_phrases noun_chunks adjectives
       set_occasion set_season set_style set_category set_fit set_color
       set_coverage set_size append_raw_phrase append_noun_chunk append_adjective].

Ltac fields_in H :=
  cbn [occasion season style category fit color coverage size
       raw_phrases noun_chunks adjectives
       set_occasion set_season set_style set_category set_fit set_color
       set_coverage set_size append_raw_phrase append_noun_chunk append_adjective] in H.

Lemma match_token_fields (e : extracted) (token : string) :
  let e' := match_token e token in
  let pick (words : list string) (field : extracted → option string) :=
    if bool_decide (token ∈ words) && unset (field e) then Some token else field e in
  occasion e' = pick occasions occasion
  ∧ season e' = pick seasons season
  ∧ style e' = pick styles style
  ∧ category e' = pick categories category
  ∧ fit e' = pick fits fit
  ∧ color e' = pick colors color
  ∧ coverage e' = pick coverage_patterns coverage.
Proof.
  unfold match_token.
  generalize (bool_decide (token ∈ occasions)), (bool_decide (token ∈ seasons)),
    (bool_decide (token ∈ styles)), (bool_decide (token ∈ categories)),
    (bool_decide (token ∈ fits)), (bool_decide (token ∈ colors)),
    (bool_decide (token ∈ coverage_patterns)), (bool_decide (token ∈ sizes)).
  intros b1 b2 b3 b4 b5 b6 b7 b8. cbv zeta.
  destruct (b1 && unset (occasion e)); fields;
  destruct (b2 && unset (season e)); fields;
  destruct (b3 && unset (style e)); fields;
  destruct (b4 && unset (category e)); fields;
  destruct (b5 && unset (fit e)); fields;
  destruct (b6 && unset (color e)); fields;
  destruct (b7 && unset (coverage e)); fields;
  destruct (b8 && unset (size e)); fields;
  repeat split; reflexivity.
Qed.

Lemma match_token_size (e : extracted) (token : string) :
  token ∉ sizes → size (match_token e token) = size e.
Proof.
  intros Hsize. unfold match_token. rewrite (bool_decide_eq_false_2 _ Hsize).
  generalize (bool_decide (token ∈ occasions)), (bool_decide (token ∈ seasons)),
    (bool_decide (token ∈ styles)), (bool_decide (token ∈ categories)),
    (bool_decide (token ∈ fits)), (bool_decide (token ∈ colors)),
    (bool_decide (token ∈ coverage_patterns)).
  intros b1 b2 b3 b4 b5 b6 b7. cbv zeta. rewrite andb_false_l.
  destruct (b1 && unset (occasion e)); fields;
  destruct (b2 && unset (season e)); fields;
  destruct (b3 && unset (style e)); fields;
  destruct (b4 && unset (category e)); fields;
  destruct (b5 && unset (fit e)); fields;
  destruct (b6 && unset (color e)); fields;
  destruct (b7 && unset (coverage e)); fields; reflexivity.
Qed.

Lemma fold_first (field : extracted → option string) (words : list string) :
  (∀ e token, field (match_token e token)
              = if bool_decide (token ∈ words) && unset (field e)
                then Some token else field e) →
  "" ∉ words →
  ∀ tokens e,
    field (fold_left match_token tokens e)
    = if unset (field e)
      then match first_in words tokens with
           | Some token => Some token
           | None => field e
           end
      else field e.
Proof.
  intros Hstep Hempty. unfold first_in.
  induction tokens as [|token tokens IH]; intros e; simpl.
  { by destruct (unset (field e)). }
  rewrite IH, Hstep. case_bool_decide as Htoken; simpl.
  - destruct (unset (field e)) eqn:Eunset; simpl; [|by rewrite Eunset].
    assert (String.eqb token "" = false) as ->; [|done].
    apply String.eqb_neq. by intros ->.
  - by destruct (unset (field e)).
Qed.

Lemma fold_size (tokens : list string) (e : extracted) :
  (∀ token, token ∈ tokens → token ∉ sizes) →
  size (fold_left match_token tokens e) = size e.
Proof.
  revert e. induction tokens as [|token tokens IH]; intros e Htokens; simpl; [done|].
  rewrite IH by (intros t Ht; apply Htokens; by right).
  apply match_token_size, Htokens. by left.
Qed.

(** One pattern of the last loop. *)
Lemma read_pattern_step (text_lower : string) (e : extracted) (pattern : string) :
  pattern ∈ season_occasion_patterns →
  ∃ season_word occasion_word,
    split pattern = [season_word; occasion_word]
    ∧ read_pattern text_lower (Done e) pattern
      = Done (if contains pattern text_lower
              then set_occasion (Some occasion_word)
                     (set_season (Some season_word) (append_raw_phrase pattern e))
              else e).
Proof.
  intros Hin. apply list_elem_of_In in Hin. simpl in Hin.
  unfold read_pattern.
  repeat destruct Hin as [<-|Hin]; try done;
    eexists _, _; (split; [vm_compute; reflexivity|]);
    destruct (contains _ text_lower); vm_compute; reflexivity.
Qed.

Lemma fold_read_chunk (chunks : list string) (e : extracted) :
  let e' := fold_left read_chunk chunks e in
  same_attributes e e'
  ∧ noun_chunks e' = (noun_chunks e ++ (lower <$> chunks))%list
  ∧ raw_phrases e'
    = (raw_phrases e ++ List.filter names_season_and_occasion (lower <$> chunks))%list.
Proof.
  split; [apply same_attributes_fold, read_chunk_attributes|].
  revert e. induction chunks as [|chunk chunks IH]; intros e; simpl.
  { by rewrite !app_nil_r. }
  destruct (IH (read_chunk e chunk)) as [-> ->].
  unfold read_chunk. fold (names_season_and_occasion (lower chunk)).
  destruct (names_season_and_occasion (lower chunk)); fields;
    by rewrite <- !(assoc_L (++)).
Qed.

Lemma fold_read_adjective (tokens : list Spacy.token) (e : extracted) :
  let e' := fold_left read_adjective tokens e in
  same_attributes e e' ∧ noun_chunks e' = noun_chunks e ∧ raw_phrases e' = raw_phrases e.
Proof.
  split; [apply same_attributes_fold, read_adjective_attributes|].
  revert e. induction tokens as [|token tokens IH]; intros e; simpl; [done|].
  destruct (IH (read_adjective e token)) as [-> ->].
  unfold read_adjective. by destruct (_ && _).
Qed.

Lemma match_token_lists (e : extracted) (token : string) :
  noun_chunks (match_token e token) = noun_chunks e
  ∧ raw_phrases (match_token e token) = raw_phrases e.
Proof.
  unfold match_token.
  generalize (bool_decide (token ∈ occasions)), (bool_decide (token ∈ seasons)),
    (bool_decide (token ∈ styles)), (bool_decide (token ∈ categories)),
    (bool_decide (token ∈ fits)), (bool_decide (token ∈ colors)),
    (bool_decide (token ∈ coverage_patterns)), (bool_decide (token ∈ sizes)).
  intros b1 b2 b3 b4 b5 b6 b7 b8. cbv zeta.
  destruct (b1 && unset (occasion e)); fields;
  destruct (b2 && unset (season e)); fields;
  destruct (b3 && unset (style e)); fields;
  destruct (b4 && unset (category e)); fields;
  destruct (b5 && unset (fit e)); fields;
  destruct (b6 && unset (color e)); fields;
  destruct (b7 && unset (coverage e)); fields;
  destruct (b8 && unset (size e)); fields;
  split; reflexivity.
Qed.

Lemma fold_match_token_lists (tokens : list string) (e : extracted) :
  noun_chunks (fold_left match_token tokens e) = noun_chunks e
  ∧ raw_phrases (fold_left match_token tokens e) = raw_phrases e.
Proof.
  revert e. induction tokens as [|token tokens IH]; intros e; simpl; [done|].
  destruct (IH (match_token e token)) as [-> ->]. apply match_token_lists.
Qed.

Lemma fold_keep_compound (chunks : list string) (e : extracted) :
  let e' := fold_left keep_compound chunks e in
  same_attributes e e'
  ∧ noun_chunks e' = noun_chunks e
  ∧ raw_phrases e' = (raw_phrases e ++ List.filter has_several_words chunks)%list.
Proof.
  split; [apply same_attributes_fold, keep_compound_attributes|].
  revert e. induction chunks as [|chunk chunks IH]; intros e; simpl.
  { by rewrite app_nil_r. }
  destruct (IH (keep_compound e chunk)) as [-> ->].
  unfold keep_compound. fold (has_several_words chunk).
  destruct (has_several_words chunk); fields; by rewrite <- ?(assoc_L (++)).
Qed.

Lemma fold_read_pattern (text_lower : string) (patterns : list string) (e : extracted) :
  (∀ pattern, pattern ∈ patterns → pattern ∈ season_occasion_patterns) →
  ∃ e', fold_left (read_pattern text_lower) patterns (Done e) = Done e'
        ∧ style e' = style e ∧ category e' = category e ∧ fit e' = fit e
        ∧ color e' = color e ∧ coverage e' = coverage e ∧ size e' = size e
        ∧ noun_chunks e' = noun_chunks e
        ∧ raw_phrases e' = (raw_phrases e ++ patterns_in text_lower patterns)%list
        ∧ match last (patterns_in text_lower patterns) with
          | Some pattern =>
              ∃ season_word occasion_word,
                split pattern = [season_word; occasion_word]
                ∧ season e' = Some season_word ∧ occasion e' = Some occasion_word
          | None => season e' = season e ∧ occasion e' = occasion e
          end.
Proof.
  revert e. induction patterns as [|pattern patterns IH]; intros e Hpatterns.
  { exists e. simpl. rewrite app_nil_r. by repeat split. }
  destruct (read_pattern_step text_lower e pattern) as (sw & ow & Hsplit & Hstep).
  { apply Hpatterns. by left. }
  cbn [fold_left]. rewrite Hstep. unfold patterns_in. cbn [List.filter].
  fold (patterns_in text_lower patterns).
  destruct (contains pattern text_lower).
  - destruct (IH (set_occasion (Some ow) (set_season (Some sw) (append_raw_phrase pattern e))))
      as (e' & Hrun & ? & ? & ? & ? & ? & ? & ? & Hraw & Hlast).
    { intros p Hp. apply Hpatterns. by right. }
    exists e'. split; [done|]. do 7 (split; [done|]). split.
    + rewrite Hraw. fields. by rewrite <- (assoc_L (++)).
    + rewrite last_cons. destruct (last (patterns_in text_lower patterns)); [done|].
      exists sw, ow. fields_in Hlast. by destruct Hlast as [-> ->].
  - destruct (IH e) as (e' & Hrun & ? & ? & ? & ? & ? & ? & ? & Hraw & Hlast).
    { intros p Hp. apply Hpatterns. by right. }
    exists e'. by do 9 (split; [done|]).
Qed.

(** What [extract_key_phrases] returns. *)
Lemma extract_run (text : string) :
  let d := nlp text in
  let tokens := kept_tokens d in
  let chunks := lower <$> Spacy.noun_chunks d in
  let found := patterns_in (lower text) season_occasion_patterns in
  ∃ e, extract_key_phrases text = Done e
       ∧ size e = None
       ∧ style e = first_in styles tokens
       ∧ category e = first_in categories tokens
       ∧ fit e = first_in fits tokens
       ∧ color e = first_in colors tokens
       ∧ coverage e = first_in coverage_patterns tokens
       ∧ raw_phrases e
         = (List.filter names_season_and_occasion chunks
            ++ List.filter has_several_words chunks ++ found)%list
       ∧ noun_chunks e = chunks
       ∧ match last found with
         | Some pattern =>
             ∃ season_word occasion_word,
               split pattern = [season_word; occasion_word]
               ∧ season e = Some season_word ∧ occasion e = Some occasion_word
         | None =>
             season e = first_in seasons tokens ∧ occasion e = first_in occasions tokens
         end.
Proof.
  intros d tokens chunks found. unfold extract_key_phrases. fold d. fold tokens.
  set (e0 := {| occasion := None; season := None; style := None; category := None;
                fit := None; color := None; coverage := None; size := None;
                raw_phrases := []; noun_chunks := []; adjectives := [] |}).
  assert (He0 : occasion e0 = None ∧ season e0 = None ∧ style e0 = None
                ∧ category e0 = None ∧ fit e0 = None ∧ color e0 = None
                ∧ coverage e0 = None ∧ size e0 = None) by done.
  destruct He0 as (Ho0 & Hs0 & Hst0 & Hc0 & Hf0 & Hco0 & Hcv0 & Hsz0).
  destruct (fold_read_chunk (Spacy.noun_chunks d) e0)
    as ((Ho1 & Hs1 & Hst1 & Hc1 & Hf1 & Hco1 & Hcv1 & Hsz1) & Hchunks1 & Hraw1).
  set (e1 := fold_left read_chunk (Spacy.noun_chunks d) e0) in *.
  destruct (fold_read_adjective (Spacy.tokens d) e1)
    as ((Ho2 & Hs2 & Hst2 & Hc2 & Hf2 & Hco2 & Hcv2 & Hsz2) & Hchunks2 & Hraw2).
  set (e2 := fold_left read_adjective (Spacy.tokens d) e1) in *.
  destruct (fold_match_token_lists tokens e2) as [Hchunks3 Hraw3].
  assert (Hfirst : ∀ (field : extracted → option string) (words : list string),
            (∀ e token, field (match_token e token)
                        = if bool_decide (token ∈ words) && unset (field e)
                          then Some token else field e) →
            "" ∉ words → field e2 = None →
            field (fold_left match_token tokens e2) = first_in words tokens).
  { intros field words Hstep Hempty Hnone.
    rewrite (fold_first field words Hstep Hempty), Hnone. simpl.
    by destruct (first_in words tokens). }
  assert (Hsize3 : size (fold_left match_token tokens e2) = None).
  { rewrite fold_size; [congruence|].
    intros token (word & ->)%kept_tokens_lower. apply lower_not_a_size. }
  set (e3 := fold_left match_token tokens e2) in *.
  destruct (fold_keep_compound (noun_chunks e3) e3)
    as ((Ho4 & Hs4 & Hst4 & Hc4 & Hf4 & Hco4 & Hcv4 & Hsz4) & Hchunks4 & Hraw4).
  set (e4 := fold_left keep_compound (noun_chunks e3) e3) in *.
  destruct (fold_read_pattern (lower text) season_occasion_patterns e4)
    as (e5 & Hrun & Hst5 & Hc5 & Hf5 & Hco5 & Hcv5 & Hsz5 & Hchunks5 & Hraw5 & Hlast);
    [done|].
  assert (Hno_empty : ∀ words, words ∈ fashion_patterns.*2 → "" ∉ words).
  { intros words Hwords%list_elem_of_In Hin%list_elem_of_In.
    simpl in Hwords. repeat destruct Hwords as [<-|Hwords]; try done;
      simpl in Hin; intuition discriminate. }
  assert (Hlisted : ∀ words, In words (fashion_patterns.*2) → "" ∉ words).
  { intros words Hwords. apply Hno_empty. by apply list_elem_of_In. }
  exists e5. split; [done|].
  split; [congruence|].
  split.
  { rewrite Hst5, Hst4. apply Hfirst; [apply match_token_fields| |congruence].
    apply Hlisted. simpl. tauto. }
  split.
  { rewrite Hc5, Hc4. apply Hfirst; [apply match_token_fields| |congruence].
    apply Hlisted. simpl. tauto. }
  split.
  { rewrite Hf5, Hf4. apply Hfirst; [apply match_token_fields| |congruence].
    apply Hlisted. simpl. tauto. }
  split.
  { rewrite Hco5, Hco4. apply Hfirst; [apply match_token_fields| |congruence].
    apply Hlisted. simpl. tauto. }
  split.
  { rewrite Hcv5, Hcv4. apply Hfirst; [apply match_token_fields| |congruence].
    apply Hlisted. simpl. tauto. }
  assert (Hchunks : noun_chunks e3 = chunks).
  { rewrite Hchunks3, Hchunks2, Hchunks1. done. }
  split.
  { rewrite Hraw5, Hraw4, Hchunks, Hraw3, Hraw2, Hraw1. simpl.
    by rewrite <- (assoc_L (++)). }
  split; [congruence|].
  fold found in Hlast. destruct (last found) as [pattern|]; [done|].
  destruct Hlast as [-> ->]. rewrite Hs4, Ho4. split.
  - apply Hfirst; [apply match_token_fields| |congruence]. apply Hlisted. simpl. tauto.
  - apply Hfirst; [apply match_token_fields| |congruence]. apply Hlisted. simpl. tauto.
Qed.

Lemma analyze_query_size (user_query : string) :
  ∃ r, analyze_query user_query = Done r
       ∧ Analysis.extracted_attributes r !! "size" = Some VNone.
Proof.
  unfold analyze_query.
  destruct (extract_run (clean_text user_query)) as (e & -> & Hsize & _).
  eexists. split; [done|]. cbn [Analysis.extracted_attributes]. rewrite Hsize.
  reflexivity.
Qed.

(** X15.  The analyzer never extracts a size: the tokens are compared in
    lower case with the upper-case size names, so [extract_key_phrases]
    returns with ['size'] still [None], and ['size'] is [None] in the
    attributes of [analyze_query], for every query, spaCy model and stop
    word list. *)
Theorem analyzer_never_extracts_a_size (user_query : string) :
  (∃ e, extract_key_phrases user_query = Done e ∧ size e = None)
  ∧ ∃ r, analyze_query user_query = Done r
         ∧ Analysis.extracted_attributes r !! "size" = Some VNone.
Proof.
  split.
  - destruct (extract_run user_query) as (e & Hrun & Hsize & _). by exists e.
  - apply analyze_query_size.
Qed.


(** X17.  When the lower-cased text contains one of the eight compound
    patterns (['summer brunch'], ['winter formal'], ...), season and
    occasion are the two words of the last such pattern in list order,
    whatever the tokens are; otherwise each is the first kept token in its
    word list. *)
Theorem compound_pattern_overrides_tokens (text : string) :
  let tokens := kept_tokens (nlp text) in
  ∃ e, extract_key_phrases text = Done e
       ∧ match last (patterns_in (lower text) season_occasion_patterns) with
         | Some pattern =>
             ∃ season_word occasion_word,
               split pattern = [season_word; occasion_word]
               ∧ season e = Some season_word ∧ occasion e = Some occasion_word
         | None =>
             season e = first_in seasons tokens ∧ occasion e = first_in occasions tokens
         end.
Proof.
  intros tokens.
  destruct (extract_run text) as (e & Hrun & _ & _ & _ & _ & _ & _ & _ & _ & Hlast).
  by exists e.
Qed.

(** X18.  The key phrases are, in this order: the lower-cased noun chunks
    that contain a season word and an occasion word, the lower-cased noun
    chunks of more than one word, and the compound patterns found in the
    lower-cased text; a chunk that passes both tests is listed twice. *)
Theorem key_phrases_are_chunks_and_patterns (text : string) :
  let chunks := lower <$> Spacy.noun_chunks (nlp text) in
  ∃ e, extract_key_phrases text = Done e
       ∧ noun_chunks e = chunks
       ∧ raw_phrases e
         = (List.filter names_season_and_occasion chunks
            ++ List.filter has_several_words chunks
            ++ patterns_in (lower text) season_occasion_patterns)%list.
Proof.
  intros chunks.
  destruct (extract_run text) as (e & Hrun & _ & _ & _ & _ & _ & _ & Hraw & Hchunks & _).
  by exists e.
Qed.

End analyzer_facts.

(** ** Where the attributes of a turn come from *)

Section provenance.
Context `{ItemsOrder} `{Backend}.

Lemma exact_tier_in_table (self : SimilarityMatcher.t) (phrase_lower : string)
    (keys : list string) (answer : option best_match_t) :
  exact_tier self phrase_lower keys = Ret answer → in_table self answer.
Proof.
  induction keys as [|vibe_key keys IH]; simpl; [by intros [= <-]|].
  destruct (String.eqb phrase_lower (lower vibe_key)); [|done].
  unfold key_to_mapping_get.
  destruct (key_to_mapping self !! vibe_key) as [[mapping_type attributes]|] eqn:E;
    simpl; [|done].
  by intros [= <-].
Qed.

Lemma dense_tier_in_table (self : SimilarityMatcher.t) (phrase : string)
    (keys : list string) (best_match answer : option best_match_t) (best_score score : Q) :
  in_table self best_match →
  dense_tier self phrase keys best_match best_score = Ret (answer, score) →
  in_table self answer.
Proof.
  revert best_match best_score.
  induction keys as [|vibe_key keys IH]; intros best_match best_score Hbest; simpl.
  { by intros [= <- _]. }
  destruct (Qlt_bool best_score _); [|by apply IH].
  unfold key_to_mapping_get.
  destruct (key_to_mapping self !! vibe_key) as [[mapping_type attributes]|] eqn:E;
    simpl; [|done].
  by apply IH.
Qed.

Lemma sparse_tier_in_table (self : SimilarityMatcher.t) (phrase : string)
    (best_match answer : option best_match_t) (best_score : Q) :
  in_table self best_match →
  sparse_tier self phrase best_match best_score = Ret answer →
  in_table self answer.
Proof.
  intros Hbest. unfold sparse_tier.
  destruct (Qlt_bool best_score (1 # 2)); [|by intros [= <-]].
  destruct (calculate_tfidf_similarity self phrase) as [|[top_key top_score] rest];
    [by intros [= <-]|].
  destruct (Qlt_bool best_score top_score); [|by intros [= <-]].
  unfold key_to_mapping_get.
  destruct (key_to_mapping self !! top_key) as [[mapping_type attributes]|] eqn:E;
    simpl; [|done].
  by intros [= <-].
Qed.

Lemma answer_in_table (self : SimilarityMatcher.t) (phrase : string)
    (answer : option best_match_t) :
  _find_best_match_for_phrase self phrase = Ret answer → in_table self answer.
Proof.
  unfold _find_best_match_for_phrase.
  destruct (exact_tier self _ _) as [[found|]|e] eqn:Eexact; simpl; [| |done].
  - intros [= <-]. by apply (exact_tier_in_table _ _ _ _ Eexact).
  - destruct nlp.
    + destruct (dense_tier self phrase _ None 0%Q) as [[best_match best_score]|e]
        eqn:Edense; simpl; [|done].
      apply sparse_tier_in_table.
      by apply (dense_tier_in_table self phrase (all_vibe_keys self) None best_match 0%Q
                  best_score).
    + simpl. by apply sparse_tier_in_table.
Qed.

Lemma table_entry (vm : mappings) (threshold : Q) (vibe_key : string)
    (entry : string * dict) :
  key_to_mapping (__init__ vm threshold) !! vibe_key = Some entry →
  (vibe_key, entry) ∈ kb_entries vm.
Proof.
  destruct (init_fields vm threshold) as (_ & -> & _).
  intros Hentry%elem_of_list_to_map_2. by apply elem_of_reverse.
Qed.

Lemma recorded_in_kb (vm : mappings) (threshold : Q) (candidates : list string)
    (m : rule_based_match) :
  m ∈ omap (recorded (__init__ vm threshold)) candidates →
  (matched_vibe m, (mapping_type m, attributes m)) ∈ kb_entries vm.
Proof.
  intros (candidate & _ & Hm)%list_elem_of_omap. unfold recorded in Hm.
  destruct (skipped candidate); [done|].
  destruct (_find_best_match_for_phrase _ candidate) as [answer|e] eqn:Eanswer; [|done].
  apply answer_in_table in Eanswer.
  destruct answer as [[[[vibe_key score] mapping_type] attrs]|]; [|done].
  injection Hm as <-. simpl. by apply (table_entry vm threshold).
Qed.

Lemma matched_in_kb (vm : mappings) (threshold : Q)
    (extracted_phrases : list string) (individual_attributes : dict)
    (r : similarity_result) (key : string) (value : pyval) :
  find_best_matches (__init__ vm threshold) extracted_phrases individual_attributes
  = Ret r →
  matched_attributes r !! key = Some value →
  ∃ vibe_key mapping_type attributes,
    (vibe_key, (mapping_type, attributes)) ∈ kb_entries vm
    ∧ attributes !! key = Some value.
Proof.
  destruct (find_best_matches_run vm threshold extracted_phrases individual_attributes)
    as (matched & confidence & method & -> & (_ & _ & _ & Hvalues) & _).
  intros [= <-] Hvalue. simpl in *.
  destruct (Hvalues key value Hvalue) as (m & Hm & Hattr & _).
  exists (matched_vibe m), (mapping_type m), (attributes m).
  split; [by eapply recorded_in_kb | done].
Qed.

(** X19.  Every attribute accepted by rule-based matching is, key and
    value, an attribute of an entry of the knowledge base, and every recorded
    match carries the mapping type and the attributes that the knowledge
    base binds to the matched vibe key. *)
Theorem matched_attributes_come_from_the_knowledge_base (vm : mappings) (threshold : Q)
    (extracted_phrases : list string) (individual_attributes : dict) :
  ∃ r, find_best_matches (__init__ vm threshold) extracted_phrases individual_attributes
       = Ret r
       ∧ (∀ m, m ∈ rule_based_matches (match_details r) →
            (matched_vibe m, (mapping_type m, attributes m)) ∈ kb_entries vm)
       ∧ ∀ key value, matched_attributes r !! key = Some value →
           ∃ vibe_key mapping_type attributes,
             (vibe_key, (mapping_type, attributes)) ∈ kb_entries vm
             ∧ attributes !! key = Some value.
Proof.
  destruct (find_best_matches_run vm threshold extracted_phrases individual_attributes)
    as (matched & confidence & method & Hrun & _).
  eexists. split; [exact Hrun|]. split.
  - intros m Hm. simpl in Hm. by apply recorded_in_kb in Hm.
  - intros key value Hvalue. exact (matched_in_kb _ _ _ _ _ _ _ Hrun Hvalue).
Qed.

End provenance.

Section size_of_a_turn.
Context `{ItemsOrder} `{Backend} `{Oracle} `{Collaborators}.
Context `{NLPAnalyzer.Models} `{NLPAnalyzer.TextTools}.

(** The size attribute of a turn, for the repository's analyzer. *)
Lemma turn_size (vm : mappings) (threshold : Q)
    (user_query : string) (user_preferences : option dict) :
  (∀ query r,
     NLPAnalyzer.analyze_query query = NLPAnalyzer.Done r →
     analyze_query query
     = (NLPAnalyzer.Analysis.extracted_attributes r, NLPAnalyzer.Analysis.key_phrases r)) →
  ∃ events reply,
    get_recommendations (__init__ vm threshold) user_query user_preferences
    = Ret (events, reply)
    ∧ (∀ value, final_attributes reply !! "size" = Some value →
         truthy value = true
         ∧ (default ∅ user_preferences !! "size" = Some value
            ∨ ∃ vibe_key mapping_type attributes,
                (vibe_key, (mapping_type, attributes)) ∈ kb_entries vm
                ∧ attributes !! "size" = Some value))
    ∧ (final_attributes reply !! "size" = None →
       ∃ message missing questions,
         reply = NeedsInfo message missing questions (final_attributes reply)
         ∧ "size" ∈ missing).
Proof.
  intros Hanalyzer.
  destruct (turn_run vm threshold user_query user_preferences)
    as (similarity & Hfind & _ & Hturn).
  simpl in Hturn. eexists _, _. split; [exact Hturn|].
  set (extracted := (analyze_query user_query).1) in *.
  set (step := gpt_step _ _ _ _).
  set (final := _merge_all_attributes _ _ _ _).
  assert (Hextracted : offer extracted "size" = None).
  { destruct (analyze_query_size user_query) as (r & Hr & Hsize).
    unfold extracted. rewrite (Hanalyzer _ _ Hr). simpl.
    by apply (offer_falsy _ _ VNone). }
  assert (Hstep : offer (default ∅ step.2) "size" = None).
  { unfold step, gpt_step. destruct (_ || _); simpl.
    - destruct (infer_attributes _ _ _) as [inferred|] eqn:Einfer; simpl.
      + unfold offer. rewrite (infer_drops _ _ _ _ "size" Einfer); [done|by left].
      + unfold offer. by rewrite lookup_empty.
    - unfold offer. by rewrite lookup_empty. }
  assert (Hfinal : final_attributes (respond user_query final).2 = final).
  { unfold respond. by destruct (_check_missing_attributes final). }
  rewrite Hfinal. split.
  - intros value Hvalue.
    destruct (merge_source _ _ _ _ _ _ Hvalue) as [Ho|[Ho|[Ho|Ho]]].
    + split; [by apply offer_truthy in Ho|]. left. by apply offer_lookup.
    + split; [by apply offer_truthy in Ho|]. right.
      apply offer_lookup in Ho. by eapply matched_in_kb.
    + congruence.
    + congruence.
  - intros Hnone. unfold respond.
    assert (Hmissing : "size" ∈ _check_missing_attributes final).
    { rewrite check_missing_closed. unfold present_and_truthy at 2. rewrite Hnone.
      apply elem_of_app. right. apply elem_of_app. left. by apply list_elem_of_singleton. }
    destruct (_check_missing_attributes final) as [|attr rest] eqn:Emissing.
    { by apply elem_of_nil in Hmissing. }
    simpl. by eexists _, _, _.
Qed.

(** X20.  When the system's analyzer is [NLPAnalyzer.analyze_query], the
    size of a turn is never read from the query: a size in the reply's
    attributes is the truthy size of the user preferences or the size
    attribute of an entry of the knowledge base, and when neither gives one
    the reply asks for the size. *)
Theorem size_is_never_read_from_the_query (vm : mappings) (threshold : Q)
    (user_query : string) (user_preferences : option dict) :
  (∀ query r,
     NLPAnalyzer.analyze_query query = NLPAnalyzer.Done r →
     analyze_query query
     = (NLPAnalyzer.Analysis.extracted_attributes r, NLPAnalyzer.Analysis.key_phrases r)) →
  ∃ events reply,
    get_recommendations (__init__ vm threshold) user_query user_preferences
    = Ret (events, reply)
    ∧ (∀ value, final_attributes reply !! "size" = Some value →
         truthy value = true
         ∧ (default ∅ user_preferences !! "size" = Some value
            ∨ ∃ vibe_key mapping_type attributes,
                (vibe_key, (mapping_type, attributes)) ∈ kb_entries vm
                ∧ attributes !! "size" = Some value))
    ∧ (final_attributes reply !! "size" = None →
       ∃ message missing questions,
         reply = NeedsInfo message missing questions (final_attributes reply)
         ∧ "size" ∈ missing).
Proof. apply turn_size. Qed.

End size_of_a_turn.

Lemma size_is_never_read_from_the_query_witness :
  (∀ query r,
     @NLPAnalyzer.analyze_query word_model plain_text_tools query = NLPAnalyzer.Done r →
     @analyze_query analyzer_collaborators query
     = (NLPAnalyzer.Analysis.extracted_attributes r, NLPAnalyzer.Analysis.key_phrases r))
  ∧ ∃ events reply,
      @get_recommendations traversal_order lukewarm_backend talkative_oracle
        analyzer_collaborators (@__init__ lukewarm_backend [] (8 # 10))
        "a summer dress in size M" None
      = Ret (events, reply)
      ∧ (∀ value, final_attributes reply !! "size" = Some value →
           truthy value = true
           ∧ (default (∅ : dict) None !! "size" = Some value
              ∨ ∃ vibe_key mapping_type attributes,
                  (vibe_key, (mapping_type, attributes)) ∈ kb_entries []
                  ∧ attributes !! "size" = Some value))
      ∧ (final_attributes reply !! "size" = None →
         ∃ message missing questions,
           reply = NeedsInfo message missing questions (final_attributes reply)
           ∧ "size" ∈ missing).
Proof.
  assert (Hanalyzer : ∀ query r,
     @NLPAnalyzer.analyze_query word_model plain_text_tools query = NLPAnalyzer.Done r →
     @analyze_query analyzer_collaborators query
     = (NLPAnalyzer.Analysis.extracted_attributes r, NLPAnalyzer.Analysis.key_phrases r)).
  { intros query r Hr. simpl. by rewrite Hr. }
  split; [exact Hanalyzer|].
  exact (@size_is_never_read_from_the_query traversal_order lukewarm_backend
           talkative_oracle analyzer_collaborators word_model plain_text_tools
           [] (8 # 10) "a summer dress in size M" None Hanalyzer).
Defined.

(** ** The conversation of the web application *)

Lemma truthy_not_blank (value : pyval) :
  truthy value = true → StreamlitApp.not_blank value = true.
Proof.
  by destruct value as [|b|q|[|c s]|[|item items]|fields].
Qed.

Section conversation.
Import StreamlitApp.
Context `{ItemsOrder} `{Backend} `{Oracle} `{Collaborators} `{Formatting}.

Lemma remember_lookup (extracted pending : dict) (key : string) :
  remember extracted pending !! key
  = match offer extracted key with
    | Some value => Some value
    | None => pending !! key
    end.
Proof.
  unfold remember.
  rewrite (own_key_loop
             (fun _ value => if truthy value && not_blank value then Some value else None)).
  - unfold offer. destruct (extracted !! key) as [value|]; simpl; [|done].
    destruct (truthy value) eqn:Etruthy; [|done].
    by rewrite (truthy_not_blank value Etruthy).
  - intros acc k v. by destruct (truthy v && not_blank v).
Qed.

(** The reply of a turn of a system built by [__init__]. *)
Lemma turn_reply (vm : mappings) (threshold : Q) (user_query : string)
    (user_preferences : option dict) (events : list event) (reply : response) :
  get_recommendations (__init__ vm threshold) user_query user_preferences
  = Ret (events, reply) →
  ∃ rule_based gpt_inferred,
    let final := _merge_all_attributes (analyze_query user_query).1 rule_based
                   gpt_inferred (default ∅ user_preferences) in
    reply = (respond user_query final).2.
Proof.
  destruct (turn_run vm threshold user_query user_preferences)
    as (similarity & _ & _ & Hturn).
  simpl in Hturn. rewrite Hturn. intros [= _ <-]. eexists _, _. cbv zeta. reflexivity.
Qed.

Lemma turn_total (vm : mappings) (threshold : Q) (user_query : string)
    (user_preferences : option dict) :
  ∃ events reply,
    get_recommendations (__init__ vm threshold) user_query user_preferences
    = Ret (events, reply).
Proof.
  destruct (turn_run vm threshold user_query user_preferences)
    as (similarity & _ & _ & Hturn).
  by eexists _, _.
Qed.

Lemma respond_reply (user_query : string) (final : dict) :
  match (respond user_query final).2 with
  | NeedsInfo _ missing _ attributes =>
      attributes = final ∧ missing = _check_missing_attributes final ∧ missing ≠ []
  | Ready _ _ attributes => attributes = final ∧ _check_missing_attributes final = []
  end.
Proof.
  unfold respond. by destruct (_check_missing_attributes final).
Qed.

(** What [process_user_input] does to the session. *)
Lemma process_cases (vm : mappings) (threshold : Q) (user_input : string)
    (user_prefs : dict) (state state' : session) :
  process_user_input (__init__ vm threshold) user_input user_prefs state = Ret state' →
  ∃ combined_query rule_based gpt_inferred,
    let final := _merge_all_attributes (analyze_query combined_query).1 rule_based
                   gpt_inferred (pending_attributes state ∪ user_prefs) in
    match _check_missing_attributes final with
    | [] =>
        ∃ recommendation,
          state' = {| conversation_history :=
                        (conversation_history state ++ [(user_input, recommendation)])%list;
                      pending_attributes := ∅;
                      missing_attributes := [];
                      conversation_active := false |}
    | missing =>
        ∃ message,
          state' = {| conversation_history :=
                        (conversation_history state ++ [(user_input, message)])%list;
                      pending_attributes :=
                        remember (analyze_query user_input).1
                          (final ∪ pending_attributes state);
                      missing_attributes := missing;
                      conversation_active := true |}
    end.
Proof.
  unfold process_user_input.
  destruct (if bool_decide (pending_attributes state ≠ ∅) then _ else _)
    as [combined_query|e]; simpl; [|done].
  destruct (turn_total vm threshold combined_query
              (Some (pending_attributes state ∪ user_prefs))) as (events & reply & Hturn).
  rewrite Hturn.
  destruct (turn_reply _ _ _ _ _ _ Hturn) as (rule_based & gpt_inferred & Hreply).
  simpl in Hreply. intros Hrun. exists combined_query, rule_based, gpt_inferred. simpl.
  set (final := _merge_all_attributes _ _ _ _) in *.
  pose proof (respond_reply combined_query final) as Hshape. rewrite <- Hreply in Hshape.
  destruct reply as [message missing questions attributes|recommendation products attributes].
  - destruct Hshape as (-> & -> & Hmissing). injection Hrun as <-.
    destruct (_check_missing_attributes final); [done|]. by exists message.
  - destruct Hshape as (-> & ->). injection Hrun as <-. by exists recommendation.
Qed.

(** X21.  An attribute that the session remembers with a truthy value is
    not asked for in the next turn: a remembered category, size or budget is
    not among the missing attributes after [process_user_input], and a
    remembered occasion, season, style or fit keeps ['occasion or style']
    off the list.  When the conversation goes on, the attribute stays
    remembered, with the value the analyzer reads in the current input if
    there is a truthy one and with the old value otherwise. *)
Theorem remembered_attribute_is_not_asked_again (vm : mappings) (threshold : Q)
    (user_input : string) (user_prefs : dict) (state state' : session)
    (key : string) (value : pyval) :
  pending_attributes state !! key = Some value →
  truthy value = true →
  process_user_input (__init__ vm threshold) user_input user_prefs state = Ret state' →
  (key ∈ ["category"; "size"; "budget"] → key ∉ missing_attributes state')
  ∧ (key ∈ ["occasion"; "season"; "style"; "fit"] →
     "occasion or style" ∉ missing_attributes state')
  ∧ (conversation_active state' = true →
     pending_attributes state' !! key
     = Some (default value (offer (analyze_query user_input).1 key))).
Proof.
  intros Hkey Htruthy Hrun.
  destruct (process_cases _ _ _ _ _ _ Hrun) as (query & rule_based & gpt & Hcases).
  simpl in Hcases. set (final := _merge_all_attributes _ _ _ _) in *.
  assert (Hfinal : final !! key = Some value).
  { unfold final. rewrite merge_lookup. simpl.
    rewrite (offer_Some _ key value); [done| |done].
    apply lookup_union_Some_raw. by left. }
  assert (Hpresent : present_and_truthy final key = true).
  { unfold present_and_truthy. by rewrite Hfinal. }
  destruct (_check_missing_attributes final) as [|attr rest] eqn:Emissing.
  - destruct Hcases as (recommendation & ->). simpl.
    split; [intros _; apply not_elem_of_nil|].
    split; [intros _; apply not_elem_of_nil | done].
  - destruct Hcases as (message & ->). simpl. rewrite <- Emissing.
    split; [by apply present_not_missing|].
    split; [by apply context_not_missing|].
    intros _. rewrite remember_lookup.
    destruct (offer _ key); [done|]. simpl.
    apply lookup_union_Some_raw. by left.
Qed.

Lemma remember_truthy (extracted pending : dict) :
  all_truthy pending → all_truthy (remember extracted pending).
Proof.
  intros Hpending key value. rewrite remember_lookup.
  destruct (offer extracted key) as [v|] eqn:Eoffer.
  - intros [= <-]. by apply offer_truthy in Eoffer.
  - apply Hpending.
Qed.

Lemma merge_truthy (extracted rule_based : dict) (gpt_inferred : option dict)
    (user_prefs : dict) :
  all_truthy (_merge_all_attributes extracted rule_based gpt_inferred user_prefs).
Proof.
  intros key value Hvalue.
  destruct (merge_source _ _ _ _ _ _ Hvalue) as [Ho|[Ho|[Ho|Ho]]];
    by apply offer_truthy in Ho.
Qed.

Lemma final_cases (vm : mappings) (threshold : Q) (pending user_prefs : dict)
    (state state' : session) :
  get_final_recommendations (__init__ vm threshold) pending user_prefs state = Ret state' →
  state' = state
  ∨ state' = {| conversation_history := conversation_history state;
                pending_attributes := ∅;
                missing_attributes := [];
                conversation_active := false |}.
Proof.
  unfold get_final_recommendations.
  destruct (context_parts _) as [parts|e]; simpl; [|done].
  destruct (get_recommendations _ _ _) as [[events [? ? ? ?|? ? ?]]|e];
    intros [= <-]; auto.
Qed.

(** X22.  In every session that runs of the application can produce, all
    remembered values are truthy; outside a conversation nothing is
    remembered and nothing is missing; inside a conversation something is
    missing, and what is missing is among ['category'], ['size'], ['budget']
    and ['occasion or style']. *)
Theorem reachable_sessions_are_consistent (vm : mappings) (threshold : Q)
    (state : session) :
  reachable (__init__ vm threshold) state →
  all_truthy (pending_attributes state)
  ∧ (conversation_active state = false →
     pending_attributes state = ∅ ∧ missing_attributes state = [])
  ∧ (conversation_active state = true →
     missing_attributes state ≠ []
     ∧ ∀ attr, attr ∈ missing_attributes state →
         attr ∈ ["category"; "size"; "budget"; "occasion or style"]).
Proof.
  assert (Hreset : ∀ history,
            let fresh := {| conversation_history := history; pending_attributes := ∅;
                            missing_attributes := []; conversation_active := false |} in
            all_truthy (pending_attributes fresh)
            ∧ (conversation_active fresh = false →
               pending_attributes fresh = ∅ ∧ missing_attributes fresh = [])
            ∧ (conversation_active fresh = true →
               missing_attributes fresh ≠ []
               ∧ ∀ attr, attr ∈ missing_attributes fresh →
                   attr ∈ ["category"; "size"; "budget"; "occasion or style"])).
  { intros history. simpl. split; [|split; [done|done]].
    intros key value Hkey. by rewrite lookup_empty in Hkey. }
  induction 1 as [|a state state' Hreach IH Hrun]; [apply (Hreset [])|].
  destruct a as [user_input| |]; simpl in Hrun.
  - destruct (negb (String.eqb (strip user_input) "")); [|by injection Hrun as <-].
    destruct (process_cases _ _ _ _ _ _ Hrun) as (query & rule_based & gpt & Hcases).
    simpl in Hcases. set (final := _merge_all_attributes _ _ _ _) in *.
    destruct (_check_missing_attributes final) as [|attr rest] eqn:Emissing.
    + destruct Hcases as (recommendation & ->). apply Hreset.
    + destruct Hcases as (message & ->). simpl.
      split; [|split; [done|]].
      * apply remember_truthy. intros key value [Hvalue|[_ Hvalue]]%lookup_union_Some_raw.
        -- exact (merge_truthy _ _ _ _ key value Hvalue).
        -- exact (proj1 IH key value Hvalue).
      * intros _. split; [done|]. intros attr' Hattr'. rewrite <- Emissing in Hattr'.
        rewrite check_missing_closed in Hattr'.
        destruct (present_and_truthy final "category");
          destruct (present_and_truthy final "size");
          destruct (present_and_truthy final "budget");
          destruct (wants_context final); simpl in Hattr';
          apply list_elem_of_In in Hattr'; apply list_elem_of_In;
          simpl in *; tauto.
  - injection Hrun as <-. apply (Hreset []).
  - case_bool_decide; [|by injection Hrun as <-].
    destruct (final_cases _ _ _ _ _ _ Hrun) as [-> | ->]; [done | apply Hreset].
Qed.

End conversation.

Section conversation_without_size.
Import StreamlitApp.
Context `{ItemsOrder} `{Backend} `{Oracle} `{Collaborators} `{Formatting}.
Context `{NLPAnalyzer.Models} `{NLPAnalyzer.TextTools}.




End conversation_without_size.

Lemma remembered_attribute_is_not_asked_again_witness :
  let system := @__init__ lukewarm_backend [] (8 # 10) in
  let state := {| StreamlitApp.conversation_history := [("a dress", "What size do you need?")];
                  StreamlitApp.pending_attributes := {[ "category" := VStr "dress" ]};
                  StreamlitApp.missing_attributes := ["size"; "budget"];
                  StreamlitApp.conversation_active := true |} in
  let run := @StreamlitApp.process_user_input traversal_order lukewarm_backend
               talkative_oracle quiet_collaborators plain_formatting
               system "in size M" ∅ state in
  let state' := match run with Ret s => s | Raise _ => StreamlitApp.initial end in
  StreamlitApp.pending_attributes state !! "category" = Some (VStr "dress")
  ∧ truthy (VStr "dress") = true
  ∧ run = Ret state'
  ∧ ("category" ∈ ["category"; "size"; "budget"] →
     "category" ∉ StreamlitApp.missing_attributes state')
  ∧ ("category" ∈ ["occasion"; "season"; "style"; "fit"] →
     "occasion or style" ∉ StreamlitApp.missing_attributes state')
  ∧ (StreamlitApp.conversation_active state' = true →
     StreamlitApp.pending_attributes state' !! "category"
     = Some (default (VStr "dress")
               (offer (@analyze_query quiet_collaborators "in size M").1 "category"))).
Proof.
  intros system state run state'.
  assert (Hkey : StreamlitApp.pending_attributes state !! "category" = Some (VStr "dress"))
    by (vm_compute; reflexivity).
  assert (Htruthy : truthy (VStr "dress") = true) by reflexivity.
  assert (Hrun : run = Ret state') by (vm_compute; reflexivity).
  split; [exact Hkey|]. split; [exact Htruthy|]. split; [exact Hrun|].
  exact (@remembered_attribute_is_not_asked_again traversal_order lukewarm_backend
           talkative_oracle quiet_collaborators plain_formatting [] (8 # 10)
           "in size M" ∅ state state' "category" (VStr "dress") Hkey Htruthy Hrun).
Defined.

Lemma reachable_sessions_are_consistent_witness :
  let system := @__init__ lukewarm_backend [] (8 # 10) in
  let run := @StreamlitApp.main traversal_order lukewarm_backend talkative_oracle
               quiet_collaborators plain_formatting system
               (StreamlitApp.Send "a dress") StreamlitApp.initial in
  let state := match run with Ret s => s | Raise _ => StreamlitApp.initial end in
  @StreamlitApp.reachable traversal_order lukewarm_backend talkative_oracle
    quiet_collaborators plain_formatting system state
  ∧ all_truthy (StreamlitApp.pending_attributes state)
  ∧ (StreamlitApp.conversation_active state = false →
     StreamlitApp.pending_attributes state = ∅ ∧ StreamlitApp.missing_attributes state = [])
  ∧ (StreamlitApp.conversation_active state = true →
     StreamlitApp.missing_attributes state ≠ []
     ∧ ∀ attr, attr ∈ StreamlitApp.missing_attributes state →
         attr ∈ ["category"; "size"; "budget"; "occasion or style"]).
Proof.
  intros system run state.
  assert (Hreach : @StreamlitApp.reachable traversal_order lukewarm_backend talkative_oracle
                     quiet_collaborators plain_formatting system state).
  { apply (StreamlitApp.reachable_run system (StreamlitApp.Send "a dress")
             StreamlitApp.initial state).
    - apply StreamlitApp.reachable_initial.
    - vm_compute. reflexivity. }
  split; [exact Hreach|].
  exact (@reachable_sessions_are_consistent traversal_order lukewarm_backend
           talkative_oracle quiet_collaborators plain_formatting [] (8 # 10) state Hreach).
Defined.


(** ** The two tables of category attributes *)

(** X24.  The validator and the catalog filter agree on the attributes of
    a category: [get_available_attributes] and
    [get_valid_attributes_for_category] return the same list for every
    string, the list is empty exactly when the lower-cased string is none of
    ['top'], ['dress'], ['skirt'], ['pants'], and it never contains
    ['category'], ['size'] or ['budget']. *)
Theorem category_tables_agree (category : string) :
  get_available_attributes category = get_valid_attributes_for_category category
  ∧ (get_available_attributes category ≠ []
     ↔ lower category ∈ ["top"; "dress"; "skirt"; "pants"])
  ∧ ∀ attr, attr ∈ get_available_attributes category →
      attr ∉ ["category"; "size"; "budget"].
Proof.
  unfold get_available_attributes, get_valid_attributes_for_category.
  split; [reflexivity|].
  destruct (category_attributes !! lower category) as [attrs|] eqn:E; simpl.
  - pose proof (category_attributes_inv _ _ E) as Hattrs.
    apply elem_of_list_to_map_2, list_elem_of_In in E. simpl in E.
    apply list_elem_of_In in Hattrs. simpl in Hattrs.
    split.
    + split.
      * intros _. apply list_elem_of_In. simpl.
        destruct E as [E|[E|[E|[E|[]]]]]; injection E as <- _; tauto.
      * intros _. destruct Hattrs as [<-|[<-|[<-|[<-|[]]]]]; done.
    + intros attr Hattr%list_elem_of_In Hno%list_elem_of_In.
      destruct Hattrs as [<-|[<-|[<-|[<-|[]]]]]; simpl in Hattr, Hno;
        intuition congruence.
  - split.
    + split; [done|]. intros Hin%list_elem_of_In. simpl in Hin.
      destruct Hin as [Hin|[Hin|[Hin|[Hin|[]]]]]; rewrite <- Hin in E;
        vm_compute in E; discriminate.
    + intros attr Hattr. by apply elem_of_nil in Hattr.
Qed.

(** ** Ties between recorded matches *)

Section ties.
Context `{ItemsOrder} `{Backend}.

Lemma merge_attribute_earliest (threshold : Q) (found : list rule_based_match)
    (m0 : rule_based_match) (st : merge_state) (key : string) (value : pyval) :
  dom st.1.2 = dom st.1.1 →
  covers threshold found st →
  attributes m0 !! key = Some value →
  earliest threshold (found ++ [m0]) st →
  earliest threshold (found ++ [m0]) (merge_attribute (similarity_score m0) st (key, value)).
Proof.
  intros Hdom Hcov Hvalue Hst.
  destruct st as [[matched confidence] method]. simpl in *.
  assert (Hnew : ∀ old,
            (∀ other, other ∈ found → (threshold <= similarity_score other)%Q →
               is_Some (attributes other !! key) →
               (similarity_score other < similarity_score m0)%Q) →
            earliest threshold (found ++ [m0])
              (<[key := value]> matched, <[key := similarity_score m0]> confidence, old)).
  { intros old Hothers k score. simpl. destruct (decide (k = key)) as [->|Hne].
    - rewrite !lookup_insert_eq. intros [= <-].
      exists found, m0, []. do 2 (split; [done|]). split; [by eexists|].
      split; [by rewrite Hvalue | done].
    - rewrite !lookup_insert_ne by done. apply Hst. }
  unfold merge_attribute.
  destruct (matched !! key) as [kept|] eqn:Ekept.
  - destruct (Qlt_bool _ _) eqn:Elt; [|done].
    apply Hnew. intros other Hother Hthr Hkey.
    destruct (Hcov other Hother Hthr key Hkey) as (score & Hscore & Hle).
    simpl in Hscore. rewrite Hscore in Elt. simpl in Elt.
    apply Qlt_bool_true in Elt. by eapply Qle_lt_trans.
  - apply Hnew. intros other Hother Hthr Hkey.
    destruct (Hcov other Hother Hthr key Hkey) as (score & Hscore & _).
    simpl in Hscore. exfalso.
    assert (Hin : key ∈ dom confidence) by (apply elem_of_dom; by eexists).
    rewrite Hdom in Hin. apply elem_of_dom in Hin as [? Hin]. congruence.
Qed.

Lemma fold_merge_earliest (threshold : Q) (found : list rule_based_match)
    (m0 : rule_based_match) (items : list (string * pyval)) (st : merge_state) :
  (threshold <= similarity_score m0)%Q →
  (∀ key value, (key, value) ∈ items → attributes m0 !! key = Some value) →
  accepted_state threshold (found ++ [m0]) st →
  covers threshold found st →
  earliest threshold (found ++ [m0]) st →
  earliest threshold (found ++ [m0])
    (fold_left (merge_attribute (similarity_score m0)) items st).
Proof.
  intros Hthr. revert st.
  induction items as [|[k v] items IH]; intros st Hitems Hacc Hcov Hst; simpl; [done|].
  assert (Hkv : attributes m0 !! k = Some v) by (apply Hitems; by left).
  assert (Hm0 : m0 ∈ (found ++ [m0])%list).
  { apply elem_of_app. right. by apply list_elem_of_singleton. }
  apply IH.
  - intros key value Hmem. apply Hitems. by right.
  - by apply merge_attribute_accepted.
  - intros m Hm Hmthr key Hkey.
    destruct (Hcov m Hm Hmthr key Hkey) as (old & Hold & Hle).
    destruct (merge_attribute_confidence_grows (similarity_score m0) st (k, v) key old)
      as (new & Hnew & Hle'); [by destruct Hacc | done |].
    exists new. split; [done|]. by eapply Qle_trans.
  - apply merge_attribute_earliest; try done. by destruct Hacc.
Qed.

Lemma earliest_grow (threshold : Q) (found : list rule_based_match)
    (m : rule_based_match) (st : merge_state) :
  earliest threshold found st → earliest threshold (found ++ [m]) st.
Proof.
  intros Hst key score Hscore.
  destruct (Hst key score Hscore) as (before & m' & after & -> & Hrest).
  exists before, m', (after ++ [m])%list. split; [|done].
  by rewrite <- (assoc_L (++)).
Qed.

Lemma match_candidates_earliest (self : SimilarityMatcher.t) (candidates : list string) :
  kb_consistent self →
  ∀ found st,
    accepted_state (similarity_threshold self) found st →
    covers (similarity_threshold self) found st →
    earliest (similarity_threshold self) found st →
    ∃ st',
      match_candidates self candidates found st
      = Ret ((found ++ omap (recorded self) candidates)%list, st')
      ∧ earliest (similarity_threshold self) (found ++ omap (recorded self) candidates) st'.
Proof.
  intros Hkb. induction candidates as [|candidate candidates IH];
    intros found st Hacc Hcov Hst.
  { simpl. rewrite app_nil_r. by exists st. }
  rewrite omap_cons_eq. cbn [match_candidates].
  destruct (skipped candidate) eqn:Eskip.
  { assert (recorded self candidate = None) as ->
      by (unfold recorded; by rewrite Eskip).
    by apply IH. }
  destruct (find_best_match_total self candidate Hkb) as (answer & Hanswer).
  rewrite Hanswer. simpl mbind.
  destruct answer as [[[[vibe_key score] mapping_type] attrs]|].
  2:{ assert (recorded self candidate = None) as ->
        by (unfold recorded; by rewrite Eskip, Hanswer).
      by apply IH. }
  set (m0 := {| input_phrase := candidate; matched_vibe := vibe_key;
                similarity_score := score; mapping_type := mapping_type;
                attributes := attrs |}).
  assert (recorded self candidate = Some m0) as ->
    by (unfold recorded; by rewrite Eskip, Hanswer).
  rewrite (cons_middle m0 found (omap (recorded self) candidates)), (assoc_L (++)).
  assert (Hm0 : m0 ∈ (found ++ [m0])%list).
  { apply elem_of_app. right. by apply list_elem_of_singleton. }
  destruct (Qge_bool score (similarity_threshold self)) eqn:Ethr.
  - apply Qge_bool_true in Ethr.
    assert (Hitems : ∀ key value, (key, value) ∈ dict_items attrs →
                       attributes m0 !! key = Some value).
    { intros key value Hkv. by apply elem_of_dict_items. }
    destruct (fold_merge_accepted (similarity_threshold self) (found ++ [m0]) m0
                (dict_items attrs) st Hm0 Ethr Hitems) as (Hacc' & Hgrow & Hfloor).
    { by apply accepted_state_grow. }
    apply IH; [done| |].
    + intros m Hm Hmthr key Hkey. apply elem_of_app in Hm as [Hm|Hm].
      * destruct (Hcov m Hm Hmthr key Hkey) as (old & Hold & Hle).
        destruct (Hgrow key old Hold) as (new & Hnew & Hle').
        exists new. split; [done|]. by eapply Qle_trans.
      * apply list_elem_of_singleton in Hm as ->. destruct Hkey as [value Hvalue].
        apply (Hfloor key value). by apply elem_of_dict_items.
    + apply (fold_merge_earliest _ found m0); try done.
      * by apply accepted_state_grow.
      * by apply earliest_grow.
  - apply IH; [by apply accepted_state_grow | | by apply earliest_grow].
    intros m Hm Hmthr key Hkey. apply elem_of_app in Hm as [Hm|Hm].
    + by apply Hcov.
    + apply list_elem_of_singleton in Hm as ->. simpl in Hmthr.
      apply Qge_bool_true in Hmthr. congruence.
Qed.

(** X6.  The value kept for a key comes from a recorded match that
    passed the threshold, whose score is the confidence of the key, and which
    is the first among the best: the recorded matches before it that passed
    the threshold and have the key score strictly less, those after it score
    at most as much. *)
Theorem earliest_of_the_best_keeps_the_key (vm : mappings) (threshold : Q)
    (extracted_phrases : list string) (individual_attributes : dict) :
  ∃ r, find_best_matches (__init__ vm threshold) extracted_phrases individual_attributes
       = Ret r
       ∧ ∀ key value, matched_attributes r !! key = Some value →
           ∃ before m after,
             rule_based_matches (match_details r) = (before ++ m :: after)%list
             ∧ attributes m !! key = Some value
             ∧ confidence_scores (match_details r) !! key = Some (similarity_score m)
             ∧ (threshold <= similarity_score m)%Q
             ∧ (∀ other, other ∈ before →
                  (threshold <= similarity_score other)%Q →
                  key ∈ dom (attributes other) →
                  (similarity_score other < similarity_score m)%Q)
             ∧ (∀ other, other ∈ after →
                  (threshold <= similarity_score other)%Q →
                  key ∈ dom (attributes other) →
                  (similarity_score other <= similarity_score m)%Q).
Proof.
  destruct (find_best_matches_run vm threshold extracted_phrases individual_attributes)
    as (matched & confidence & method & Hrun & (Hdom & _ & _ & Hvalues) & Hcov).
  destruct (match_candidates_earliest (__init__ vm threshold)
              (all_candidates extracted_phrases individual_attributes)
              (init_consistent vm threshold) [] ((∅, ∅, ∅) : merge_state))
    as (st' & Hrun' & Hst').
  { do 2 (split; [done|]). split; intros key x Hkey; simpl in Hkey;
      by rewrite lookup_empty in Hkey. }
  { intros m Hm. by apply elem_of_nil in Hm. }
  { intros key score Hkey. simpl in Hkey. by rewrite lookup_empty in Hkey. }
  rewrite init_threshold in Hst'. simpl in Hrun', Hst'.
  assert (st' = (matched, confidence, method)) as ->.
  { unfold find_best_matches in Hrun. rewrite Hrun' in Hrun. simpl in Hrun.
    destruct st' as [[matched' confidence'] method']. by injection Hrun as -> -> ->. }
  eexists. split; [exact Hrun|]. simpl in *. intros key value Hvalue.
  assert (Hscore : is_Some (confidence !! key)).
  { apply elem_of_dom. rewrite Hdom. apply elem_of_dom. by eexists. }
  destruct Hscore as [score Hscore].
  destruct (Hst' key score Hscore) as (before & m & after & Hsplit & <- & _ & Hkept & Hbefore).
  simpl in Hkept. exists before, m, after. split; [done|].
  split; [by rewrite <- Hkept|]. split; [done|]. split.
  { destruct (Hvalues key value Hvalue) as (m' & _ & _ & Hscore' & Hthr).
    simpl in Hscore'. rewrite Hscore in Hscore'. by injection Hscore' as ->. }
  split.
  - intros other Hother Hthr Hkey%elem_of_dom. by apply Hbefore.
  - intros other Hother Hthr Hkey%elem_of_dom.
    assert (Hin : other ∈ omap (recorded (__init__ vm threshold))
                           (all_candidates extracted_phrases individual_attributes)).
    { rewrite Hsplit. apply elem_of_app. right. by right. }
    destruct (Hcov other Hin Hthr key Hkey) as (score' & Hscore' & Hle).
    simpl in Hscore'. rewrite Hscore in Hscore'. by injection Hscore' as <-.
Qed.

End ties.

(** ** When the chat raises *)

Lemma strings_raise (items : list pyval) (e : exn) :
  StreamlitApp.strings items = Raise e
  ↔ e = TypeError ∧ ∃ item, item ∈ items ∧ is_str item = false.
Proof.
  revert e. induction items as [|item items IH]; intros e; simpl.
  { split; [done|]. intros (_ & item & Hin & _). by apply elem_of_nil in Hin. }
  assert (Hhere : is_str item = false →
            (Raise TypeError : result (list string)) = Raise e
            ↔ e = TypeError ∧ ∃ item', item' ∈ item :: items ∧ is_str item' = false).
  { intros Hitem. split; [intros [= <-]|by intros [-> _]].
    split; [done|]. exists item. split; [by left | done]. }
  destruct item as [|b|q|s|nested|fields]; try (by apply Hhere).
  destruct (StreamlitApp.strings items) as [rest|e'] eqn:Erest; simpl.
  - split; [done|]. intros (-> & item & [->|Hin]%elem_of_cons & Hitem); [done|].
    assert (Hraise : (Ret rest : result (list string)) = Raise TypeError); [|done].
    apply IH. split; [done|]. by exists item.
  - destruct (proj1 (IH e') eq_refl) as (-> & item & Hin & Hitem). split.
    + intros [= <-]. split; [done|]. exists item. split; [by right | done].
    + by intros (-> & _).
Qed.

Section chat_errors.
Import StreamlitApp.
Context `{ItemsOrder} `{Backend} `{Oracle} `{Collaborators} `{Formatting}.

Lemma context_part_raise (key : string) (value : pyval) (e : exn) :
  context_part (key, value) = Raise e
  ↔ e = TypeError
    ∧ ∃ items item, value = VList items ∧ item ∈ items ∧ is_str item = false.
Proof.
  unfold context_part.
  destruct value as [|b|q|s|items|fields];
    try (split; [done | by intros (_ & ? & ? & ? & _)]).
  destruct (strings items) as [parts|e'] eqn:Eparts; simpl.
  - split; [done|]. intros (-> & items' & item & [= <-] & Hin & Hitem).
    assert (Hraise : (Ret parts : result (list string)) = Raise TypeError); [|done].
    rewrite <- Eparts. apply strings_raise. split; [done|]. by exists item.
  - split.
    + intros [= <-]. apply strings_raise in Eparts as (-> & item & Hin & Hitem).
      split; [done|]. by exists items, item.
    + intros (-> & _). apply strings_raise in Eparts as (-> & _). done.
Qed.

Lemma context_parts_raise (entries : list (string * pyval)) (e : exn) :
  context_parts entries = Raise e
  ↔ e = TypeError
    ∧ ∃ key items item,
        (key, VList items) ∈ entries ∧ item ∈ items ∧ is_str item = false.
Proof.
  revert e. induction entries as [|[key value] entries IH]; intros e.
  { simpl. split; [done|]. intros (_ & ? & ? & ? & Hin & _). by apply elem_of_nil in Hin. }
  cbn [context_parts].
  destruct (context_part (key, value)) as [part|e'] eqn:Epart; simpl.
  - destruct (context_parts entries) as [rest|e''] eqn:Erest; simpl.
    + split; [done|].
      intros (-> & k & items & item & [[= -> <-]|Hin]%elem_of_cons & Hitem & Hstr).
      * assert (Hraise : context_part (key, VList items) = Raise TypeError).
        { apply context_part_raise. split; [done|]. by exists items, item. }
        congruence.
      * assert (Hraise : (Ret rest : result (list string)) = Raise TypeError); [|done].
        apply IH. split; [done|]. by exists k, items, item.
    + destruct (proj1 (IH e'') eq_refl) as (-> & k & items & item & Hin & ?). split.
      * intros [= <-]. split; [done|]. exists k, items, item. split; [by right | done].
      * by intros (-> & _).
  - apply context_part_raise in Epart as (-> & items & item & -> & Hin & Hstr).
    split.
    + intros [= <-]. split; [done|]. exists key, items, item. split; [by left | done].
    + by intros (-> & _).
Qed.

(** X25.  [process_user_input] raises in exactly one case: a remembered
    attribute is a list with an item that is not a string, which makes the
    [join] of the context fail with [TypeError] before the [try] is
    entered. *)
Theorem chat_raises_only_on_a_list_with_a_non_string (system : SimilarityMatcher.t)
    (user_input : string) (user_prefs : dict) (state : session) (e : exn) :
  process_user_input system user_input user_prefs state = Raise e
  ↔ e = TypeError
    ∧ ∃ key items item,
        pending_attributes state !! key = Some (VList items)
        ∧ item ∈ items ∧ is_str item = false.
Proof.
  unfold process_user_input.
  assert (Hafter : ∀ query, ¬
            match get_recommendations system query
                    (Some (pending_attributes state ∪ user_prefs)) with
            | Ret (_, Ready recommendation _ _) =>
                Ret {| conversation_history :=
                         (conversation_history state ++ [(user_input, recommendation)])%list;
                       pending_attributes := ∅;
                       missing_attributes := [];
                       conversation_active := false |}
            | Ret (_, NeedsInfo message missing _ final_attributes) =>
                Ret {| conversation_history :=
                         (conversation_history state ++ [(user_input, message)])%list;
                       pending_attributes :=
                         remember (analyze_query user_input).1
                           (final_attributes ∪ pending_attributes state);
                       missing_attributes := missing;
                       conversation_active := true |}
            | Raise _ => Ret state
            end = Raise e).
  { intros query. by destruct (get_recommendations _ _ _) as [[events [? ? ? ?|? ? ?]]|?]. }
  case_bool_decide as Hpending.
  - destruct (context_parts _) as [parts|e'] eqn:Eparts; simpl.
    + split; [intros Hraise; by apply Hafter in Hraise|].
      intros (-> & key & items & item & Hkey & Hitem & Hstr).
      assert (Hraise : (Ret parts : result (list string)) = Raise TypeError); [|done].
      rewrite <- Eparts. apply context_parts_raise. split; [done|].
      exists key, items, item. split; [by apply elem_of_dict_items | done].
    + apply context_parts_raise in Eparts as (-> & key & items & item & Hin & Hitem & Hstr).
      split; [intros [= <-]|by intros (-> & _)].
      split; [done|]. exists key, items, item. split; [by apply elem_of_dict_items|done].
  - simpl. split; [intros Hraise; by apply Hafter in Hraise|].
    intros (_ & key & items & item & Hkey & _).
    by rewrite Hpending, lookup_empty in Hkey.
Qed.

End chat_errors.
